(** * Heat-exchanger calculators: a shallow embedding and its properties

    The development embeds the two iterative solvers of the repository,
    the double-pipe pipe-selection optimizer ([projects/dphx/script.js],
    function [calculateDPHX]) and the shell-and-tube design loop
    ([projects/sthx/script.js], functions [calculateSTHX],
    [runDesignIteration], [performKernRating], [calculateDuty],
    [calculateLMTD]), together with the older single-pass calculators
    that share their entry-point names.

    JavaScript numbers are IEEE 754 binary64 values, so they are modelled
    by Rocq's primitive floats: [+], [-], [*], [/], [sqrt], [abs] and the
    comparisons are bit-exact, including NaN, the infinities and the two
    zeros.  [Math.pow], [Math.log] and [Math.exp] are left to the engine by
    ECMA-262 ("implementation-approximated") except on the special values
    the standard fixes; the model does the same: the special values are
    written out and the rest is delegated to an [Engine] that every
    theorem quantifies over. *)

From Stdlib Require Import ZArith Floats List String Bool Lia.
From stdpp Require Import base gmap strings.
Set Warnings "-inexact-float".

(** ** JavaScript numbers and the [Math] object *)

Module JS.

Local Open Scope float_scope.

(** What ECMA-262 leaves to the implementation, or what is not modelled
    here: the approximated branch of the three transcendental functions,
    the conversion of strings to numbers behind [parseFloat] and
    [parseInt], and [Number::toString]. *)
Record Engine : Type := {
  approx_pow : float -> float -> float;
  approx_log : float -> float;
  approx_exp : float -> float;
  parseFloat_string : string -> float;
  parseInt_string : string -> float;
  toString_number : float -> string
}.

Definition Math_PI : float := 3.141592653589793.

(** [ToBoolean] on a Number: NaN, [+0] and [-0] are falsy. *)
Definition truthy (x : float) : bool := negb (is_nan x || (x =? 0)).

(** [x || d] on Numbers. *)
Definition js_or (x d : float) : float := if truthy x then x else d.

Definition Math_abs (x : float) : float := abs x.
Definition Math_sqrt (x : float) : float := sqrt x.

(** [2^52]: from here on every binary64 value is an integer. *)
Definition two52 : float := 4503599627370496.

(** [Math.floor], exact: below [2^52] adding and removing [2^52] rounds to
    the nearest integer, which is then corrected downwards. *)
Definition Math_floor (x : float) : float :=
  if is_nan x || is_infinity x then x
  else if two52 <=? abs x then x
  else if x =? 0 then x
  else if 0 <? x then
    let r := (x + two52) - two52 in if x <? r then r - 1 else r
  else
    let r := - ((- x + two52) - two52) in if x <? r then r - 1 else r.

(** [Math.ceil(x) = -Math.floor(-x)], signed zeros included. *)
Definition Math_ceil (x : float) : float := - Math_floor (- x).

Definition is_integral (x : float) : bool := is_finite x && (Math_floor x =? x).

Definition is_odd_integer (x : float) : bool :=
  is_integral x && negb (is_integral (x / 2)).

(** [Number::exponentiate] of ECMA-262, step by step; the last step is the
    implementation-approximated one. *)
Definition Math_pow (E : Engine) (base exponent : float) : float :=
  if is_nan exponent then nan
  else if exponent =? 0 then 1
  else if is_nan base then nan
  else if base =? infinity then (if 0 <? exponent then infinity else 0)
  else if base =? neg_infinity then
    if 0 <? exponent
    then (if is_odd_integer exponent then neg_infinity else infinity)
    else (if is_odd_integer exponent then neg_zero else 0)
  else if base =? 0 then
    if get_sign base then
      if 0 <? exponent
      then (if is_odd_integer exponent then neg_zero else 0)
      else (if is_odd_integer exponent then neg_infinity else infinity)
    else (if 0 <? exponent then 0 else infinity)
  else if exponent =? infinity then
    if 1 <? abs base then infinity
    else if abs base =? 1 then nan else 0
  else if exponent =? neg_infinity then
    if 1 <? abs base then 0
    else if abs base =? 1 then nan else infinity
  else if (base <? 0) && negb (is_integral exponent) then nan
  else approx_pow E base exponent.

(** [Math.log]: NaN, [1], the zeros, negative numbers and [+Infinity] are
    fixed by the standard. *)
Definition Math_log (E : Engine) (x : float) : float :=
  if is_nan x then nan
  else if x =? 1 then 0
  else if x =? 0 then neg_infinity
  else if x <? 0 then nan
  else if x =? infinity then infinity
  else approx_log E x.

(** [Math.exp]: NaN, the zeros and the infinities are fixed. *)
Definition Math_exp (E : Engine) (x : float) : float :=
  if is_nan x then nan
  else if x =? 0 then 1
  else if x =? infinity then infinity
  else if x =? neg_infinity then 0
  else approx_exp E x.

End JS.

(** ** The argument object of the form-driven calculators

    [calculateDPHX] and the basic [calculateSTHX] receive one object whose
    fields are read with [data.key] and converted with [parseFloat] or
    [parseInt].  The field values are JSON scalars; the argument itself may
    be [undefined] or [null], in which case reading a property throws. *)

Module Arg.

Import JS.
Local Open Scope float_scope.

Inductive prim : Type :=
| PUndefined
| PNull
| PBool (b : bool)
| PNum (x : float)
| PStr (s : string).

Inductive arg : Type :=
| ArgUndefined
| ArgNull
| ArgObject (fields : gmap string prim).

(** A JavaScript completion: a value, or a thrown exception (rendered by
    its [toString()]). *)
Inductive completion (T : Type) : Type :=
| Normal (v : T)
| Throw (e : string).
Arguments Normal {T} v.
Arguments Throw {T} e.

#[global] Instance completion_ret : MRet completion := @Normal.

#[global] Instance completion_bind : MBind completion :=
  fun T U (k : T -> completion U) (c : completion T) =>
    match c with
    | Normal v => k v
    | Throw e => Throw e
    end.

(** [data.key]: a [TypeError] on [undefined] and [null], [undefined] for a
    field the object does not have. *)
Definition get (data : arg) (key : string) : completion prim :=
  match data with
  | ArgUndefined =>
      Throw ("TypeError: Cannot read properties of undefined (reading '"
               ++ key ++ "')")
  | ArgNull =>
      Throw ("TypeError: Cannot read properties of null (reading '"
               ++ key ++ "')")
  | ArgObject fields => Normal (default PUndefined (fields !! key))
  end.

(** [ToBoolean]. *)
Definition prim_truthy (v : prim) : bool :=
  match v with
  | PUndefined | PNull => false
  | PBool b => b
  | PNum x => truthy x
  | PStr s => negb (String.eqb s "")
  end.

(** [v || d]. *)
Definition prim_or (v d : prim) : prim := if prim_truthy v then v else d.

(** [parseFloat(v)] parses [ToString(v)].  For a Number the decimal form
    round-trips, the sign of zero apart; the words [undefined], [null],
    [true] and [false] do not start a number. *)
Definition parseFloat (E : Engine) (v : prim) : float :=
  match v with
  | PNum x => if x =? 0 then 0 else x
  | PStr s => parseFloat_string E s
  | PUndefined | PNull | PBool _ => nan
  end.

(** [parseInt(v)] parses the integer prefix of [ToString(v)].  A Number
    printed in positional notation ([1e-6 <= |x| < 1e21]) is truncated
    towards zero; one printed in exponent notation is left to the engine's
    string conversion. *)
Definition parseInt (E : Engine) (v : prim) : float :=
  match v with
  | PNum x =>
      if is_nan x || is_infinity x then nan
      else if x =? 0 then 0
      else if (1e-6 <=? abs x) && (abs x <? 1e21) then
        (if x <? 0 then Math_ceil x else Math_floor x)
      else parseInt_string E (toString_number E x)
  | PStr s => parseInt_string E s
  | PUndefined | PNull | PBool _ => nan
  end.

(** [parseFloat(data.key)] and [parseFloat(data.key || d)]. *)
Definition getFloat (E : Engine) (data : arg) (key : string)
  : completion float :=
  v ← get data key; mret (parseFloat E v).

Definition getFloatOr (E : Engine) (data : arg) (key : string) (d : float)
  : completion float :=
  v ← get data key; mret (parseFloat E (prim_or v (PNum d))).

Definition getIntOr (E : Engine) (data : arg) (key : string) (d : float)
  : completion float :=
  v ← get data key; mret (parseInt E (prim_or v (PNum d))).

(** [try { body } catch (e) { return { error: e.toString() }; }] *)
Definition try_catch {R : Type} (on_error : string -> R)
  (body : completion R) : completion R :=
  match body with
  | Normal r => Normal r
  | Throw e => Normal (on_error e)
  end.

End Arg.

(** ** The double-pipe optimizer: [projects/dphx/script.js] *)

Module DPHX.

Import JS Arg.
Local Open Scope float_scope.

Record pipe : Type := {
  pipe_name : string;
  pipe_od : float;
  pipe_id : float
}.

(** Standard Schedule 40 steel pipes. *)
Definition STANDARD_PIPES : list pipe := [
  {| pipe_name := "1/2 inch"; pipe_od := 0.0213; pipe_id := 0.0158 |};
  {| pipe_name := "3/4 inch"; pipe_od := 0.0267; pipe_id := 0.0209 |};
  {| pipe_name := "1 inch"; pipe_od := 0.0334; pipe_id := 0.0266 |};
  {| pipe_name := "1.25 inch"; pipe_od := 0.0422; pipe_id := 0.0351 |};
  {| pipe_name := "1.5 inch"; pipe_od := 0.0483; pipe_id := 0.0409 |};
  {| pipe_name := "2 inch"; pipe_od := 0.0603; pipe_id := 0.0525 |};
  {| pipe_name := "2.5 inch"; pipe_od := 0.0730; pipe_id := 0.0627 |};
  {| pipe_name := "3 inch"; pipe_od := 0.0889; pipe_id := 0.0779 |};
  {| pipe_name := "4 inch"; pipe_od := 0.1143; pipe_id := 0.1023 |};
  {| pipe_name := "6 inch"; pipe_od := 0.1683; pipe_id := 0.1541 |}
].

(** The local variables of section 1 (PARSE INPUTS), [Cp] already in
    J/kg.K. *)
Record inputs : Type := {
  in_m_h : float; in_T_h_in : float; in_T_h_out : float;
  in_m_c : float; in_T_c_in : float; in_T_c_out : float;
  in_Cp_h : float; in_rho_h : float; in_mu_h : float; in_k_h : float;
  in_Cp_c : float; in_rho_c : float; in_mu_c : float; in_k_c : float;
  in_flow_type : float; in_foul_h : float; in_foul_c : float
}.

Definition parse_inputs (E : Engine) (data : arg) : completion inputs :=
  m_h ← getFloat E data "m_h";
  T_h_in ← getFloat E data "T_h_in";
  T_h_out ← getFloatOr E data "T_h_out" (-1);
  m_c ← getFloat E data "m_c";
  T_c_in ← getFloat E data "T_c_in";
  T_c_out ← getFloatOr E data "T_c_out" (-1);
  Cp_h ← getFloat E data "Cp_h";
  rho_h ← getFloat E data "rho_h";
  mu_h ← getFloat E data "mu_h";
  k_h ← getFloat E data "k_h";
  Cp_c ← getFloat E data "Cp_c";
  rho_c ← getFloat E data "rho_c";
  mu_c ← getFloat E data "mu_c";
  k_c ← getFloat E data "k_c";
  flow_type ← getIntOr E data "flow_type" 1;
  foul_h ← getFloatOr E data "Rf_h" 0.0002;
  foul_c ← getFloatOr E data "Rf_c" 0.0002;
  mret {| in_m_h := m_h; in_T_h_in := T_h_in; in_T_h_out := T_h_out;
          in_m_c := m_c; in_T_c_in := T_c_in; in_T_c_out := T_c_out;
          in_Cp_h := Cp_h * 1000; in_rho_h := rho_h; in_mu_h := mu_h;
          in_k_h := k_h;
          in_Cp_c := Cp_c * 1000; in_rho_c := rho_c; in_mu_c := mu_c;
          in_k_c := k_c;
          in_flow_type := flow_type; in_foul_h := foul_h;
          in_foul_c := foul_c |}.

(** The variables section 2 (ENERGY BALANCE & UNKNOWNS) may reassign, and
    the duty and the mean temperature difference it computes. *)
Record thermal : Type := {
  th_m_h : float; th_m_c : float;
  th_T_h_out : float; th_T_c_out : float;
  th_Q : float; th_LMTD : float
}.

Definition err_no_mass_flow : string := "Provide at least one Mass Flow Rate.".
Definition err_need_temps : string :=
  "To find Mass Flow, ALL 4 temperatures must be known.".
Definition err_mismatch : string := "Energy Balance Mismatch (>5%)".
Definition err_temp_cross : string := "Temp Cross in Counter-Current!".
Definition err_lmtd : string := "Invalid LMTD (Check Temps)".
Definition err_no_feasible : string :=
  "No standard pipe combination met the constraints (dP or Velocity). Try relaxing dP limits or increasing Flow Rate.".

(** Lines 97-102: the temperature-cross check and the LMTD. *)
Definition lmtd_of (E : Engine) (flow_type T_h_in T_c_in T_h_out T_c_out
                                   : float) : string + float :=
  if (flow_type =? 1) && ((T_h_out <? T_c_in) || (T_h_in <? T_c_out))
  then inl err_temp_cross
  else
    let dt1 := if flow_type =? 1 then T_h_in - T_c_out else T_h_in - T_c_in in
    let dt2 := if flow_type =? 1 then T_h_out - T_c_in else T_h_out - T_c_out in
    if (dt1 <=? 0) || (dt2 <=? 0) then inl err_lmtd
    else inr (if dt1 =? dt2 then dt1
              else (dt1 - dt2) / Math_log E (dt1 / dt2)).

Definition with_lmtd (E : Engine) (p : inputs)
  (m_h m_c T_h_out T_c_out Q : float) : string + thermal :=
  match lmtd_of E (in_flow_type p) (in_T_h_in p) (in_T_c_in p)
          T_h_out T_c_out with
  | inl e => inl e
  | inr l => inr {| th_m_h := m_h; th_m_c := m_c; th_T_h_out := T_h_out;
                    th_T_c_out := T_c_out; th_Q := Q; th_LMTD := l |}
  end.

(** Lines 57-102. *)
Definition energy_balance (E : Engine) (p : inputs) : string + thermal :=
  let m_h := in_m_h p in
  let m_c := in_m_c p in
  let T_h_in := in_T_h_in p in
  let T_c_in := in_T_c_in p in
  let T_h_out := in_T_h_out p in
  let T_c_out := in_T_c_out p in
  let Cp_h := in_Cp_h p in
  let Cp_c := in_Cp_c p in
  if is_nan m_h && is_nan m_c then inl err_no_mass_flow
  else if is_nan m_h || is_nan m_c then
    if (T_h_out =? -1) || (T_c_out =? -1) then inl err_need_temps
    else if is_nan m_h then
      let Q := m_c * Cp_c * (T_c_out - T_c_in) in
      let m_h := Q / (Cp_h * (T_h_in - T_h_out)) in
      with_lmtd E p m_h m_c T_h_out T_c_out Q
    else
      let Q := m_h * Cp_h * (T_h_in - T_h_out) in
      let m_c := Q / (Cp_c * (T_c_out - T_c_in)) in
      with_lmtd E p m_h m_c T_h_out T_c_out Q
  else
    if T_h_out =? -1 then
      let Q := m_c * Cp_c * (T_c_out - T_c_in) in
      let T_h_out := T_h_in - Q / (m_h * Cp_h) in
      with_lmtd E p m_h m_c T_h_out T_c_out Q
    else if T_c_out =? -1 then
      let Q := m_h * Cp_h * (T_h_in - T_h_out) in
      let T_c_out := T_c_in + Q / (m_c * Cp_c) in
      with_lmtd E p m_h m_c T_h_out T_c_out Q
    else
      let Qh := m_h * Cp_h * (T_h_in - T_h_out) in
      let Qc := m_c * Cp_c * (T_c_out - T_c_in) in
      if 0.05 * Qh <? Math_abs (Qh - Qc) then inl err_mismatch
      else with_lmtd E p m_h m_c T_h_out T_c_out Qh.

(** The object stored in [best_design]; every trial computes all of it. *)
Record design : Type := {
  inner_pipe : pipe; outer_pipe : pipe;
  U : float; A_req : float; L_req : float;
  dP_in : float; dP_ann : float;
  Re_in : float; Re_ann : float;
  h_in : float; h_ann : float;
  v_in : float; v_ann : float;
  Q : float; LMTD : float;
  m_h : float; m_c : float;
  T_h_out : float; T_c_out : float
}.

(** Lines 126-178: the rating of one pipe pair. *)
Definition rate (E : Engine) (p : inputs) (t : thermal)
  (inner outer : pipe) : design :=
  let di := pipe_id inner in
  let do_in := pipe_od inner in
  let Di := pipe_id outer in
  let A_inner := Math_PI * di * di / 4 in
  let A_ann := Math_PI * (Di * Di - do_in * do_in) / 4 in
  let De_ann := (Di * Di - do_in * do_in) / do_in in
  let v_inner := th_m_h t / (in_rho_h p * A_inner) in
  let v_annulus := th_m_c t / (in_rho_c p * A_ann) in
  let Re_inner := (in_rho_h p * v_inner * di) / in_mu_h p in
  let Re_annulus := (in_rho_c p * v_annulus * De_ann) / in_mu_c p in
  let Pr_h := (in_Cp_h p * in_mu_h p) / in_k_h p in
  let Pr_c := (in_Cp_c p * in_mu_c p) / in_k_c p in
  let Nu_inner := 0.023 * Math_pow E Re_inner 0.8 * Math_pow E Pr_h 0.33 in
  let Nu_ann := 0.023 * Math_pow E Re_annulus 0.8 * Math_pow E Pr_c 0.33 in
  let hi := Nu_inner * in_k_h p / di in
  let ho := Nu_ann * in_k_c p / De_ann in
  let U_ := 1 / ((do_in / di) * (1 / hi) + (do_in / di) * in_foul_h p
                 + in_foul_c p + (1 / ho)) in
  let A_req_ := th_Q t / (U_ * th_LMTD t) in
  let L_req_ := A_req_ / (Math_PI * do_in) in
  let f_in := 0.316 * Math_pow E Re_inner (-0.25) in
  let f_ann := 0.316 * Math_pow E Re_annulus (-0.25) in
  let dP_in_ := f_in * (L_req_ / di) * 0.5 * in_rho_h p * v_inner * v_inner in
  let Dh_ann := Di - do_in in
  let dP_ann_ :=
    f_ann * (L_req_ / Dh_ann) * 0.5 * in_rho_c p * v_annulus * v_annulus in
  {| inner_pipe := inner; outer_pipe := outer;
     U := U_; A_req := A_req_; L_req := L_req_;
     dP_in := dP_in_; dP_ann := dP_ann_;
     Re_in := Re_inner; Re_ann := Re_annulus;
     h_in := hi; h_ann := ho;
     v_in := v_inner; v_ann := v_annulus;
     Q := th_Q t; LMTD := th_LMTD t;
     m_h := th_m_h t; m_c := th_m_c t;
     T_h_out := th_T_h_out t; T_c_out := th_T_c_out t |}.

(** Line 181: the generic liquid velocity limit. *)
Definition velocity_ok (d : design) : bool :=
  (v_in d <? 4.0) && (v_ann d <? 4.0).

(** Line 182. *)
Definition dp_ok (max_dp : float) (d : design) : bool :=
  (dP_in d <? max_dp) && (dP_ann d <? max_dp).

Definition feasible (max_dp : float) (d : design) : bool :=
  velocity_ok d && dp_ok max_dp d.

(** One line of [logs]; the numbers are the ones the source formats with
    [toFixed(1)]. *)
Record trial_log : Type := {
  log_inner : string; log_outer : string;
  log_U : float; log_L : float; log_dP_in_kPa : float
}.

Definition log_of (d : design) : trial_log :=
  {| log_inner := pipe_name (inner_pipe d);
     log_outer := pipe_name (outer_pipe d);
     log_U := U d; log_L := L_req d; log_dP_in_kPa := dP_in d / 1000 |}.

(** The clearance check of line 133: at least 5 mm of annulus gap. *)
Definition clearance_ok (inner outer : pipe) : bool :=
  negb (pipe_id outer - pipe_od inner <? 0.005).

(** The pairs [(STANDARD_PIPES[i], STANDARD_PIPES[j])], [i < j], in the
    order of the two nested loops. *)
Fixpoint pairs (l : list pipe) : list (pipe * pipe) :=
  match l with
  | [] => []
  | p :: rest => map (pair p) rest ++ pairs rest
  end.

(** The mutable variables of the search. *)
Record search_state : Type := {
  logs : list trial_log;
  best_design : option design;
  min_cost_metric : float
}.

Definition search_init : search_state :=
  {| logs := []; best_design := None; min_cost_metric := infinity |}.

(** The body of the inner loop. *)
Definition search_step (E : Engine) (p : inputs) (t : thermal)
  (max_dp : float) (st : search_state) (pr : pipe * pipe) : search_state :=
  let (inner, outer) := pr in
  if negb (clearance_ok inner outer) then st
  else
    let d := rate E p t inner outer in
    let logs' := logs st ++ [log_of d] in
    let unchanged := {| logs := logs'; best_design := best_design st;
                        min_cost_metric := min_cost_metric st |} in
    if velocity_ok d && dp_ok max_dp d then
      if A_req d <? min_cost_metric st
      then {| logs := logs'; best_design := Some d;
              min_cost_metric := A_req d |}
      else unchanged
    else unchanged.

Definition search (E : Engine) (p : inputs) (t : thermal) (max_dp : float)
  : search_state :=
  fold_left (search_step E p t max_dp) (pairs STANDARD_PIPES) search_init.

(** The objects the function returns. *)
Inductive result : Type :=
| Error (error : string)
| ErrorWithLogs (error : string) (logs : list trial_log)
| Success (opt : design) (logs : list trial_log).

Definition finish (st : search_state) : result :=
  match best_design st with
  | None => ErrorWithLogs err_no_feasible (logs st)
  | Some d => Success d (logs st)
  end.

Definition calculateDPHX (E : Engine) (data : arg) : completion result :=
  try_catch Error
    (p ← parse_inputs E data;
     match energy_balance E p with
     | inl e => mret (Error e)
     | inr t =>
         max_dp ← getFloatOr E data "allowable_dp_inner" 70000;
         mret (finish (search E p t max_dp))
     end).

End DPHX.

(** ** A reference engine

    One conforming choice for what the standard leaves open, used only to
    run the calculators on concrete inputs: [log] by argument reduction and
    the series of [atanh], [exp] by reduction modulo [ln 2] and its Taylor
    series, [pow] through both, with the exact short cuts of fdlibm.
    Strings are not parsed: the concrete inputs below carry Numbers. *)

Module RefEngine.

Import JS.
Local Open Scope float_scope.

Definition ln2_hi : float := 0.693147180369123816490.
Definition ln2_lo : float := 1.90821492927058770002e-10.
Definition inv_ln2 : float := 1.44269504088896338700.

(** The integer a float holds (its fraction is dropped). *)
Definition to_Z (x : float) : Z :=
  match Prim2SF x with
  | S754_finite s m e =>
      let z := Z.shiftl (Zpos m) e in if s then Z.opp z else z
  | _ => 0%Z
  end.

(** [sum_(n <= 17) r^n / n!], by Horner's rule. *)
Definition exp_series (r : float) : float :=
  fold_right (fun n acc => 1 + r / n * acc) 1
    [1; 2; 3; 4; 5; 6; 7; 8; 9; 10; 11; 12; 13; 14; 15; 16; 17].

Definition ref_exp (x : float) : float :=
  if 709.782712893384 <? x then infinity
  else if x <? -745.1332191019412 then 0
  else
    let k := Math_floor (x * inv_ln2 + 0.5) in
    let r := (x - k * ln2_hi) - k * ln2_lo in
    Z.ldexp (exp_series r) (to_Z k).

(** [1 + z/3 + z^2/5 + ... + z^12/25]. *)
Definition atanh_series (z : float) : float :=
  fold_right (fun n acc => 1 / n + z * acc) 0
    [1; 3; 5; 7; 9; 11; 13; 15; 17; 19; 21; 23; 25].

Definition ref_log (x : float) : float :=
  let (m0, e0) := Z.frexp x in
  let low := m0 <? 0.7071067811865476 in
  let m := if low then m0 * 2 else m0 in
  let e := of_uint63 (Uint63.of_Z (Z.abs (if low then e0 - 1 else e0)%Z)) in
  let e := if ((if low then e0 - 1 else e0) <? 0)%Z then - e else e in
  let s := (m - 1) / (m + 1) in
  e * ln2_hi + (2 * s * atanh_series (s * s) + e * ln2_lo).

Definition ref_pow (b e : float) : float :=
  if b =? 1 then 1
  else if e =? 1 then b
  else if e =? 2 then b * b
  else if e =? 0.5 then sqrt b
  else if b <? 0 then
    let r := ref_exp (e * ref_log (- b)) in
    if is_odd_integer e then - r else r
  else ref_exp (e * ref_log b).

Definition engine : Engine :=
  {| approx_pow := ref_pow;
     approx_log := ref_log;
     approx_exp := ref_exp;
     parseFloat_string := fun _ => nan;
     parseInt_string := fun _ => nan;
     toString_number := fun _ => EmptyString |}.

End RefEngine.

(** ** The shell-and-tube design engine: [calculateSTHX] with its design
    and rating modes, [runDesignIteration], [performKernRating],
    [calculateDuty] and [calculateLMTD]

    The argument is an object with two fluid objects and numeric geometry
    fields (the calls that lack a fluid object are in [STHXPro]).  A
    numeric field the caller left out reads [undefined], which every use
    below ([||], arithmetic, comparison) treats as NaN, so it is modelled
    as NaN; the three fields with an entry in [defaults] are optional and
    merged as [{ ...defaults, ...inputData }] does. *)

Module STHX.

Import JS.
Local Open Scope float_scope.

Record Fluid : Type := {
  fluid_m : float; fluid_rho : float; fluid_mu : float; fluid_cp : float;
  fluid_k : float; fluid_Tin : float; fluid_Tout : float;
  fluid_P : float; fluid_fouling : float
}.

Record InputData : Type := {
  in_hot : Fluid; in_cold : Fluid;
  in_allocation_mode : string; in_allocation : string; in_mode : string;
  in_U_guess : option float;
  in_tube_length : option float;
  in_tube_passes : option float;
  in_tube_od : float; in_tube_id : float; in_tube_pitch : float;
  in_pitch_type : string;
  in_shell_ID : float; in_total_tubes : float;
  in_baffle_spacing : float; in_baffles_n : float;
  in_Rf_t : float; in_Rf_s : float
}.

(** The merged object [D], also the [Geom] of [performKernRating]. *)
Record Params : Type := {
  hot : Fluid; cold : Fluid;
  allocation_mode : string; allocation : string; mode : string;
  U_guess : float; tube_length : float; tube_passes : float;
  tube_od : float; tube_id : float; tube_pitch : float;
  pitch_type : string;
  shell_ID : float; total_tubes : float;
  baffle_spacing : float; baffles_n : float;
  Rf_t : float; Rf_s : float
}.

Definition merge_defaults (i : InputData) : Params :=
  {| hot := in_hot i; cold := in_cold i;
     allocation_mode := in_allocation_mode i;
     allocation := in_allocation i; mode := in_mode i;
     U_guess := default 500 (in_U_guess i);
     tube_length := default 3.0 (in_tube_length i);
     tube_passes := default 2 (in_tube_passes i);
     tube_od := in_tube_od i; tube_id := in_tube_id i;
     tube_pitch := in_tube_pitch i; pitch_type := in_pitch_type i;
     shell_ID := in_shell_ID i; total_tubes := in_total_tubes i;
     baffle_spacing := in_baffle_spacing i; baffles_n := in_baffles_n i;
     Rf_t := in_Rf_t i; Rf_s := in_Rf_s i |}.

Definition with_allocation (D : Params) (a : string) : Params :=
  {| hot := hot D; cold := cold D;
     allocation_mode := allocation_mode D;
     allocation := a; mode := mode D;
     U_guess := U_guess D; tube_length := tube_length D;
     tube_passes := tube_passes D;
     tube_od := tube_od D; tube_id := tube_id D;
     tube_pitch := tube_pitch D; pitch_type := pitch_type D;
     shell_ID := shell_ID D; total_tubes := total_tubes D;
     baffle_spacing := baffle_spacing D; baffles_n := baffles_n D;
     Rf_t := Rf_t D; Rf_s := Rf_s D |}.

(** [{ ...D, shell_ID: s, total_tubes: n }] *)
Definition with_shell (D : Params) (s n : float) : Params :=
  {| hot := hot D; cold := cold D;
     allocation_mode := allocation_mode D;
     allocation := allocation D; mode := mode D;
     U_guess := U_guess D; tube_length := tube_length D;
     tube_passes := tube_passes D;
     tube_od := tube_od D; tube_id := tube_id D;
     tube_pitch := tube_pitch D; pitch_type := pitch_type D;
     shell_ID := s; total_tubes := n;
     baffle_spacing := baffle_spacing D; baffles_n := baffles_n D;
     Rf_t := Rf_t D; Rf_s := Rf_s D |}.

(** [{ ...D, shell_ID: s, total_tubes: n, baffle_spacing: b }] *)
Definition with_shell_baffle (D : Params) (s n b : float) : Params :=
  {| hot := hot D; cold := cold D;
     allocation_mode := allocation_mode D;
     allocation := allocation D; mode := mode D;
     U_guess := U_guess D; tube_length := tube_length D;
     tube_passes := tube_passes D;
     tube_od := tube_od D; tube_id := tube_id D;
     tube_pitch := tube_pitch D; pitch_type := pitch_type D;
     shell_ID := s; total_tubes := n;
     baffle_spacing := b; baffles_n := baffles_n D;
     Rf_t := Rf_t D; Rf_s := Rf_s D |}.

(** [TEMA_STANDARDS.shells]: inches to meters. *)
Definition TEMA_shells : list float :=
  map (fun d => d * 0.0254) [8; 10; 12; 14; 16; 18; 20; 24; 30; 36; 42; 48; 60].

(** [calculateDuty(Hot, Cold)], placeholder included. *)
Definition calculateDuty (Hot Cold : Fluid) : float :=
  if truthy (fluid_m Hot) && truthy (fluid_Tin Hot) && truthy (fluid_Tout Hot)
  then fluid_m Hot * fluid_cp Hot * (fluid_Tin Hot - fluid_Tout Hot)
  else if truthy (fluid_m Cold) && truthy (fluid_Tin Cold)
          && truthy (fluid_Tout Cold)
  then fluid_m Cold * fluid_cp Cold * (fluid_Tout Cold - fluid_Tin Cold)
  else 100000.

Record lmtd_result : Type := { LMTD_of : float; Ft_of : float }.

(** [calculateLMTD(Hot, Cold, passes)]. *)
Definition calculateLMTD (E : Engine) (Hot Cold : Fluid) (passes : float)
  : lmtd_result :=
  let dt1 := fluid_Tin Hot - fluid_Tout Cold in
  let dt2 := fluid_Tout Hot - fluid_Tin Cold in
  let lmtd := (dt1 - dt2) / Math_log E (dt1 / dt2) in
  {| LMTD_of := lmtd * 0.9; Ft_of := 0.9 |}.

Record geometry : Type := {
  geo_Ds : float; geo_Nt : float; geo_B : float;
  geo_Lt : float; geo_do_t : float
}.

(** The object [performKernRating] returns. *)
Record rating : Type := {
  U_clean : float; U_dirty : float;
  h_s : float; h_t : float;
  dP_s : float; dP_t : float;
  Re_s : float; Re_t : float;
  Vt : float; Vs : float;
  Area_Required : float; Area_Provided : float; Overdesign_Pct : float;
  LMTD : float; Q : float;
  Geometry : geometry
}.

(** [performKernRating(ShellFluid, TubeFluid, Geom)]. *)
Definition performKernRating (E : Engine) (ShellFluid TubeFluid : Fluid)
  (Geom : Params) : rating :=
  let Ds := shell_ID Geom in
  let do_t := tube_od Geom in
  let di_t := tube_id Geom in
  let Lt := tube_length Geom in
  let Nt := total_tubes Geom in
  let Np := tube_passes Geom in
  let Pitch := tube_pitch Geom in
  let B := js_or (baffle_spacing Geom) (Ds * 0.4) in
  let Nb := js_or (baffles_n Geom) (Math_ceil (Lt / B) - 1) in
  (* tube side *)
  let at_ := (Math_PI * di_t * di_t / 4) * (Nt / Np) in
  let m_t := fluid_m TubeFluid in
  let Gt := m_t / at_ in
  let Vt_ := Gt / fluid_rho TubeFluid in
  let Re_t_ := (fluid_rho TubeFluid * Vt_ * di_t) / fluid_mu TubeFluid in
  let Pr_t := (fluid_cp TubeFluid * fluid_mu TubeFluid) / fluid_k TubeFluid in
  let Nu_t := 0.023 * Math_pow E Re_t_ 0.8 * Math_pow E Pr_t 0.33 in
  let h_t_ := (Nu_t * fluid_k TubeFluid) / di_t in
  let f_t := 0.046 * Math_pow E Re_t_ (-0.2) in
  let dP_t_frict :=
    (4 * f_t * Lt * Np / di_t) * (0.5 * fluid_rho TubeFluid * Vt_ * Vt_) in
  let dP_t_return := 4 * Np * (0.5 * fluid_rho TubeFluid * Vt_ * Vt_) in
  let dP_t_ := dP_t_frict + dP_t_return in
  (* shell side (Kern) *)
  let De :=
    if String.eqb (pitch_type Geom) "square" then
      (4 * (Math_pow E Pitch 2 - (Math_PI / 4) * Math_pow E do_t 2))
      / (Math_PI * do_t)
    else
      (4 * (0.5 * 0.866 * Math_pow E Pitch 2
            - 0.5 * (Math_PI / 4) * Math_pow E do_t 2))
      / (0.5 * Math_PI * do_t) in
  let Clearance := Pitch - do_t in
  let As := (Ds * Clearance * B) / Pitch in
  let Gs := fluid_m ShellFluid / As in
  let Vs_ := Gs / fluid_rho ShellFluid in
  let Re_s_ := (Gs * De) / fluid_mu ShellFluid in
  let Pr_s :=
    (fluid_cp ShellFluid * fluid_mu ShellFluid) / fluid_k ShellFluid in
  let Nu_s := 0.36 * Math_pow E Re_s_ 0.55 * Math_pow E Pr_s 0.33 in
  let h_s_ := (Nu_s * fluid_k ShellFluid) / De in
  let f_s := Math_exp E (0.576 - 0.19 * Math_log E Re_s_) in
  let dP_s_ :=
    (f_s * Math_pow E Gs 2 * Ds * (Nb + 1)) / (2 * fluid_rho ShellFluid * De) in
  (* overall U *)
  let Rft := js_or (Rf_t Geom) 0 in
  let Rfs := js_or (Rf_s Geom) 0 in
  let Kw := 50 in
  let Inv_U_clean :=
    (1 / h_s_) + (do_t / di_t) * (1 / h_t_)
    + (do_t * Math_log E (do_t / di_t) / (2 * Kw)) in
  let Inv_U_dirty := Inv_U_clean + Rfs + (do_t / di_t) * Rft in
  let U_clean_ := 1 / Inv_U_clean in
  let U_dirty_ := 1 / Inv_U_dirty in
  (* duty and area *)
  let Q_ := calculateDuty ShellFluid TubeFluid in
  let LMTD_ := LMTD_of (calculateLMTD E ShellFluid TubeFluid Np) in
  let A_req := Q_ / (U_dirty_ * LMTD_) in
  let A_prov := Math_PI * do_t * Lt * Nt in
  let Overdesign := ((A_prov - A_req) / A_req) * 100 in
  {| U_clean := U_clean_; U_dirty := U_dirty_;
     h_s := h_s_; h_t := h_t_;
     dP_s := dP_s_; dP_t := dP_t_;
     Re_s := Re_s_; Re_t := Re_t_;
     Vt := Vt_; Vs := Vs_;
     Area_Required := A_req; Area_Provided := A_prov;
     Overdesign_Pct := Overdesign;
     LMTD := LMTD_; Q := Q_;
     Geometry := {| geo_Ds := Ds; geo_Nt := Nt; geo_B := B;
                    geo_Lt := Lt; geo_do_t := do_t |} |}.

(** The lines pushed to [logs]; the numbers of an iteration line are the
    ones the source formats with [toFixed]. *)
Inductive log_line : Type :=
| LogAutoAllocation (reason : string)
| LogStartDesign
| LogIter (i : nat) (U_assumed Ds_mm U_calc err_pct : float)
| LogMaxIterations
| LogRatingMode.

(** What [calculateSTHX] returns: [{ error }], or a rating object with
    [logs] and, in design mode, [converged]. *)
Inductive result : Type :=
| Error (error : string)
| Design (r : rating) (converged : option bool) (logs : list log_line).

Definition err_no_duty : string :=
  "Insufficient thermal data to calc Duty (Q).".

Definition MaxIter : nat := 20.

(** [TEMA_STANDARDS.shells[TEMA_STANDARDS.shells.length - 1]] *)
Definition largest_shell : float := List.last TEMA_shells nan.

(** [TEMA_STANDARDS.shells.find(s => s >= Ds_est) || largest] *)
Definition select_shell (Ds_est : float) : float :=
  match List.find (fun s => Ds_est <=? s) TEMA_shells with
  | Some s => js_or s largest_shell
  | None => largest_shell
  end.

(** Steps A to D of one pass of the loop, and the error it computes. *)
Record trial : Type := {
  tr_Ds_est : float;
  tr_Ds_std : float;
  tr_rating : rating;
  tr_U_calc : float;
  tr_error : float
}.

Definition design_trial (E : Engine) (ShellFluid TubeFluid : Fluid)
  (D : Params) (Q_ LMTD_ U_assumed : float) : trial :=
  let A_req := Q_ / (U_assumed * LMTD_) in
  let Nt_ideal := A_req / (Math_PI * tube_od D * tube_length D) in
  let Nt := Math_ceil (Nt_ideal * 1.05) in
  let Ds_est := tube_pitch D * Math_sqrt Nt * 1.1 in
  let Ds_std := select_shell Ds_est in
  let Nt_real := Math_floor (0.785 * Math_pow E (Ds_std / tube_pitch D) 2) in
  let r := performKernRating E ShellFluid TubeFluid
             (with_shell_baffle D Ds_std Nt_real (Ds_std * 0.4)) in
  let U_calc := U_clean r in
  {| tr_Ds_est := Ds_est; tr_Ds_std := Ds_std; tr_rating := r;
     tr_U_calc := U_calc;
     tr_error := (U_calc - U_assumed) / U_assumed |}.

Definition iter_log (i : nat) (U_assumed : float) (tr : trial) : log_line :=
  LogIter (i + 1) U_assumed (tr_Ds_std tr * 1000) (tr_U_calc tr)
    (tr_error tr * 100).

(** [for (let i = 0; i < MaxIter; i++) { ... }]: [fuel] is [MaxIter - i].
    The result is [bestDesign] with the grown [logs]. *)
Fixpoint design_loop (E : Engine) (ShellFluid TubeFluid : Fluid)
  (D : Params) (Q_ LMTD_ : float) (fuel i : nat) (U_assumed : float)
  (logs : list log_line) : option rating * list log_line :=
  match fuel with
  | O => (None, logs)
  | S fuel' =>
      let tr := design_trial E ShellFluid TubeFluid D Q_ LMTD_ U_assumed in
      let logs' := logs ++ [iter_log i U_assumed tr] in
      if Math_abs (tr_error tr) <? 0.1 then (Some (tr_rating tr), logs')
      else design_loop E ShellFluid TubeFluid D Q_ LMTD_ fuel' (S i)
             (0.5 * U_assumed + 0.5 * tr_U_calc tr) logs'
  end.

Definition runDesignIteration (E : Engine) (ShellFluid TubeFluid : Fluid)
  (D : Params) (logs : list log_line) : result :=
  let logs := logs ++ [LogStartDesign] in
  let U_assumed := js_or (U_guess D) 500 in
  let Q_ := calculateDuty ShellFluid TubeFluid in
  if negb (truthy Q_) then Error err_no_duty
  else
    let LMTD_ := LMTD_of (calculateLMTD E (hot D) (cold D) (tube_passes D)) in
    match design_loop E ShellFluid TubeFluid D Q_ LMTD_ MaxIter 0
            U_assumed logs with
    | (Some r, logs) => Design r (Some true) logs
    | (None, logs) =>
        Design (performKernRating E ShellFluid TubeFluid
                  (with_shell D 0.6 200))
          (Some false) (logs ++ [LogMaxIterations])
    end.

Definition runRatingCalculation (E : Engine) (ShellFluid TubeFluid : Fluid)
  (D : Params) (logs : list log_line) : result :=
  let logs := logs ++ [LogRatingMode] in
  Design (performKernRating E ShellFluid TubeFluid D) None logs.

(** The allocation heuristic of [calculateSTHX]: the side chosen and the
    reason logged. *)
Definition auto_allocation (D : Params) : string * string :=
  let h_visc := 0.1 <? fluid_mu (hot D) in
  let c_visc := 0.1 <? fluid_mu (cold D) in
  let h_pres := 20 <? fluid_P (hot D) in
  let c_pres := 20 <? fluid_P (cold D) in
  if h_visc && negb c_visc then
    ("hot_shell", "Hot fluid is viscous -> Shell Side")
  else if c_visc && negb h_visc then
    ("cold_shell", "Cold fluid is viscous -> Shell Side")
  else if h_pres && negb c_pres then
    ("cold_shell", "Hot fluid High Pressure -> Tube Side")
  else if c_pres && negb h_pres then
    ("hot_shell", "Cold fluid High Pressure -> Tube Side")
  else if fluid_fouling (cold D) * 5 <? fluid_fouling (hot D) then
    ("cold_shell", "Hot fluid High Fouling -> Tube Side")
  else
    ("hot_shell", "No critical constraints, defaulting Hot=Shell").

Definition calculateSTHX (E : Engine) (inputData : InputData) : result :=
  let D := merge_defaults inputData in
  let (D, logs) :=
    if String.eqb (allocation_mode D) "auto" then
      let (a, reason) := auto_allocation D in
      (with_allocation D a, [LogAutoAllocation reason])
    else (D, []) in
  let (ShellSide, TubeSide) :=
    if String.eqb (allocation D) "hot_shell" then (hot D, cold D)
    else (cold D, hot D) in
  if String.eqb (mode D) "design"
  then runDesignIteration E ShellSide TubeSide D logs
  else runRatingCalculation E ShellSide TubeSide D logs.

End STHX.

(** ** The design engine as the page calls it

    [window.calculateSTHX_Pro = calculateSTHX] (line 514).  The function
    has no [try]/[catch], and nothing checks that [inputData.hot] and
    [inputData.cold] are there: the first property read on a missing fluid
    object throws a [TypeError] to the caller.  [STHX.calculateSTHX] is the
    function on the arguments that carry both objects; here either may be
    missing.  An argument that is [undefined] or [null] spreads to nothing
    in [{ ...defaults, ...inputData }] and behaves as [{}]. *)

Module STHXPro.

Import JS Arg STHX.
Local Open Scope float_scope.

(** The argument object: the two fluid objects, when it has them, and its
    other fields. *)
Record Call : Type := {
  call_hot : option Fluid; call_cold : option Fluid;
  call_allocation_mode : string; call_allocation : string;
  call_mode : string;
  call_U_guess : option float;
  call_tube_length : option float;
  call_tube_passes : option float;
  call_tube_od : float; call_tube_id : float; call_tube_pitch : float;
  call_pitch_type : string;
  call_shell_ID : float; call_total_tubes : float;
  call_baffle_spacing : float; call_baffles_n : float;
  call_Rf_t : float; call_Rf_s : float
}.

(** The argument once both fluid objects are known to be there. *)
Definition with_fluids (c : Call) (h k : Fluid) : InputData :=
  {| in_hot := h; in_cold := k;
     in_allocation_mode := call_allocation_mode c;
     in_allocation := call_allocation c; in_mode := call_mode c;
     in_U_guess := call_U_guess c;
     in_tube_length := call_tube_length c;
     in_tube_passes := call_tube_passes c;
     in_tube_od := call_tube_od c; in_tube_id := call_tube_id c;
     in_tube_pitch := call_tube_pitch c;
     in_pitch_type := call_pitch_type c;
     in_shell_ID := call_shell_ID c; in_total_tubes := call_total_tubes c;
     in_baffle_spacing := call_baffle_spacing c;
     in_baffles_n := call_baffles_n c;
     in_Rf_t := call_Rf_t c; in_Rf_s := call_Rf_s c |}.

Definition type_error (key : string) : string :=
  "TypeError: Cannot read properties of undefined (reading '"
    ++ key ++ "')".

(** [fluid.key], where the object [fluid] may be missing. *)
Definition read (fluid : option Fluid) (key : string) : completion Fluid :=
  match fluid with
  | Some f => Normal f
  | None => Throw (type_error key)
  end.

(** [calculateDuty(Hot, Cold)]: [Cold] is read only when [Hot] lacks a flow
    or a temperature. *)
Definition calculateDuty (Hot Cold : option Fluid) : completion float :=
  h ← read Hot "m";
  if truthy (fluid_m h) && truthy (fluid_Tin h) && truthy (fluid_Tout h)
  then mret (fluid_m h * fluid_cp h * (fluid_Tin h - fluid_Tout h))
  else
    c ← read Cold "m";
    if truthy (fluid_m c) && truthy (fluid_Tin c) && truthy (fluid_Tout c)
    then mret (fluid_m c * fluid_cp c * (fluid_Tout c - fluid_Tin c))
    else mret 100000.

(** The reads of the fluid objects in the order of the source, up to the
    point where both have been read; from there on the call is the one
    [STHX.calculateSTHX] describes.  With automatic allocation the
    heuristic reads [D.hot.mu] and [D.cold.mu] first (lines 259-260).
    Otherwise the sides are assigned without a read; design mode reads
    them in [calculateDuty(ShellFluid, TubeFluid)], returns the
    missing-duty error on a falsy duty, and then reads
    [Hot.Tin - Cold.Tout] in [calculateLMTD(D.hot, D.cold, ...)]; rating
    mode reads [TubeFluid.m] (line 414) and then [ShellFluid.m]
    (line 445) in [performKernRating]. *)
Definition calculateSTHX_Pro (E : Engine) (c : Call) : completion result :=
  if String.eqb (call_allocation_mode c) "auto" then
    h ← read (call_hot c) "mu";
    k ← read (call_cold c) "mu";
    mret (calculateSTHX E (with_fluids c h k))
  else
    let hot_shell := String.eqb (call_allocation c) "hot_shell" in
    let ShellSide := if hot_shell then call_hot c else call_cold c in
    let TubeSide := if hot_shell then call_cold c else call_hot c in
    if String.eqb (call_mode c) "design" then
      Q_ ← calculateDuty ShellSide TubeSide;
      if negb (truthy Q_) then mret (Error err_no_duty)
      else
        h ← read (call_hot c) "Tin";
        k ← read (call_cold c) "Tout";
        mret (calculateSTHX E (with_fluids c h k))
    else
      t ← read TubeSide "m";
      s ← read ShellSide "m";
      mret (calculateSTHX E
              (if hot_shell then with_fluids c s t else with_fluids c t s)).

End STHXPro.

(** ** The single-pass shell-and-tube rating: the first [calculateSTHX] of
    [projects/sthx/script.js] (lines 22-199) *)

Module STHXBasic.

Import JS Arg.
Local Open Scope float_scope.

Definition err_no_mass_flow : string := "Provide at least one Mass Flow Rate.".
Definition err_need_temps : string :=
  "To find Mass Flow, ALL temps must be known.".
Definition err_temp_cross : string := "Temperature Cross or Invalid Temps.".

(** The success object. *)
Record rated : Type := {
  allocation : prim;
  Q : float; LMTD : float;
  U_design : float; U_clean : float;
  A_prov : float; A_req : float; overdesign : float;
  m_h : float; m_c : float;
  h_t : float; Re_t : float; v_t : float; dP_t : float;
  h_s : float; Re_s : float; v_s : float; dP_s : float;
  T_h_out : float; T_c_out : float
}.

Inductive result : Type :=
| Error (error : string)
| Success (r : rated).

(** [a === b] between a field value and a string literal. *)
Definition is_string (v : prim) (s : string) : bool :=
  match v with
  | PStr s' => String.eqb s' s
  | _ => false
  end.

Record balance : Type := {
  b_m_h : float; b_m_c : float;
  b_T_h_out : float; b_T_c_out : float; b_Q : float
}.

(** Section 2 (ENERGY BALANCE). *)
Definition energy_balance (m_h m_c T_h_in T_c_in T_h_out T_c_out Cp_h Cp_c
                            : float) : string + balance :=
  if is_nan m_h && is_nan m_c then inl err_no_mass_flow
  else if is_nan m_h then
    if (T_h_out =? -1) || (T_c_out =? -1) then inl err_need_temps
    else
      let Q := m_c * Cp_c * (T_c_out - T_c_in) in
      inr {| b_m_h := Q / (Cp_h * (T_h_in - T_h_out)); b_m_c := m_c;
             b_T_h_out := T_h_out; b_T_c_out := T_c_out; b_Q := Q |}
  else if is_nan m_c then
    if (T_h_out =? -1) || (T_c_out =? -1) then inl err_need_temps
    else
      let Q := m_h * Cp_h * (T_h_in - T_h_out) in
      inr {| b_m_h := m_h; b_m_c := Q / (Cp_c * (T_c_out - T_c_in));
             b_T_h_out := T_h_out; b_T_c_out := T_c_out; b_Q := Q |}
  else if T_h_out =? -1 then
    let Q := m_c * Cp_c * (T_c_out - T_c_in) in
    inr {| b_m_h := m_h; b_m_c := m_c;
           b_T_h_out := T_h_in - Q / (m_h * Cp_h);
           b_T_c_out := T_c_out; b_Q := Q |}
  else if T_c_out =? -1 then
    let Q := m_h * Cp_h * (T_h_in - T_h_out) in
    inr {| b_m_h := m_h; b_m_c := m_c; b_T_h_out := T_h_out;
           b_T_c_out := T_c_in + Q / (m_c * Cp_c); b_Q := Q |}
  else
    inr {| b_m_h := m_h; b_m_c := m_c; b_T_h_out := T_h_out;
           b_T_c_out := T_c_out; b_Q := m_h * Cp_h * (T_h_in - T_h_out) |}.

(** Lines 82-93: no guard for [dt1 === dt2]. *)
Definition lmtd_of (E : Engine) (T_h_in T_c_in T_h_out T_c_out : float)
  : string + float :=
  let dt1 := T_h_in - T_c_out in
  let dt2 := T_h_out - T_c_in in
  if (dt1 <=? 0) || (dt2 <=? 0) then inl err_temp_cross
  else
    let LMTD_counter := (dt1 - dt2) / Math_log E (dt1 / dt2) in
    let Ft := 0.9 in
    inr (LMTD_counter * Ft).

Definition calculateSTHX (E : Engine) (data : arg) : completion result :=
  try_catch Error
    (m_h ← getFloat E data "m_h";
     T_h_in ← getFloat E data "T_h_in";
     T_h_out ← getFloatOr E data "T_h_out" (-1);
     m_c ← getFloat E data "m_c";
     T_c_in ← getFloat E data "T_c_in";
     T_c_out ← getFloatOr E data "T_c_out" (-1);
     Cp_h0 ← getFloat E data "Cp_h";
     rho_h ← getFloat E data "rho_h";
     mu_h ← getFloat E data "mu_h";
     k_h ← getFloat E data "k_h";
     Rf_h ← getFloatOr E data "Rf_h" 0.0002;
     Cp_c0 ← getFloat E data "Cp_c";
     rho_c ← getFloat E data "rho_c";
     mu_c ← getFloat E data "mu_c";
     k_c ← getFloat E data "k_c";
     Rf_c ← getFloatOr E data "Rf_c" 0.0002;
     shell_ID ← getFloat E data "shell_ID";
     tube_length ← getFloat E data "tube_length";
     tube_od ← getFloat E data "tube_od";
     tube_id ← getFloat E data "tube_id";
     tube_pitch ← getFloat E data "tube_pitch";
     pitch_type ← get data "pitch_type";
     baffles_n ← getFloat E data "baffles_n";
     baffle_spacing ← getFloat E data "baffle_spacing";
     tube_passes ← getFloatOr E data "tube_passes" 1;
     total_tubes ← getFloat E data "total_tubes";
     let Cp_h := Cp_h0 * 1000 in
     let Cp_c := Cp_c0 * 1000 in
     match energy_balance m_h m_c T_h_in T_c_in T_h_out T_c_out Cp_h Cp_c with
     | inl e => mret (Error e)
     | inr b =>
     match lmtd_of E T_h_in T_c_in (b_T_h_out b) (b_T_c_out b) with
     | inl e => mret (Error e)
     | inr LMTD_ =>
       fa ← get data "fluid_allocation";
       let allocation_ := prim_or fa (PStr "hot_shell") in
       let hot_shell := is_string allocation_ "hot_shell" in
       let ms := if hot_shell then b_m_h b else b_m_c b in
       let rhos := if hot_shell then rho_h else rho_c in
       let mus := if hot_shell then mu_h else mu_c in
       let ks := if hot_shell then k_h else k_c in
       let Cps := if hot_shell then Cp_h else Cp_c in
       let Rfs := if hot_shell then Rf_h else Rf_c in
       let mt := if hot_shell then b_m_c b else b_m_h b in
       let rhot := if hot_shell then rho_c else rho_h in
       let mut := if hot_shell then mu_c else mu_h in
       let kt := if hot_shell then k_c else k_h in
       let Cpt := if hot_shell then Cp_c else Cp_h in
       let Rft := if hot_shell then Rf_c else Rf_h in
       (* 4. tube side *)
       let Nt := total_tubes in
       let Np := tube_passes in
       let flow_area_tube := (Math_PI * tube_id * tube_id / 4) * (Nt / Np) in
       let velocity_tube := mt / (rhot * flow_area_tube) in
       let Re_t_ := (rhot * velocity_tube * tube_id) / mut in
       let Pr_t := (Cpt * mut) / kt in
       let Nu_t := 0.023 * Math_pow E Re_t_ 0.8 * Math_pow E Pr_t 0.33 in
       let h_t_ := Nu_t * kt / tube_id in
       let f_t := 0.316 * Math_pow E Re_t_ (-0.25) in
       let dP_tube_friction :=
         (4 * f_t * (tube_length * Np) / tube_id)
         * (0.5 * rhot * velocity_tube * velocity_tube) in
       let dP_tube_returns :=
         4 * Np * (0.5 * rhot * velocity_tube * velocity_tube) in
       let dP_t_ := dP_tube_friction + dP_tube_returns in
       (* 5. shell side (Kern) *)
       let clearance := tube_pitch - tube_od in
       let As := (shell_ID * clearance * baffle_spacing) / tube_pitch in
       let Gs := ms / As in
       let De :=
         if is_string pitch_type "square" then
           (4 * (Math_pow E tube_pitch 2
                 - (Math_PI * Math_pow E tube_od 2 / 4)))
           / (Math_PI * tube_od)
         else
           (4 * (0.5 * tube_pitch * 0.866 * tube_pitch
                 - (0.5 * Math_PI * Math_pow E tube_od 2 / 4)))
           / (0.5 * Math_PI * tube_od) in
       let Re_s_ := (Gs * De) / mus in
       let Pr_s := (Cps * mus) / ks in
       let Nu_s := 0.36 * Math_pow E Re_s_ 0.55 * Math_pow E Pr_s 0.33 in
       let h_s_ := Nu_s * ks / De in
       let f_s := Math_exp E (0.576 - 0.19 * Math_log E Re_s_) in
       let Nb := baffles_n + 1 in
       let dP_s_ := (f_s * Math_pow E Gs 2 * shell_ID * Nb) / (2 * rhos * De) in
       (* 6. overall coefficient *)
       let term_shell := 1 / h_s_ + Rfs in
       let term_tube := (tube_od / tube_id) * (1 / h_t_ + Rft) in
       let U_clean_ := 1 / ((1 / h_s_) + (tube_od / tube_id) * (1 / h_t_)) in
       let U_design_ := 1 / (term_shell + term_tube) in
       (* 7. area analysis *)
       let A_prov_ := Math_PI * tube_od * tube_length * total_tubes in
       let A_req_ := b_Q b / (U_design_ * LMTD_) in
       let overdesign_ := ((A_prov_ - A_req_) / A_req_) * 100 in
       mret (Success
         {| allocation := allocation_;
            Q := b_Q b; LMTD := LMTD_;
            U_design := U_design_; U_clean := U_clean_;
            A_prov := A_prov_; A_req := A_req_; overdesign := overdesign_;
            m_h := b_m_h b; m_c := b_m_c b;
            h_t := h_t_; Re_t := Re_t_; v_t := velocity_tube; dP_t := dP_t_;
            h_s := h_s_; Re_s := Re_s_; v_s := Gs / rhos; dP_s := dP_s_;
            T_h_out := b_T_h_out b; T_c_out := b_T_c_out b |})
     end
     end).

End STHXBasic.

(** ** The earlier double-pipe calculator: the [calculateDPHX] that
    adjusts the diameters of one chosen pipe (317 lines, two bounded
    [while] loops) *)

Module DPHXv2.

Import JS Arg.
Local Open Scope float_scope.

Definition err_no_mass_flow : string :=
  "At least one mass flow rate must be provided.".
Definition err_need_temps : string :=
  "To calculate an unknown mass flow rate, ALL inlet and outlet temperatures must be provided.".
Definition err_balance : string :=
  "Energy balance not satisfied (>5% difference). Check input temperatures or flow rates.".
Definition err_cross_counter : string :=
  "Temperature cross detected in counter-current flow.".
Definition err_cross_co : string :=
  "Temperature cross detected in co-current flow.".
Definition err_flow_type : string := "Invalid flow type selected.".
Definition err_lmtd : string :=
  "Invalid temperature difference for LMTD calculation.".
Definition err_pipe_size : string := "Invalid pipe size selected".
Definition err_diameters : string :=
  "Inner diameter cannot be greater than or equal to outer diameter.".

Definition standard_pipes_list : list (string * float) :=
  [("19 mm", 0.019); ("25 mm", 0.025); ("32 mm", 0.032); ("38 mm", 0.038)].

(** [standard_pipes_list[idx - 1]] for [1 <= idx <= 4]; an index that is
    not an integer reads [undefined]. *)
Definition pipe_at (idx : float) : option (string * float) :=
  if idx =? 1 then nth_error standard_pipes_list 0
  else if idx =? 2 then nth_error standard_pipes_list 1
  else if idx =? 3 then nth_error standard_pipes_list 2
  else if idx =? 4 then nth_error standard_pipes_list 3
  else None.

(** [pipe_database[d_o]]: the key is [ToString(d_o)]. *)
Definition pipe_database (d_o : float) : option float :=
  if d_o =? 0.019 then Some 0.016
  else if d_o =? 0.025 then Some 0.021
  else if d_o =? 0.032 then Some 0.027
  else if d_o =? 0.038 then Some 0.033
  else None.

Inductive log_line : Type :=
| LogIteration (iteration : nat) (U_assumed U_calculated diff_pct : float)
| LogDP (dp_iteration : nat) (dP_inner : float) (allow_inner : option float)
    (dP_ann : float) (allow_ann : option float).

(** The success object. *)
Record sized : Type := {
  T_h_out : float; T_c_out : float; Q : float; LMTD : float;
  A_required : float; pipe_name : string;
  d_o : float; d_i : float; D_o : float; L_required : float;
  v_inner : float; v_annulus : float;
  h_inner : float; h_annulus : float;
  U_calculated : float; U_assumed : float;
  deltaP_inner : float; deltaP_annulus : float;
  m_h_calc : float; m_c_calc : float;
  logs : list log_line;
  U_valid : bool; dp_valid : bool
}.

Inductive result : Type :=
| Error (error : string)
| Success (r : sized).

(** The fluid properties and settings both loops read. *)
Record env : Type := {
  e_m_h : float; e_m_c : float;
  e_Cp_h : float; e_Cp_c : float;
  e_rho_h : float; e_mu_h : float; e_k_h : float;
  e_rho_c : float; e_mu_c : float; e_k_c : float;
  e_Rf_h : float; e_Rf_c : float;
  e_d_o : float; e_U : float; e_L_required : float;
  e_allowable_dp_inner : option float;
  e_allowable_dp_ann : option float
}.

(** The variables the loops assign. *)
Record vars : Type := {
  s_d_i : float; s_D_o : float;
  s_h_inner : float; s_h_annulus : float; s_U_calculated : float;
  s_v_inner : float; s_v_annulus : float;
  s_deltaP_inner : float; s_deltaP_ann : float;
  s_logs : list log_line;
  s_U_valid : bool; s_dp_valid : bool
}.

(** [while (!U_valid && iteration <= max_iterations)]: [fuel] is
    [max_iterations + 1 - iteration]. *)
Fixpoint u_loop (E : Engine) (v : env) (fuel iteration : nat) (s : vars)
  : vars :=
  match fuel with
  | O => s
  | S fuel' =>
      let d_i_ := s_d_i s in
      let D_o_ := s_D_o s in
      let A_inner_flow := Math_PI * Math_pow E d_i_ 2 / 4 in
      let A_annulus_flow :=
        Math_PI * (Math_pow E D_o_ 2 - Math_pow E (e_d_o v) 2) / 4 in
      let v_inner_ := e_m_h v / (A_inner_flow * e_rho_h v) in
      let v_annulus_ := e_m_c v / (A_annulus_flow * e_rho_c v) in
      let Re_inner := (e_rho_h v * v_inner_ * d_i_) / e_mu_h v in
      let Re_annulus :=
        (e_rho_c v * v_annulus_ * (D_o_ - e_d_o v)) / e_mu_c v in
      let Pr_h := (e_Cp_h v * e_mu_h v) / e_k_h v in
      let Pr_c := (e_Cp_c v * e_mu_c v) / e_k_c v in
      let Nu_inner :=
        0.023 * Math_pow E Re_inner 0.8 * Math_pow E Pr_h 0.4 in
      let Nu_annulus :=
        0.023 * Math_pow E Re_annulus 0.8 * Math_pow E Pr_c 0.4 in
      let h_inner_ := Nu_inner * e_k_h v / d_i_ in
      let h_annulus_ := Nu_annulus * e_k_c v / (D_o_ - e_d_o v) in
      let U_calculated_ :=
        1 / ((1 / h_inner_) + e_Rf_h v + e_Rf_c v + (1 / h_annulus_)) in
      let difference := Math_abs (U_calculated_ - e_U v) / e_U v in
      let logs_ :=
        s_logs s ++ [LogIteration iteration (e_U v) U_calculated_
                       (difference * 100)] in
      let upd (d_i' D_o' : float) (valid : bool) : vars :=
        {| s_d_i := d_i'; s_D_o := D_o';
           s_h_inner := h_inner_; s_h_annulus := h_annulus_;
           s_U_calculated := U_calculated_;
           s_v_inner := v_inner_; s_v_annulus := v_annulus_;
           s_deltaP_inner := s_deltaP_inner s;
           s_deltaP_ann := s_deltaP_ann s;
           s_logs := logs_; s_U_valid := valid;
           s_dp_valid := s_dp_valid s |} in
      if difference <=? 0.2 then upd d_i_ D_o_ true
      else
        let s' :=
          if h_inner_ <? h_annulus_ then
            if v_inner_ <? 0.6 then upd (d_i_ * 0.90) D_o_ false
            else if 2.0 <? v_inner_ then upd (d_i_ * 1.10) D_o_ false
            else upd d_i_ D_o_ false
          else
            if v_annulus_ <? 0.5 then upd d_i_ (D_o_ * 0.95) false
            else if 1.5 <? v_annulus_ then upd d_i_ (D_o_ * 1.05) false
            else upd d_i_ D_o_ false in
        u_loop E v fuel' (S iteration) s'
  end.

(** [allowable === null || deltaP <= allowable] *)
Definition within (deltaP : float) (allowable : option float) : bool :=
  match allowable with
  | None => true
  | Some a => deltaP <=? a
  end.

(** [while (!dp_valid && dp_iteration <= max_dp_iterations)] *)
Fixpoint dp_loop (E : Engine) (v : env) (fuel dp_iteration : nat) (s : vars)
  : vars :=
  match fuel with
  | O => s
  | S fuel' =>
      let d_i_ := s_d_i s in
      let D_o_ := s_D_o s in
      let A_inner_flow := Math_PI * Math_pow E d_i_ 2 / 4 in
      let A_annulus_flow :=
        Math_PI * (Math_pow E D_o_ 2 - Math_pow E (e_d_o v) 2) / 4 in
      let v_inner_ := e_m_h v / (e_rho_h v * A_inner_flow) in
      let v_annulus_ := e_m_c v / (e_rho_c v * A_annulus_flow) in
      let Re_inner := (e_rho_h v * v_inner_ * d_i_) / e_mu_h v in
      let Re_annulus :=
        (e_rho_c v * v_annulus_ * (D_o_ - e_d_o v)) / e_mu_c v in
      let f_inner :=
        if Re_inner <? 2300 then 64 / Re_inner
        else 0.3164 / Math_pow E Re_inner 0.25 in
      let f_ann :=
        if Re_annulus <? 2300 then 64 / Re_annulus
        else 0.3164 / Math_pow E Re_annulus 0.25 in
      let deltaP_inner_ :=
        f_inner * (e_L_required v / d_i_) * 0.5 * e_rho_h v
        * Math_pow E v_inner_ 2 in
      let Dh_ann := D_o_ - e_d_o v in
      let deltaP_ann_ :=
        f_ann * (e_L_required v / Dh_ann) * 0.5 * e_rho_c v
        * Math_pow E v_annulus_ 2 in
      let inner_ok := within deltaP_inner_ (e_allowable_dp_inner v) in
      let ann_ok := within deltaP_ann_ (e_allowable_dp_ann v) in
      let upd (d_i' D_o' : float) (logs' : list log_line) (valid : bool)
        : vars :=
        {| s_d_i := d_i'; s_D_o := D_o';
           s_h_inner := s_h_inner s; s_h_annulus := s_h_annulus s;
           s_U_calculated := s_U_calculated s;
           s_v_inner := v_inner_; s_v_annulus := v_annulus_;
           s_deltaP_inner := deltaP_inner_; s_deltaP_ann := deltaP_ann_;
           s_logs := logs'; s_U_valid := s_U_valid s;
           s_dp_valid := valid |} in
      if inner_ok && ann_ok then upd d_i_ D_o_ (s_logs s) true
      else
        let logs_ :=
          s_logs s ++ [LogDP dp_iteration deltaP_inner_
                         (e_allowable_dp_inner v) deltaP_ann_
                         (e_allowable_dp_ann v)] in
        let s' :=
          if negb inner_ok
             && ((deltaP_ann_ <? deltaP_inner_)
                 || match e_allowable_dp_ann v with
                    | None => true
                    | Some _ => false
                    end)
          then upd (d_i_ * 1.05) D_o_ logs_ false
          else upd d_i_ (D_o_ * 1.05) logs_ false in
        dp_loop E v fuel' (S dp_iteration) s'
  end.

Definition max_iterations : nat := 10.
Definition max_dp_iterations : nat := 5.

(** [data.key ? parseFloat(data.key) : null] *)
Definition getOptFloat (E : Engine) (data : arg) (key : string)
  : completion (option float) :=
  v ← get data key;
  mret (if prim_truthy v then Some (parseFloat E v) else None).

(** Lines 141-173: the feasibility check and the LMTD. *)
Definition lmtd_of (E : Engine) (flow_type T_h_in T_c_in T_h_out T_c_out
                                   : float) : string + float :=
  if (flow_type =? 1) && ((T_h_in <=? T_c_out) || (T_h_out <=? T_c_in))
  then inl err_cross_counter
  else if negb (flow_type =? 1) && (flow_type =? 2)
          && ((T_h_in <=? T_c_in) || (T_h_out <=? T_c_out))
  then inl err_cross_co
  else if negb (flow_type =? 1) && negb (flow_type =? 2)
  then inl err_flow_type
  else
    let deltaT1 :=
      if flow_type =? 1 then T_h_in - T_c_out else T_h_in - T_c_in in
    let deltaT2 :=
      if flow_type =? 1 then T_h_out - T_c_in else T_h_out - T_c_out in
    if (deltaT1 <=? 0) || (deltaT2 <=? 0) || (deltaT1 =? deltaT2) then
      if Math_abs (deltaT1 - deltaT2) <? 1e-5 then inr deltaT1
      else inl err_lmtd
    else inr ((deltaT1 - deltaT2) / Math_log E (deltaT1 / deltaT2)).

Record balance : Type := {
  b_m_h : float; b_m_c : float;
  b_T_h_out : float; b_T_c_out : float; b_Q : float
}.

(** Lines 98-139. *)
Definition energy_balance (m_h m_c T_h_in T_c_in T_h_out T_c_out Cp_h Cp_c
                            : float) : string + balance :=
  if is_nan m_h || is_nan m_c then
    if (T_h_out =? -1) || (T_c_out =? -1) then inl err_need_temps
    else if is_nan m_h then
      let Q := m_c * Cp_c * (T_c_out - T_c_in) in
      inr {| b_m_h := Q / (Cp_h * (T_h_in - T_h_out)); b_m_c := m_c;
             b_T_h_out := T_h_out; b_T_c_out := T_c_out; b_Q := Q |}
    else
      let Q := m_h * Cp_h * (T_h_in - T_h_out) in
      inr {| b_m_h := m_h; b_m_c := Q / (Cp_c * (T_c_out - T_c_in));
             b_T_h_out := T_h_out; b_T_c_out := T_c_out; b_Q := Q |}
  else if T_h_out =? -1 then
    let Q := m_c * Cp_c * (T_c_out - T_c_in) in
    inr {| b_m_h := m_h; b_m_c := m_c;
           b_T_h_out := T_h_in - Q / (m_h * Cp_h);
           b_T_c_out := T_c_out; b_Q := Q |}
  else if T_c_out =? -1 then
    let Q := m_h * Cp_h * (T_h_in - T_h_out) in
    inr {| b_m_h := m_h; b_m_c := m_c; b_T_h_out := T_h_out;
           b_T_c_out := T_c_in + Q / (m_c * Cp_c); b_Q := Q |}
  else
    let Qh := m_h * Cp_h * (T_h_in - T_h_out) in
    let Qc := m_c * Cp_c * (T_c_out - T_c_in) in
    if 0.05 * Qh <? Math_abs (Qh - Qc) then inl err_balance
    else inr {| b_m_h := m_h; b_m_c := m_c; b_T_h_out := T_h_out;
                b_T_c_out := T_c_out; b_Q := Qh |}.

(** Lines 24-47: the pipe selection; reading [name] of a missing list
    element throws. *)
Definition select_pipe (E : Engine) (data : arg)
  : completion (string + (string * float)) :=
  pipe_choice ← getIntOr E data "pipe_choice" 1;
  if pipe_choice =? 1 then
    pipe_size_idx ← getIntOr E data "pipe_size_idx" 1;
    if (1 <=? pipe_size_idx) && (pipe_size_idx <=? 4) then
      match pipe_at pipe_size_idx with
      | Some pipe => mret (inr pipe)
      | None =>
          Throw "TypeError: Cannot read properties of undefined (reading 'name')"
      end
    else mret (inl err_pipe_size)
  else
    d_o_ ← getFloat E data "d_o_custom";
    mret (inr ("User defined", d_o_)).

(** Lines 49-65. *)
Definition select_inner_diameter (E : Engine) (data : arg) (d_o_ : float)
  : completion float :=
  id_choice ← getIntOr E data "id_choice" 1;
  if id_choice =? 1 then
    match pipe_database d_o_ with
    | Some d => mret d
    | None => getFloatOr E data "d_i_custom" (d_o_ * 0.85)
    end
  else getFloat E data "d_i_custom".

(** Lines 69-81. *)
Definition select_fouling (E : Engine) (data : arg)
  : completion (float * float) :=
  foul_choice ← getIntOr E data "foul_choice" 2;
  if foul_choice =? 1 then
    Rf_h ← getFloat E data "Rf_h";
    Rf_c ← getFloat E data "Rf_c";
    mret (Rf_h, Rf_c)
  else if foul_choice =? 2 then mret (0.0002, 0.0002)
  else mret (0.0, 0.0).

Definition calculateDPHX (E : Engine) (data : arg) : completion result :=
  try_catch Error
    (m_h ← getFloat E data "m_h";
     Cp_h0 ← getFloat E data "Cp_h";
     T_h_in ← getFloat E data "T_h_in";
     rho_h ← getFloat E data "rho_h";
     mu_h ← getFloat E data "mu_h";
     k_h ← getFloat E data "k_h";
     m_c ← getFloat E data "m_c";
     Cp_c0 ← getFloat E data "Cp_c";
     T_c_in ← getFloat E data "T_c_in";
     rho_c ← getFloat E data "rho_c";
     mu_c ← getFloat E data "mu_c";
     k_c ← getFloat E data "k_c";
     T_h_out ← getFloatOr E data "T_h_out" (-1);
     T_c_out ← getFloatOr E data "T_c_out" (-1);
     flow_type ← getIntOr E data "flow_type" 1;
     U_assumed_ ← getFloat E data "U_assumed";
     sel ← select_pipe E data;
     match sel with
     | inl e => mret (Error e)
     | inr (pipe_name_, d_o_) =>
     d_i0 ← select_inner_diameter E data d_o_;
     D_o0 ← getFloat E data "D_o";
     Rf ← select_fouling E data;
     allowable_dp_inner ← getOptFloat E data "allowable_dp_inner";
     allowable_dp_ann ← getOptFloat E data "allowable_dp_ann";
     if is_nan m_h && is_nan m_c then mret (Error err_no_mass_flow)
     else
     let Cp_h := Cp_h0 * 1000 in
     let Cp_c := Cp_c0 * 1000 in
     match energy_balance m_h m_c T_h_in T_c_in T_h_out T_c_out Cp_h Cp_c with
     | inl e => mret (Error e)
     | inr b =>
     match lmtd_of E flow_type T_h_in T_c_in (b_T_h_out b) (b_T_c_out b) with
     | inl e => mret (Error e)
     | inr LMTD_ =>
       let A_required_ := b_Q b / (U_assumed_ * LMTD_) in
       if d_o_ <=? d_i0 then mret (Error err_diameters)
       else
         let L_required_ := A_required_ / (Math_PI * d_o_) in
         let v := {| e_m_h := b_m_h b; e_m_c := b_m_c b;
                     e_Cp_h := Cp_h; e_Cp_c := Cp_c;
                     e_rho_h := rho_h; e_mu_h := mu_h; e_k_h := k_h;
                     e_rho_c := rho_c; e_mu_c := mu_c; e_k_c := k_c;
                     e_Rf_h := fst Rf; e_Rf_c := snd Rf;
                     e_d_o := d_o_; e_U := U_assumed_;
                     e_L_required := L_required_;
                     e_allowable_dp_inner := allowable_dp_inner;
                     e_allowable_dp_ann := allowable_dp_ann |} in
         let s0 := {| s_d_i := d_i0; s_D_o := D_o0;
                      s_h_inner := 0; s_h_annulus := 0;
                      s_U_calculated := 0;
                      s_v_inner := 0; s_v_annulus := 0;
                      s_deltaP_inner := 0; s_deltaP_ann := 0;
                      s_logs := []; s_U_valid := false;
                      s_dp_valid := false |} in
         let s1 := u_loop E v max_iterations 1 s0 in
         let s2 := dp_loop E v max_dp_iterations 1 s1 in
         mret (Success
           {| T_h_out := b_T_h_out b; T_c_out := b_T_c_out b;
              Q := b_Q b; LMTD := LMTD_; A_required := A_required_;
              pipe_name := pipe_name_;
              d_o := d_o_; d_i := s_d_i s2; D_o := s_D_o s2;
              L_required := L_required_;
              v_inner := s_v_inner s2; v_annulus := s_v_annulus s2;
              h_inner := s_h_inner s2; h_annulus := s_h_annulus s2;
              U_calculated := s_U_calculated s2; U_assumed := U_assumed_;
              deltaP_inner := s_deltaP_inner s2;
              deltaP_annulus := s_deltaP_ann s2;
              m_h_calc := b_m_h b; m_c_calc := b_m_c b;
              logs := s_logs s2;
              U_valid := s_U_valid s2; dp_valid := s_dp_valid s2 |})
     end
     end
     end).

End DPHXv2.

(** ** The trend model of the maintenance page: [regress], [predictRUL]
    and [analyzePump] of the [PredictionEngine] of
    [projects/sthx/script.js] (lines 590-677) *)

Module Prediction.

Import JS.
Local Open Scope float_scope.

(** The Number of an array index or length; exact, an array being shorter
    than [2^32]. *)
Fixpoint number (n : nat) : float :=
  match n with
  | O => 0
  | S k => number k + 1
  end.

Record sums : Type := {
  sumX : float; sumY : float; sumXY : float; sumXX : float
}.

(** [for (let i = 0; i < n; i++) { ... }] of [regress], from index [i];
    [x_data[i]] is [i]. *)
Fixpoint regress_loop (i : nat) (y_data : list float) (s : sums) : sums :=
  match y_data with
  | [] => s
  | y :: rest =>
      regress_loop (S i) rest
        {| sumX := sumX s + number i;
           sumY := sumY s + y;
           sumXY := sumXY s + number i * y;
           sumXX := sumXX s + number i * number i |}
  end.

(** The object [{ m, c }]. *)
Record line : Type := { m : float; c : float }.

(** [regress(y_data)]: least squares of [y_data] over [0, 1, 2, ...]. *)
Definition regress (y_data : list float) : line :=
  let n := number (length y_data) in
  let s := regress_loop 0 y_data
             {| sumX := 0; sumY := 0; sumXY := 0; sumXX := 0 |} in
  let m_ := (n * sumXY s - sumX s * sumY s)
            / (n * sumXX s - sumX s * sumX s) in
  let c_ := (sumY s - m_ * sumX s) / n in
  {| m := m_; c := c_ |}.

(** [predictRUL(current_val, threshold, rate)]. *)
Definition predictRUL (current_val threshold rate : float) : float :=
  if rate =? 0 then 999
  else
    let days := (threshold - current_val) / rate in
    if (days <? 0) && (rate <? 0) && (current_val <? threshold) then 0
    else if (days <? 0) && (0 <? rate) && (threshold <? current_val) then 0
    else Math_floor days.

(** The object [analyzePump] returns; [current_Vib] is [undefined] for an
    empty series. *)
Record pump_report : Type := {
  current_Vib : option float;
  z_score : float;
  status : string;
  issue : string
}.

(** [arr.reduce((a, b) => a + b, 0)] *)
Definition sum (arr : list float) : float :=
  fold_left (fun a b => a + b) arr 0.

(** [analyzePump(pump_data)], on [pump_data.Vib]; in a comparison or a
    subtraction [undefined] counts as NaN. *)
Definition analyzePump (E : Engine) (Vib_series : list float) : pump_report :=
  let current_Vib_ := nth_error Vib_series (length Vib_series - 1) in
  let cur := default nan current_Vib_ in
  let n := number (length Vib_series) in
  let mean := sum Vib_series / n in
  let std :=
    Math_sqrt (sum (map (fun x => Math_pow E (x - mean) 2) Vib_series) / n) in
  let z_score_ := (cur - mean) / std in
  if (4.5 <? cur) || (3 <? z_score_) then
    {| current_Vib := current_Vib_; z_score := z_score_;
       status := "Critical";
       issue := "High Vibration (Possible Cavitation/Bearing)" |}
  else if 2.5 <? cur then
    {| current_Vib := current_Vib_; z_score := z_score_;
       status := "Warning"; issue := "Increasing Vibration" |}
  else
    {| current_Vib := current_Vib_; z_score := z_score_;
       status := "Healthy"; issue := "None" |}.

End Prediction.

(** * Properties *)

(** ** The order of binary64 values

    [<] and [<=] on floats are not a total order (NaN compares with
    nothing), but they are transitive, and a comparison that holds has no
    NaN operand.  The minimum search of the optimizer rests on this. *)

Module FloatFacts.

Local Open Scope float_scope.

(** [SFcompare] of the specification floats is a lexicographic comparison
    of sign, exponent and mantissa; its order properties follow by cases. *)
Definition lt_spec (a b : spec_float) : Prop := SFcompare a b = Some Lt.
Definition eq_spec (a b : spec_float) : Prop := SFcompare a b = Some Eq.

Ltac cmp_cases :=
  repeat match goal with
  | |- context [Z.compare ?a ?b] => destruct (Z.compare_spec a b); subst
  | H : context [Z.compare ?a ?b] |- _ => destruct (Z.compare_spec a b); subst
  | |- context [Pos.compare_cont Eq ?a ?b] =>
      change (Pos.compare_cont Eq a b) with (Pos.compare a b);
      destruct (Pos.compare_spec a b); subst
  | H : context [Pos.compare_cont Eq ?a ?b] |- _ =>
      change (Pos.compare_cont Eq a b) with (Pos.compare a b) in H;
      destruct (Pos.compare_spec a b); subst
  end.

Lemma SFcompare_lt_trans a b c :
  lt_spec a b -> lt_spec b c -> lt_spec a c.
Proof.
  unfold lt_spec.
  destruct a as [[]|[]| |[] ma ea], b as [[]|[]| |[] mb eb],
           c as [[]|[]| |[] mc ec]; simpl; try discriminate; try reflexivity;
    intros H1 H2; cmp_cases; simpl in *; try discriminate; try reflexivity;
    try lia.
Qed.

Lemma SFcompare_eq_lt_trans a b c :
  eq_spec a b -> lt_spec b c -> lt_spec a c.
Proof.
  unfold lt_spec, eq_spec.
  destruct a as [[]|[]| |[] ma ea], b as [[]|[]| |[] mb eb],
           c as [[]|[]| |[] mc ec]; simpl; try discriminate; try reflexivity;
    intros H1 H2; cmp_cases; simpl in *; try discriminate; try reflexivity;
    try lia.
Qed.

Lemma SFcompare_lt_irrefl a : ~ lt_spec a a.
Proof.
  unfold lt_spec.
  destruct a as [[]|[]| |[] ma ea]; simpl; try discriminate;
    intros H; cmp_cases; simpl in *; try discriminate; try lia.
Qed.

Lemma ltb_lt x y : (x <? y) = true <-> lt_spec (Prim2SF x) (Prim2SF y).
Proof.
  rewrite ltb_spec. unfold SFltb, lt_spec.
  destruct (SFcompare _ _) as [[]|]; split; congruence.
Qed.

Lemma leb_le x y :
  (x <=? y) = true <->
  lt_spec (Prim2SF x) (Prim2SF y) \/ eq_spec (Prim2SF x) (Prim2SF y).
Proof.
  rewrite leb_spec. unfold SFleb, lt_spec, eq_spec.
  destruct (SFcompare _ _) as [[]|]; split; intros; try tauto; try congruence;
    destruct H; congruence.
Qed.

Lemma ltb_trans x y z :
  (x <? y) = true -> (y <? z) = true -> (x <? z) = true.
Proof. rewrite !ltb_lt. apply SFcompare_lt_trans. Qed.

Lemma leb_ltb_trans x y z :
  (x <=? y) = true -> (y <? z) = true -> (x <? z) = true.
Proof.
  rewrite leb_le, !ltb_lt. intros [H|H] ?.
  - eapply SFcompare_lt_trans; eauto.
  - eapply SFcompare_eq_lt_trans; eauto.
Qed.

Lemma ltb_irrefl x : (x <? x) = false.
Proof.
  destruct (x <? x) eqn:H; [|reflexivity].
  apply ltb_lt in H. now apply SFcompare_lt_irrefl in H.
Qed.

(** [a < b] excludes [b <= a]. *)
Lemma ltb_not_leb x y : (x <? y) = true -> (y <=? x) = false.
Proof.
  intros H. destruct (y <=? x) eqn:H'; [|reflexivity].
  pose proof (leb_ltb_trans _ _ _ H' H) as C. now rewrite ltb_irrefl in C.
Qed.

(** A comparison that holds has no NaN operand. *)
Lemma ltb_not_nan x y :
  (x <? y) = true -> is_nan x = false /\ is_nan y = false.
Proof.
  unfold is_nan. rewrite ltb_spec, !FloatAxioms.eqb_spec. unfold SFltb, SFeqb.
  destruct (Prim2SF x) as [[]|[]| |[] mx ex], (Prim2SF y) as [[]|[]| |[] my ey];
    simpl; try discriminate; intros _;
    rewrite ?Z.compare_refl;
    change (Pos.compare_cont Eq ?a ?b) with (Pos.compare a b);
    rewrite ?Pos.compare_refl; auto.
Qed.

End FloatFacts.

(** ** The double-pipe optimizer *)

Module DPHXFacts.

Import JS Arg DPHX FloatFacts.
Local Open Scope float_scope.

(** The fields of an argument object, parsed as section 1 does. *)
Definition field (fields : gmap string prim) (key : string) : prim :=
  default PUndefined (fields !! key).

Definition parsed (E : Engine) (fields : gmap string prim) : inputs :=
  let num key := parseFloat E (field fields key) in
  let num_or key d := parseFloat E (prim_or (field fields key) (PNum d)) in
  {| in_m_h := num "m_h"; in_T_h_in := num "T_h_in";
     in_T_h_out := num_or "T_h_out" (-1);
     in_m_c := num "m_c"; in_T_c_in := num "T_c_in";
     in_T_c_out := num_or "T_c_out" (-1);
     in_Cp_h := num "Cp_h" * 1000; in_rho_h := num "rho_h";
     in_mu_h := num "mu_h"; in_k_h := num "k_h";
     in_Cp_c := num "Cp_c" * 1000; in_rho_c := num "rho_c";
     in_mu_c := num "mu_c"; in_k_c := num "k_c";
     in_flow_type :=
       parseInt E (prim_or (field fields "flow_type") (PNum 1));
     in_foul_h := num_or "Rf_h" 0.0002;
     in_foul_c := num_or "Rf_c" 0.0002 |}.

(** [parseFloat(data.allowable_dp_inner || 70000)] *)
Definition max_dp_of (E : Engine) (fields : gmap string prim) : float :=
  parseFloat E (prim_or (field fields "allowable_dp_inner") (PNum 70000)).

(** The call passes sections 1 and 2 and enters the pipe search with the
    parsed inputs [p], the balanced streams [t] and the limit [max_dp]. *)
Definition reaches_search (E : Engine) (data : arg) (p : inputs)
  (t : thermal) (max_dp : float) : Prop :=
  exists fields,
    data = ArgObject fields /\ p = parsed E fields /\
    energy_balance E p = inr t /\ max_dp = max_dp_of E fields.

Definition no_pipe : pipe :=
  {| pipe_name := ""; pipe_od := nan; pipe_id := nan |}.

(** The rated candidates in enumeration order: one for every pair that
    passes the clearance check. *)
Definition trials_of (E : Engine) (p : inputs) (t : thermal)
  (l : list (pipe * pipe)) : list design :=
  map (fun pr => rate E p t (fst pr) (snd pr))
    (List.filter (fun pr => clearance_ok (fst pr) (snd pr)) l).

Definition trials (E : Engine) (p : inputs) (t : thermal) : list design :=
  trials_of E p t (pairs STANDARD_PIPES).

Lemma parse_inputs_object E fields :
  parse_inputs E (ArgObject fields) = Normal (parsed E fields).
Proof. reflexivity. Qed.

Lemma calculateDPHX_object E fields :
  calculateDPHX E (ArgObject fields) =
  Normal match energy_balance E (parsed E fields) with
         | inl e => Error e
         | inr t =>
             finish (search E (parsed E fields) t (max_dp_of E fields))
         end.
Proof.
  unfold calculateDPHX. rewrite parse_inputs_object. simpl.
  destruct (energy_balance E (parsed E fields)); reflexivity.
Qed.

Lemma calculateDPHX_reaches E data p t max_dp :
  reaches_search E data p t max_dp ->
  calculateDPHX E data = Normal (finish (search E p t max_dp)).
Proof.
  intros (fields & -> & -> & Hb & ->).
  rewrite calculateDPHX_object, Hb. reflexivity.
Qed.

Section Search.

Variables (E : Engine) (p : inputs) (t : thermal) (max_dp : float).

(** What the three loop variables hold once the candidates [seen] have
    been tried. *)
Definition search_inv (seen : list design) (st : search_state) : Prop :=
  logs st = map log_of seen /\
  match best_design st with
  | None =>
      min_cost_metric st = infinity /\
      forall d, In d seen -> feasible max_dp d = true ->
                (A_req d <? infinity) = false
  | Some b =>
      min_cost_metric st = A_req b /\
      feasible max_dp b = true /\
      (exists pre post,
          seen = pre ++ b :: post /\
          forall d, In d pre -> feasible max_dp d = true ->
                    (A_req d <=? A_req b) = false) /\
      forall d, In d seen -> feasible max_dp d = true ->
                (A_req d <? A_req b) = false
  end.

Lemma search_inv_init : search_inv [] search_init.
Proof. split; [reflexivity|]. simpl. split; [reflexivity|]. intros d []. Qed.

(** A candidate that is not below the running minimum is not below (nor
    equal to) a later, smaller one. *)
Lemma not_below_smaller a m x :
  (a <? m) = false -> (x <? m) = true ->
  (a <=? x) = false /\ (a <? x) = false.
Proof.
  intros Ha Hx. split.
  - destruct (a <=? x) eqn:H; [|reflexivity].
    rewrite (leb_ltb_trans _ _ _ H Hx) in Ha. discriminate.
  - destruct (a <? x) eqn:H; [|reflexivity].
    rewrite (ltb_trans _ _ _ H Hx) in Ha. discriminate.
Qed.

Lemma search_inv_step seen st d :
  search_inv seen st ->
  let logs' := logs st ++ [log_of d] in
  search_inv (seen ++ [d])
    (if velocity_ok d && dp_ok max_dp d then
       if A_req d <? min_cost_metric st
       then {| logs := logs'; best_design := Some d;
               min_cost_metric := A_req d |}
       else {| logs := logs'; best_design := best_design st;
               min_cost_metric := min_cost_metric st |}
     else {| logs := logs'; best_design := best_design st;
             min_cost_metric := min_cost_metric st |}).
Proof.
  intros [Hlogs Hbest] logs'.
  assert (Hl : logs' = map log_of (seen ++ [d])).
  { unfold logs'. rewrite Hlogs, map_app. reflexivity. }
  fold (feasible max_dp d).
  destruct (feasible max_dp d) eqn:Hf;
    [destruct (A_req d <? min_cost_metric st) eqn:Hlt|].
  - (* a new best design *)
    split; [exact Hl|]. simpl. split; [reflexivity|]. split; [exact Hf|].
    assert (Hold : forall d', In d' seen -> feasible max_dp d' = true ->
                     (A_req d' <=? A_req d) = false /\
                     (A_req d' <? A_req d) = false).
    { intros d' Hin Hf'. apply not_below_smaller with (m := min_cost_metric st);
        [|exact Hlt].
      destruct (best_design st) as [b|].
      - destruct Hbest as (-> & _ & _ & Hmin). now apply Hmin.
      - destruct Hbest as (-> & Hmin). now apply Hmin. }
    split.
    + exists seen, []. split; [reflexivity|].
      intros d' Hin Hf'. now apply Hold.
    + intros d' Hin Hf'. apply in_app_or in Hin as [Hin|[<-|[]]].
      * now apply Hold.
      * apply ltb_irrefl.
  - (* feasible, but not below the minimum *)
    split; [exact Hl|]. simpl.
    destruct (best_design st) as [b|].
    + destruct Hbest as (Hm & Hfb & (pre & post & -> & Hpre) & Hmin).
      split; [exact Hm|]. split; [exact Hfb|]. split.
      * exists pre, (post ++ [d]). split; [|exact Hpre].
        now rewrite <- app_assoc.
      * intros d' Hin Hf'. apply in_app_or in Hin as [Hin|[<-|[]]].
        -- now apply Hmin.
        -- now rewrite <- Hm.
    + destruct Hbest as (Hm & Hmin). split; [exact Hm|].
      intros d' Hin Hf'. apply in_app_or in Hin as [Hin|[<-|[]]].
      * now apply Hmin.
      * now rewrite <- Hm.
  - (* infeasible *)
    split; [exact Hl|]. simpl.
    destruct (best_design st) as [b|].
    + destruct Hbest as (Hm & Hfb & (pre & post & -> & Hpre) & Hmin).
      split; [exact Hm|]. split; [exact Hfb|]. split.
      * exists pre, (post ++ [d]). split; [|exact Hpre].
        now rewrite <- app_assoc.
      * intros d' Hin Hf'. apply in_app_or in Hin as [Hin|[<-|[]]].
        -- now apply Hmin.
        -- congruence.
    + destruct Hbest as (Hm & Hmin). split; [exact Hm|].
      intros d' Hin Hf'. apply in_app_or in Hin as [Hin|[<-|[]]].
      * now apply Hmin.
      * congruence.
Qed.

Lemma search_step_skip st inner outer :
  clearance_ok inner outer = false ->
  search_step E p t max_dp st (inner, outer) = st.
Proof. intros H. unfold search_step. now rewrite H. Qed.

Lemma search_step_try st inner outer :
  clearance_ok inner outer = true ->
  search_step E p t max_dp st (inner, outer) =
  let d := rate E p t inner outer in
  let logs' := logs st ++ [log_of d] in
  if velocity_ok d && dp_ok max_dp d then
    if A_req d <? min_cost_metric st
    then {| logs := logs'; best_design := Some d;
            min_cost_metric := A_req d |}
    else {| logs := logs'; best_design := best_design st;
            min_cost_metric := min_cost_metric st |}
  else {| logs := logs'; best_design := best_design st;
          min_cost_metric := min_cost_metric st |}.
Proof. intros H. unfold search_step. now rewrite H. Qed.

Lemma search_inv_fold l : forall seen st,
  search_inv seen st ->
  search_inv (seen ++ trials_of E p t l)
    (fold_left (search_step E p t max_dp) l st).
Proof.
  induction l as [|[inner outer] l IH]; intros seen st Hinv.
  - simpl. now rewrite app_nil_r.
  - cbn [fold_left]. unfold trials_of. cbn [List.filter fst snd].
    destruct (clearance_ok inner outer) eqn:Hc.
    + rewrite search_step_try by exact Hc. cbn [map fst snd].
      match goal with
      | |- search_inv (seen ++ ?d :: ?rest) _ =>
          replace (seen ++ d :: rest) with ((seen ++ [d]) ++ rest)
            by (rewrite <- app_assoc; reflexivity)
      end.
      apply IH. apply search_inv_step. exact Hinv.
    + rewrite search_step_skip by exact Hc. apply IH. exact Hinv.
Qed.

Lemma search_inv_final :
  search_inv (trials E p t) (search E p t max_dp).
Proof. apply (search_inv_fold _ [] search_init), search_inv_init. Qed.

End Search.

(** The [logs] array of a returned object, when it has one. *)
Definition logs_of (r : result) : option (list trial_log) :=
  match r with
  | Error _ => None
  | ErrorWithLogs _ l => Some l
  | Success _ l => Some l
  end.

Lemma finish_logs st : logs_of (finish st) = Some (logs st).
Proof. unfold finish. now destruct (best_design st). Qed.

(** The search logs one line per rated candidate, whatever it finds. *)
Lemma search_logs E p t max_dp :
  logs (search E p t max_dp) = map log_of (trials E p t).
Proof. apply (search_inv_final E p t max_dp). Qed.

(** Of the 45 pairs [i < j] of the catalog, 38 leave 5 mm of annulus. *)
Lemma trials_length E p t : length (trials E p t) = 38%nat.
Proof. unfold trials, trials_of. rewrite length_map. reflexivity. Qed.

(** The two nested loops enumerate the pairs of catalog positions
    [i < j] in lexicographic order: inner pipe first, then outer pipe. *)
Lemma pairs_lexicographic :
  pairs STANDARD_PIPES =
  flat_map (fun i =>
              map (fun j => (nth i STANDARD_PIPES no_pipe,
                             nth j STANDARD_PIPES no_pipe))
                (seq (S i) (9 - i)))
    (seq 0 9).
Proof. reflexivity. Qed.

(** The fields the function reads. *)
Definition read_keys : list string :=
  ["m_h"; "T_h_in"; "T_h_out"; "m_c"; "T_c_in"; "T_c_out";
   "Cp_h"; "rho_h"; "mu_h"; "k_h"; "Cp_c"; "rho_c"; "mu_c"; "k_c";
   "flow_type"; "Rf_h"; "Rf_c"; "allowable_dp_inner"].

Lemma field_insert_other fields key v key' :
  key <> key' -> field (<[key := v]> fields) key' = field fields key'.
Proof. intros H. unfold field. now rewrite lookup_insert_ne. Qed.

Lemma unread_field_ignored E fields key v :
  ~ In key read_keys ->
  parsed E (<[key := v]> fields) = parsed E fields /\
  max_dp_of E (<[key := v]> fields) = max_dp_of E fields.
Proof.
  intros H. unfold parsed, max_dp_of.
  rewrite !field_insert_other; [split; reflexivity|..];
    intros ->; apply H; unfold read_keys; simpl; tauto.
Qed.

(** *** Concrete calls *)

Definition water (m_h_ m_c_ : float) : list (string * prim) :=
  [("m_h", PNum m_h_); ("m_c", PNum m_c_);
   ("T_h_in", PNum 80); ("T_c_in", PNum 20);
   ("Cp_h", PNum 4.18); ("rho_h", PNum 997); ("mu_h", PNum 0.00089);
   ("k_h", PNum 0.607);
   ("Cp_c", PNum 4.18); ("rho_c", PNum 997); ("mu_c", PNum 0.00089);
   ("k_c", PNum 0.607)].

(** Scenario A: hot water 2 kg/s cooled from 80 to 50 degrees, cold water
    2.5 kg/s entering at 20 degrees, at most 70 kPa per side. *)
Definition scenarioA_fields : gmap string prim :=
  list_to_map (("T_h_out", PNum 50) :: ("allowable_dp_inner", PNum 70000)
                 :: water 2 2.5).

Definition scenarioA : arg := ArgObject scenarioA_fields.

Definition scenarioA_thermal : thermal :=
  Eval vm_compute in
    match energy_balance RefEngine.engine
            (parsed RefEngine.engine scenarioA_fields) with
    | inr t => t
    | inl _ => {| th_m_h := nan; th_m_c := nan; th_T_h_out := nan;
                  th_T_c_out := nan; th_Q := nan; th_LMTD := nan |}
    end.

(** Scenario D: the same streams with an unattainable limit of 1 Pa. *)
Definition scenarioD_fields : gmap string prim :=
  list_to_map (("T_h_out", PNum 50) :: ("allowable_dp_inner", PNum 1)
                 :: water 2 2.5).

Definition scenarioD : arg := ArgObject scenarioD_fields.

(** C3: whenever a call enters the search, the design it returns is a
    feasible candidate that no feasible candidate undercuts in required
    area, and no feasible candidate enumerated before it (smaller inner
    pipe, then smaller outer pipe) has an area as small; when it returns
    none, the error is the no-feasible-design one, which is what happens
    in particular when no candidate is feasible. *)
Theorem optimizer_returns_first_minimum E data p t max_dp :
  reaches_search E data p t max_dp ->
  ((exists b logs pre post,
       calculateDPHX E data = Normal (Success b logs) /\
       trials E p t = pre ++ b :: post /\
       feasible max_dp b = true /\
       (forall d, In d (trials E p t) -> feasible max_dp d = true ->
                  (A_req d <? A_req b) = false) /\
       (forall d, In d pre -> feasible max_dp d = true ->
                  (A_req d <=? A_req b) = false))
   \/
   (exists logs,
       calculateDPHX E data = Normal (ErrorWithLogs err_no_feasible logs) /\
       forall d, In d (trials E p t) -> feasible max_dp d = true ->
                 (A_req d <? infinity) = false))
  /\
  ((forall d, In d (trials E p t) -> feasible max_dp d = false) ->
   exists logs,
     calculateDPHX E data = Normal (ErrorWithLogs err_no_feasible logs)).
Proof.
  intros Hr. rewrite (calculateDPHX_reaches _ _ _ _ _ Hr).
  destruct (search_inv_final E p t max_dp) as [_ Hbest].
  unfold finish.
  destruct (best_design (search E p t max_dp)) as [b|].
  - destruct Hbest as (_ & Hfb & (pre & post & Hsplit & Hpre) & Hmin).
    split.
    + left. exists b, (logs (search E p t max_dp)), pre, post. auto.
    + intros Hnone. rewrite Hnone in Hfb; [discriminate|].
      rewrite Hsplit. apply in_elt.
  - destruct Hbest as (_ & Hmin). split.
    + right. eexists. split; [reflexivity|exact Hmin].
    + intros _. eexists. reflexivity.
Qed.

Definition scenarioA_result : result :=
  Eval vm_compute in
    match calculateDPHX RefEngine.engine scenarioA with
    | Normal r => r
    | Throw e => Error e
    end.

Lemma scenarioA_runs :
  calculateDPHX RefEngine.engine scenarioA = Normal scenarioA_result.
Proof. vm_compute. reflexivity. Qed.

Lemma scenarioA_reaches :
  reaches_search RefEngine.engine scenarioA
    (parsed RefEngine.engine scenarioA_fields) scenarioA_thermal 70000.
Proof.
  exists scenarioA_fields.
  split; [reflexivity|]. split; [reflexivity|].
  split; vm_compute; reflexivity.
Qed.

(** On scenario A the first disjunct holds, with the 1.25 inch pipe in the
    2.5 inch pipe. *)
Lemma optimizer_returns_first_minimum_scenarioA :
  reaches_search RefEngine.engine scenarioA
    (parsed RefEngine.engine scenarioA_fields) scenarioA_thermal 70000 /\
  exists b logs,
    calculateDPHX RefEngine.engine scenarioA = Normal (Success b logs) /\
    pipe_name (inner_pipe b) = "1.25 inch" /\
    pipe_name (outer_pipe b) = "2.5 inch" /\
    forall d,
      In d (trials RefEngine.engine
              (parsed RefEngine.engine scenarioA_fields) scenarioA_thermal) ->
      feasible 70000 d = true -> (A_req d <? A_req b) = false.
Proof.
  assert (Hr : reaches_search RefEngine.engine scenarioA
                 (parsed RefEngine.engine scenarioA_fields)
                 scenarioA_thermal 70000).
  { exists scenarioA_fields.
    split; [reflexivity|]. split; [reflexivity|].
    split; vm_compute; reflexivity. }
  split; [exact Hr|].
  destruct (optimizer_returns_first_minimum _ _ _ _ _ Hr)
    as [[(b & logs & pre & post & Hc & _ & _ & Hmin & _)|(logs & Hc & _)] _].
  - exists b, logs. split; [exact Hc|].
    rewrite scenarioA_runs in Hc. unfold scenarioA_result in Hc.
    injection Hc as <- _.
    split; [reflexivity|]. split; [reflexivity|]. exact Hmin.
  - rewrite scenarioA_runs in Hc. discriminate Hc.
Defined.

(** The pairs of catalog pipes with the inner one strictly smaller than
    the outer one, counted on the catalog itself. *)
Definition smaller_pairs : list (pipe * pipe) :=
  List.filter (fun pr => pipe_od (fst pr) <? pipe_od (snd pr))
    (list_prod STANDARD_PIPES STANDARD_PIPES).

(** C4, as stated, fails on scenario D: the search finds no feasible design
    and returns 38 log lines, while 45 catalog pairs have the inner pipe
    strictly smaller than the outer one. *)
Lemma trial_log_shorter_than_pair_count :
  exists logs,
    calculateDPHX RefEngine.engine scenarioD
    = Normal (ErrorWithLogs err_no_feasible logs) /\
    length logs = 38%nat /\
    length smaller_pairs = 45%nat /\
    length (pairs STANDARD_PIPES) = 45%nat.
Proof.
  eexists. split; [vm_compute; reflexivity|]. repeat split; reflexivity.
Qed.

(** C4 (amended): whenever a call enters the search, its result carries a
    trial log with exactly one line for every catalog pair [i < j] that
    leaves at least 5 mm of annular clearance, in enumeration order and
    regardless of feasibility; the 7 pairs with less clearance leave no
    line, so the log has 38 lines on success and on failure alike. *)
Theorem trial_log_records_cleared_pairs E data p t max_dp :
  reaches_search E data p t max_dp ->
  exists r l,
    calculateDPHX E data = Normal r /\
    logs_of r = Some l /\
    l = map log_of (trials E p t) /\
    length l = length (List.filter
                         (fun pr => clearance_ok (fst pr) (snd pr))
                         (pairs STANDARD_PIPES)) /\
    length l = 38%nat /\
    length (pairs STANDARD_PIPES) = 45%nat.
Proof.
  intros Hr. rewrite (calculateDPHX_reaches _ _ _ _ _ Hr).
  eexists. eexists. split; [reflexivity|].
  split; [apply finish_logs|].
  rewrite search_logs. split; [reflexivity|].
  rewrite length_map. split; [|split; [apply trials_length|reflexivity]].
  unfold trials, trials_of. now rewrite length_map.
Qed.

Lemma trial_log_records_cleared_pairs_scenarioD :
  reaches_search RefEngine.engine scenarioD
    (parsed RefEngine.engine scenarioD_fields) scenarioA_thermal 1 /\
  exists r l,
    calculateDPHX RefEngine.engine scenarioD = Normal r /\
    logs_of r = Some l /\ length l = 38%nat.
Proof.
  assert (Hr : reaches_search RefEngine.engine scenarioD
                 (parsed RefEngine.engine scenarioD_fields)
                 scenarioA_thermal 1).
  { exists scenarioD_fields.
    split; [reflexivity|]. split; [reflexivity|].
    split; vm_compute; reflexivity. }
  split; [exact Hr|].
  destruct (trial_log_records_cleared_pairs _ _ _ _ _ Hr)
    as (r & l & Hc & Hl & _ & _ & Hn & _).
  exists r, l. auto.
Defined.

End DPHXFacts.

(** ** The shell-and-tube design loop *)

Module STHXFacts.

Import JS STHX FloatFacts.
Local Open Scope float_scope.

(** The object [D] after the allocation step of [calculateSTHX], and the
    lines logged by then. *)
Definition allocated (inputData : InputData) : Params * list log_line :=
  let D := merge_defaults inputData in
  if String.eqb (allocation_mode D) "auto" then
    (with_allocation D (fst (auto_allocation D)),
     [LogAutoAllocation (snd (auto_allocation D))])
  else (D, []).

Definition shell_side (D : Params) : Fluid :=
  if String.eqb (allocation D) "hot_shell" then hot D else cold D.

Definition tube_side (D : Params) : Fluid :=
  if String.eqb (allocation D) "hot_shell" then cold D else hot D.

Lemma calculateSTHX_modes E inputData :
  calculateSTHX E inputData =
  let D := fst (allocated inputData) in
  let logs := snd (allocated inputData) in
  if String.eqb (mode D) "design"
  then runDesignIteration E (shell_side D) (tube_side D) D logs
  else runRatingCalculation E (shell_side D) (tube_side D) D logs.
Proof.
  unfold calculateSTHX, allocated, shell_side, tube_side.
  destruct (String.eqb (allocation_mode (merge_defaults inputData)) "auto").
  - destruct (auto_allocation (merge_defaults inputData)) as [a reason].
    cbn [fst snd].
    destruct (String.eqb (allocation (with_allocation _ a)) "hot_shell");
      reflexivity.
  - cbn [fst snd].
    destruct (String.eqb (allocation (merge_defaults inputData)) "hot_shell");
      reflexivity.
Qed.

Definition is_iter (l : log_line) : bool :=
  match l with
  | LogIter _ _ _ _ _ => true
  | _ => false
  end.

(** The number of per-iteration lines of a log. *)
Definition iterations (logs : list log_line) : nat :=
  length (List.filter is_iter logs).

Section Loop.

Variables (E : Engine) (ShellFluid TubeFluid : Fluid) (D : Params).
Variables (Q_ LMTD_ : float).

Definition trial_at (U : float) : trial :=
  design_trial E ShellFluid TubeFluid D Q_ LMTD_ U.

(** The damped update of line 376. *)
Definition next_guess (U : float) : float :=
  0.5 * U + 0.5 * tr_U_calc (trial_at U).

(** The guess the [n]-th pass starts from, counting from 0. *)
Fixpoint guess (U0 : float) (n : nat) : float :=
  match n with
  | O => U0
  | S n => guess (next_guess U0) n
  end.

(** The test of line 367. *)
Definition stops (U : float) : bool :=
  Math_abs (tr_error (trial_at U)) <? 0.1.

(** The lines of the passes [0 .. n-1], numbered from [i + 1]. *)
Fixpoint lines (i : nat) (U0 : float) (n : nat) : list log_line :=
  match n with
  | O => []
  | S n => iter_log i U0 (trial_at U0) :: lines (S i) (next_guess U0) n
  end.

Lemma guess_succ U0 n : guess U0 (S n) = next_guess (guess U0 n).
Proof.
  revert U0. induction n as [|n IH]; intros U0; [reflexivity|].
  change (guess U0 (S (S n))) with (guess (next_guess U0) (S n)).
  rewrite IH. reflexivity.
Qed.

Lemma lines_length i U0 n : length (lines i U0 n) = n.
Proof.
  revert i U0. induction n as [|n IH]; intros; simpl; [|rewrite IH]; auto.
Qed.

Lemma lines_nth i U0 n j :
  (j < n)%nat ->
  nth_error (lines i U0 n) j
  = Some (iter_log (i + j) (guess U0 j) (trial_at (guess U0 j))).
Proof.
  revert i U0 j. induction n as [|n IH]; intros i U0 j Hj; [lia|].
  destruct j as [|j]; simpl.
  - now rewrite Nat.add_0_r.
  - rewrite IH by lia. now rewrite Nat.add_succ_r.
Qed.

Lemma lines_all_iter i U0 n : iterations (lines i U0 n) = n.
Proof.
  unfold iterations. revert i U0.
  induction n as [|n IH]; intros; simpl; [|rewrite IH]; auto.
Qed.

(** The loop, pass by pass: it runs [n <= fuel] passes, logs one line for
    each, and either the last of them passes the test and its rating is
    the result, or all [fuel] passes fail it. *)
Lemma design_loop_trace fuel : forall i U0 logs,
  exists n,
    (n <= fuel)%nat /\
    (forall j, (S j < n)%nat -> stops (guess U0 j) = false) /\
    snd (design_loop E ShellFluid TubeFluid D Q_ LMTD_ fuel i U0 logs)
    = logs ++ lines i U0 n /\
    match fst (design_loop E ShellFluid TubeFluid D Q_ LMTD_ fuel i U0 logs)
    with
    | Some r =>
        exists k, n = S k /\ stops (guess U0 k) = true /\
                  r = tr_rating (trial_at (guess U0 k))
    | None =>
        n = fuel /\ forall j, (j < fuel)%nat -> stops (guess U0 j) = false
    end.
Proof.
  induction fuel as [|fuel IH]; intros i U0 logs.
  - exists 0%nat. simpl. rewrite app_nil_r.
    repeat split; auto; intros; lia.
  - cbn [design_loop]. fold (trial_at U0).
    destruct (Math_abs (tr_error (trial_at U0)) <? 0.1) eqn:Hstop.
    + exists 1%nat. cbn [fst snd lines].
      split; [lia|]. split; [intros j Hj; lia|]. split; [reflexivity|].
      exists 0%nat. auto.
    + destruct (IH (S i) (0.5 * U0 + 0.5 * tr_U_calc (trial_at U0))
                  (logs ++ [iter_log i U0 (trial_at U0)]))
        as (n & Hn & Hbefore & Hlogs & Hres).
      fold (next_guess U0) in *.
      exists (S n). split; [lia|]. split; [|split].
      * intros [|j] Hj; [exact Hstop|]. apply (Hbefore j). lia.
      * rewrite Hlogs, <- app_assoc. reflexivity.
      * destruct (fst (design_loop _ _ _ _ _ _ fuel _ _ _)) as [r|].
        -- destruct Hres as (k & -> & Hk & ->). exists (S k). auto.
        -- destruct Hres as (-> & Hall). split; [reflexivity|].
           intros [|j] Hj; [exact Hstop|]. apply (Hall j). lia.
Qed.

End Loop.

Lemma iterations_app l1 l2 :
  iterations (l1 ++ l2) = (iterations l1 + iterations l2)%nat.
Proof. unfold iterations. now rewrite List.filter_app, length_app. Qed.

Lemma iterations_design_log E Sh Tu D Q_ LMTD_ logs0 i U0 n :
  iterations (logs0 ++ LogStartDesign :: lines E Sh Tu D Q_ LMTD_ i U0 n)
  = (iterations logs0 + n)%nat.
Proof.
  rewrite iterations_app.
  change (LogStartDesign :: ?l) with ([LogStartDesign] ++ l).
  rewrite iterations_app, lines_all_iter. reflexivity.
Qed.

Lemma iterations_exhausted_log E Sh Tu D Q_ LMTD_ logs0 i U0 n :
  iterations (logs0 ++ LogStartDesign
                :: lines E Sh Tu D Q_ LMTD_ i U0 n ++ [LogMaxIterations])
  = (iterations logs0 + n)%nat.
Proof.
  rewrite iterations_app. f_equal.
  change (LogStartDesign :: ?l ++ ?l')
    with ([LogStartDesign] ++ l ++ l').
  rewrite !iterations_app, lines_all_iter. unfold iterations. simpl. lia.
Qed.

(** What [runDesignIteration] fixes before the loop. *)
Definition first_guess (D : Params) : float := js_or (U_guess D) 500.

Definition loop_LMTD (E : Engine) (D : Params) : float :=
  LMTD_of (calculateLMTD E (hot D) (cold D) (tube_passes D)).

Lemma runDesignIteration_cases E Sh Tu D logs0 :
  truthy (calculateDuty Sh Tu) = true ->
  exists n,
    (1 <= n <= MaxIter)%nat /\
    (forall j, (S j < n)%nat ->
       stops E Sh Tu D (calculateDuty Sh Tu) (loop_LMTD E D)
         (guess E Sh Tu D (calculateDuty Sh Tu) (loop_LMTD E D)
            (first_guess D) j) = false) /\
    ((stops E Sh Tu D (calculateDuty Sh Tu) (loop_LMTD E D)
        (guess E Sh Tu D (calculateDuty Sh Tu) (loop_LMTD E D)
           (first_guess D) (n - 1)) = true /\
      runDesignIteration E Sh Tu D logs0 =
      Design
        (tr_rating
           (trial_at E Sh Tu D (calculateDuty Sh Tu) (loop_LMTD E D)
              (guess E Sh Tu D (calculateDuty Sh Tu) (loop_LMTD E D)
                 (first_guess D) (n - 1))))
        (Some true)
        (logs0 ++ LogStartDesign
           :: lines E Sh Tu D (calculateDuty Sh Tu) (loop_LMTD E D) 0
                (first_guess D) n))
     \/
     (n = MaxIter /\
      (forall j, (j < MaxIter)%nat ->
         stops E Sh Tu D (calculateDuty Sh Tu) (loop_LMTD E D)
           (guess E Sh Tu D (calculateDuty Sh Tu) (loop_LMTD E D)
              (first_guess D) j) = false) /\
      runDesignIteration E Sh Tu D logs0 =
      Design (performKernRating E Sh Tu (with_shell D 0.6 200)) (Some false)
        (logs0 ++ LogStartDesign
           :: lines E Sh Tu D (calculateDuty Sh Tu) (loop_LMTD E D) 0
                (first_guess D) MaxIter ++ [LogMaxIterations]))).
Proof.
  intros HQ. unfold runDesignIteration. rewrite HQ. cbn [negb].
  fold (loop_LMTD E D). fold (first_guess D).
  destruct (design_loop_trace E Sh Tu D (calculateDuty Sh Tu) (loop_LMTD E D)
              MaxIter 0 (first_guess D) (logs0 ++ [LogStartDesign]))
    as (n & Hn & Hbefore & Hlogs & Hres).
  destruct (design_loop E Sh Tu D (calculateDuty Sh Tu) (loop_LMTD E D)
              MaxIter 0 (first_guess D) (logs0 ++ [LogStartDesign]))
    as [[r|] logs'] eqn:Hloop; cbn [fst snd] in Hlogs, Hres.
  - destruct Hres as (k & -> & Hk & ->).
    exists (S k). split; [lia|]. split; [exact Hbefore|]. left.
    replace (S k - 1)%nat with k by lia. split; [exact Hk|].
    rewrite Hlogs, <- app_assoc. reflexivity.
  - destruct Hres as (-> & Hall).
    exists MaxIter. split; [unfold MaxIter; lia|]. split; [exact Hbefore|].
    right. split; [reflexivity|]. split; [exact Hall|].
    rewrite Hlogs, <- !app_assoc. reflexivity.
Qed.

(** *** Concrete calls *)

Definition hot_water : Fluid :=
  {| fluid_m := 7.2; fluid_rho := 997; fluid_mu := 0.00089;
     fluid_cp := 4180; fluid_k := 0.607; fluid_Tin := 80; fluid_Tout := 50;
     fluid_P := 1; fluid_fouling := 0.0001 |}.

Definition cold_water : Fluid :=
  {| fluid_m := 10.8; fluid_rho := 997; fluid_mu := 0.00089;
     fluid_cp := 4180; fluid_k := 0.607; fluid_Tin := 20; fluid_Tout := 40;
     fluid_P := 1; fluid_fouling := 0.0001 |}.

(** Design mode, hot water in the shell, 3/4 inch tubes on a 23.8 mm
    triangular pitch, with the starting guess [U]. *)
Definition design_input (U : float) : InputData :=
  {| in_hot := hot_water; in_cold := cold_water;
     in_allocation_mode := "manual"; in_allocation := "hot_shell";
     in_mode := "design";
     in_U_guess := Some U; in_tube_length := None; in_tube_passes := None;
     in_tube_od := 0.01905; in_tube_id := 0.01575; in_tube_pitch := 0.0238;
     in_pitch_type := "triangular";
     in_shell_ID := nan; in_total_tubes := nan;
     in_baffle_spacing := nan; in_baffles_n := nan;
     in_Rf_t := nan; in_Rf_s := nan |}.

(** The calls of [calculateSTHX] in design mode. *)
Definition D_of (i : InputData) : Params := fst (allocated i).

Definition duty_of (i : InputData) : float :=
  calculateDuty (shell_side (D_of i)) (tube_side (D_of i)).

(** No pass of the loop meets the convergence test. *)
Definition exhausted (E : Engine) (i : InputData) : Prop :=
  forall j, (j < MaxIter)%nat ->
    stops E (shell_side (D_of i)) (tube_side (D_of i)) (D_of i)
      (duty_of i) (loop_LMTD E (D_of i))
      (guess E (shell_side (D_of i)) (tube_side (D_of i)) (D_of i)
         (duty_of i) (loop_LMTD E (D_of i)) (first_guess (D_of i)) j)
    = false.

Lemma allocated_logs i :
  iterations (snd (allocated i)) = 0%nat /\
  (length (snd (allocated i)) <= 1)%nat.
Proof.
  unfold allocated.
  destruct (String.eqb (allocation_mode (merge_defaults i)) "auto");
    simpl; split; auto.
Qed.

(** A starting guess of [1e10] halves at every pass and is still far from
    the rated value after 20 passes. *)
Definition far_guess : float := 1e10.

(** *** The shell catalog *)

Lemma find_none {A : Type} (f : A -> bool) (l : list A) :
  (forall x, In x l -> f x = false) -> List.find f l = None.
Proof.
  induction l as [|a l IH]; intros H; [reflexivity|].
  simpl. rewrite (H a) by (left; reflexivity).
  apply IH. intros x Hx. apply H. right. exact Hx.
Qed.

Lemma largest_shell_value : largest_shell = 60 * 0.0254 /\ largest_shell = 1.524.
Proof. split; reflexivity. Qed.

(** An estimate above every catalog entry selects the last entry. *)
Lemma select_shell_oversize Ds_est :
  (forall s, In s TEMA_shells -> (s <? Ds_est) = true) ->
  select_shell Ds_est = largest_shell.
Proof.
  intros H. unfold select_shell.
  rewrite find_none; [reflexivity|].
  intros s Hs. apply ltb_not_leb, H, Hs.
Qed.

(** The first line a run of the loop logs is the line of its first pass. *)
Lemma design_loop_first_line E Sh Tu D Q_ LMTD_ fuel i U logs :
  exists rest,
    snd (design_loop E Sh Tu D Q_ LMTD_ (S fuel) i U logs)
    = logs ++ iter_log i U (trial_at E Sh Tu D Q_ LMTD_ U) :: rest.
Proof.
  destruct (design_loop_trace E Sh Tu D Q_ LMTD_ (S fuel) i U logs)
    as (n & _ & _ & Hlogs & Hres).
  rewrite Hlogs.
  assert (Hn : exists k, n = S k).
  { destruct (fst (design_loop _ _ _ _ _ _ _ _ _ _)).
    - destruct Hres as (k & -> & _). eauto.
    - destruct Hres as (-> & _). eauto. }
  destruct Hn as (k & ->). cbn [lines]. eauto.
Qed.

(** C10: in a pass whose estimated shell diameter exceeds every entry of
    the TEMA catalog, the shell used is the largest entry,
    [60 * 0.0254 = 1.524] m: the pass is rated on it and logs its ordinary
    line ([Shell=1524mm]), with no error and no mention of the overflow. *)
Theorem oversize_estimate_takes_largest_shell
  E Sh Tu D Q_ LMTD_ U fuel i logs :
  (forall s, In s TEMA_shells ->
     (s <? tr_Ds_est (trial_at E Sh Tu D Q_ LMTD_ U)) = true) ->
  tr_Ds_std (trial_at E Sh Tu D Q_ LMTD_ U) = 60 * 0.0254 /\
  tr_Ds_std (trial_at E Sh Tu D Q_ LMTD_ U) = 1.524 /\
  geo_Ds (Geometry (tr_rating (trial_at E Sh Tu D Q_ LMTD_ U))) = 1.524 /\
  exists rest,
    snd (design_loop E Sh Tu D Q_ LMTD_ (S fuel) i U logs)
    = logs
      ++ LogIter (i + 1) U (1.524 * 1000)
           (tr_U_calc (trial_at E Sh Tu D Q_ LMTD_ U))
           (tr_error (trial_at E Sh Tu D Q_ LMTD_ U) * 100)
      :: rest.
Proof.
  intros H.
  assert (Hstd : tr_Ds_std (trial_at E Sh Tu D Q_ LMTD_ U) = 1.524).
  { unfold trial_at, design_trial in *. cbn [tr_Ds_std tr_Ds_est] in *.
    rewrite (select_shell_oversize _ H). reflexivity. }
  split; [rewrite Hstd; reflexivity|]. split; [exact Hstd|]. split.
  - unfold trial_at, design_trial in *. cbn [tr_Ds_std tr_rating] in *.
    unfold performKernRating. cbn [Geometry geo_Ds with_shell_baffle shell_ID].
    exact Hstd.
  - destruct (design_loop_first_line E Sh Tu D Q_ LMTD_ fuel i U logs)
      as (rest & Hrest).
    exists rest. rewrite Hrest. unfold iter_log. rewrite Hstd. reflexivity.
Qed.

(** With the guess 5 the first estimate is about 4.8 m. *)
Lemma oversize_estimate_takes_largest_shell_guess_5 :
  (forall s, In s TEMA_shells ->
     (s <? tr_Ds_est
             (trial_at RefEngine.engine hot_water cold_water
                (merge_defaults (design_input 5))
                (calculateDuty hot_water cold_water)
                (loop_LMTD RefEngine.engine (merge_defaults (design_input 5)))
                5)) = true) /\
  tr_Ds_std
    (trial_at RefEngine.engine hot_water cold_water
       (merge_defaults (design_input 5))
       (calculateDuty hot_water cold_water)
       (loop_LMTD RefEngine.engine (merge_defaults (design_input 5))) 5)
  = 1.524.
Proof.
  assert (H : forall s, In s TEMA_shells ->
     (s <? tr_Ds_est
             (trial_at RefEngine.engine hot_water cold_water
                (merge_defaults (design_input 5))
                (calculateDuty hot_water cold_water)
                (loop_LMTD RefEngine.engine (merge_defaults (design_input 5)))
                5)) = true).
  { intros s Hs. vm_compute in Hs.
    repeat (destruct Hs as [<-|Hs]; [vm_compute; reflexivity|]).
    contradiction. }
  split; [exact H|].
  apply (oversize_estimate_takes_largest_shell RefEngine.engine
           hot_water cold_water (merge_defaults (design_input 5))
           (calculateDuty hot_water cold_water)
           (loop_LMTD RefEngine.engine (merge_defaults (design_input 5)))
           5 19 0 [] H).
Defined.

End STHXFacts.

(** ** Validation, missing data and exceptions across the calculators *)

Module EntryFacts.

Import JS Arg FloatFacts.
Local Open Scope float_scope.

(** *** A returned double-pipe design has no NaN where it was compared *)

Definition best_finite (st : DPHX.search_state) : Prop :=
  match DPHX.best_design st with
  | Some b =>
      DPHX.min_cost_metric st = DPHX.A_req b /\
      (DPHX.A_req b <? infinity) = true
  | None => DPHX.min_cost_metric st = infinity
  end.

Lemma best_finite_step E p t max_dp st pr :
  best_finite st -> best_finite (DPHX.search_step E p t max_dp st pr).
Proof.
  intros H. unfold DPHX.search_step. destruct pr as [inner outer].
  destruct (negb (DPHX.clearance_ok inner outer)); [exact H|].
  cbv zeta.
  destruct (DPHX.velocity_ok _ && DPHX.dp_ok max_dp _); [|exact H].
  destruct (DPHX.A_req _ <? DPHX.min_cost_metric st) eqn:Hlt; [|exact H].
  unfold best_finite in *. cbn [DPHX.best_design DPHX.min_cost_metric].
  split; [reflexivity|].
  destruct (DPHX.best_design st) as [b|].
  - destruct H as [Hm Hb]. rewrite Hm in Hlt.
    exact (ltb_trans _ _ _ Hlt Hb).
  - rewrite H in Hlt. exact Hlt.
Qed.

Lemma best_finite_fold E p t max_dp l : forall st,
  best_finite st ->
  best_finite (fold_left (DPHX.search_step E p t max_dp) l st).
Proof.
  induction l as [|pr l IH]; intros st H; [exact H|].
  simpl. apply IH, best_finite_step, H.
Qed.

Lemma best_finite_some st b :
  best_finite st -> DPHX.best_design st = Some b ->
  (DPHX.A_req b <? infinity) = true.
Proof. unfold best_finite. intros H Hb. rewrite Hb in H. apply H. Qed.

Lemma search_best_is_finite E p t max_dp b :
  DPHX.best_design (DPHX.search E p t max_dp) = Some b ->
  (DPHX.A_req b <? infinity) = true.
Proof.
  apply best_finite_some. unfold DPHX.search.
  apply best_finite_fold. unfold best_finite. reflexivity.
Qed.

Lemma success_is_object E data b logs :
  DPHX.calculateDPHX E data = Normal (DPHX.Success b logs) ->
  exists fields, data = ArgObject fields.
Proof.
  destruct data as [| |fields]; [discriminate|discriminate|eauto].
Qed.

(** *** Rating without validation *)



(** *** Missing thermal data *)

(** Both mass flows and both inlet temperatures, no outlet temperature:
    the duty cannot be computed. *)
Definition no_outlet_temps_fields : gmap string prim :=
  list_to_map (DPHXFacts.water 2 2.5).

Definition no_outlet_temps : arg := ArgObject no_outlet_temps_fields.

Lemma no_outlet_temps_reaches E :
  exists t,
    DPHXFacts.reaches_search E no_outlet_temps
      (DPHXFacts.parsed E no_outlet_temps_fields) t 70000.
Proof.
  destruct (DPHX.energy_balance E
              (DPHXFacts.parsed E no_outlet_temps_fields)) as [e|t] eqn:Hb.
  - vm_compute in Hb. discriminate Hb.
  - exists t, no_outlet_temps_fields.
    split; [reflexivity|]. split; [reflexivity|]. split; [exact Hb|].
    vm_compute. reflexivity.
Qed.

(** A stream with no temperatures. *)
Definition no_temps (m_ : float) : STHX.Fluid :=
  {| STHX.fluid_m := m_; STHX.fluid_rho := 997; STHX.fluid_mu := 0.00089;
     STHX.fluid_cp := 4180; STHX.fluid_k := 0.607;
     STHX.fluid_Tin := nan; STHX.fluid_Tout := nan;
     STHX.fluid_P := 1; STHX.fluid_fouling := 0.0001 |}.

Definition no_temps_design : STHX.InputData :=
  {| STHX.in_hot := no_temps 7.2; STHX.in_cold := no_temps 10.8;
     STHX.in_allocation_mode := "manual";
     STHX.in_allocation := "hot_shell";
     STHX.in_mode := "design";
     STHX.in_U_guess := None; STHX.in_tube_length := None;
     STHX.in_tube_passes := None;
     STHX.in_tube_od := 0.01905; STHX.in_tube_id := 0.01575;
     STHX.in_tube_pitch := 0.0238; STHX.in_pitch_type := "triangular";
     STHX.in_shell_ID := nan; STHX.in_total_tubes := nan;
     STHX.in_baffle_spacing := nan; STHX.in_baffles_n := nan;
     STHX.in_Rf_t := nan; STHX.in_Rf_s := nan |}.

(** A design-mode call with a truthy duty returns a design and has run at
    least one pass. *)
Lemma design_mode_runs E i :
  String.eqb (STHX.mode (STHXFacts.D_of i)) "design" = true ->
  truthy (STHXFacts.duty_of i) = true ->
  exists r c logs,
    STHX.calculateSTHX E i = STHX.Design r (Some c) logs /\
    (1 <= STHXFacts.iterations logs <= 20)%nat.
Proof.
  intros Hmode HQ. rewrite STHXFacts.calculateSTHX_modes. cbv zeta.
  fold (STHXFacts.D_of i). rewrite Hmode.
  destruct (STHXFacts.runDesignIteration_cases E
              (STHXFacts.shell_side (STHXFacts.D_of i))
              (STHXFacts.tube_side (STHXFacts.D_of i)) (STHXFacts.D_of i)
              (snd (STHXFacts.allocated i)) HQ)
    as (n & Hn & _ & [(_ & Hrun)|(-> & _ & Hrun)]);
    rewrite Hrun; eexists; eexists; eexists; (split; [reflexivity|]);
    destruct (STHXFacts.allocated_logs i) as [H0 _]; unfold STHX.MaxIter in *.
  - rewrite STHXFacts.iterations_design_log, H0. lia.
  - rewrite STHXFacts.iterations_exhausted_log, H0. lia.
Qed.

(** C5, on the code: with no outlet temperature the double-pipe optimizer
    does not fail before the search, it runs it (38 log lines are
    returned); with no temperature at all [calculateDuty] returns its
    100 kW placeholder and the shell-and-tube design loop runs. *)
Theorem missing_duty_is_not_rejected E :
  (exists r l,
      DPHX.calculateDPHX E no_outlet_temps = Normal r /\
      DPHXFacts.logs_of r = Some l /\ length l = 38%nat) /\
  STHX.calculateDuty (no_temps 7.2) (no_temps 10.8) = 100000 /\
  (exists r c logs,
      STHX.calculateSTHX E no_temps_design = STHX.Design r (Some c) logs /\
      (1 <= STHXFacts.iterations logs <= 20)%nat).
Proof.
  split; [|split].
  - destruct (no_outlet_temps_reaches E) as (t & Hr).
    rewrite (DPHXFacts.calculateDPHX_reaches _ _ _ _ _ Hr).
    eexists. eexists. split; [reflexivity|].
    split; [apply DPHXFacts.finish_logs|].
    rewrite DPHXFacts.search_logs, length_map.
    apply DPHXFacts.trials_length.
  - vm_compute. reflexivity.
  - apply design_mode_runs; [reflexivity|vm_compute; reflexivity].
Qed.

(** *** Equal temperature differences *)

Definition hot_80_60 : STHX.Fluid :=
  {| STHX.fluid_m := 2; STHX.fluid_rho := 997; STHX.fluid_mu := 0.00089;
     STHX.fluid_cp := 4180; STHX.fluid_k := 0.607;
     STHX.fluid_Tin := 80; STHX.fluid_Tout := 60;
     STHX.fluid_P := 1; STHX.fluid_fouling := 0.0001 |}.

Definition cold_40_60 : STHX.Fluid :=
  {| STHX.fluid_m := 2; STHX.fluid_rho := 997; STHX.fluid_mu := 0.00089;
     STHX.fluid_cp := 4180; STHX.fluid_k := 0.607;
     STHX.fluid_Tin := 40; STHX.fluid_Tout := 60;
     STHX.fluid_P := 1; STHX.fluid_fouling := 0.0001 |}.

(** C6, on the code: with [dT1 = dT2 = 20] (hot 80 to 60, cold 40 to 60,
    counter-current) the two double-pipe calculators return an LMTD of 20,
    and both shell-and-tube calculators compute [0 / log 1 = 0 / 0], a
    NaN, on every engine. *)
Theorem equal_differences_lmtd E passes :
  DPHX.lmtd_of E 1 80 40 60 60 = inr 20 /\
  DPHXv2.lmtd_of E 1 80 40 60 60 = inr 20 /\
  is_nan (STHX.LMTD_of (STHX.calculateLMTD E hot_80_60 cold_40_60 passes))
  = true /\
  (exists x, STHXBasic.lmtd_of E 80 40 60 60 = inr x /\ is_nan x = true).
Proof.
  split; [vm_compute; reflexivity|].
  split; [vm_compute; reflexivity|].
  split; [vm_compute; reflexivity|].
  eexists. split; vm_compute; reflexivity.
Qed.

(** *** Exceptions *)

Lemma try_catch_returns {R : Type} (on_error : string -> R) body :
  exists r, try_catch on_error body = Normal r.
Proof. destruct body; simpl; eauto. Qed.

End EntryFacts.

(** ** NaN in binary64 arithmetic *)

Module FloatNaN.

Local Open Scope float_scope.

Lemma SFcompare_refl a : a <> S754_nan -> SFcompare a a = Some Eq.
Proof.
  destruct a as [[]|[]| |[] m e]; simpl; intros H; try reflexivity;
    try (now contradiction H);
    rewrite Z.compare_refl;
    change (Pos.compare_cont Eq m m) with (Pos.compare m m);
    now rewrite Pos.compare_refl.
Qed.

Lemma is_nan_spec x : is_nan x = true <-> Prim2SF x = S754_nan.
Proof.
  unfold is_nan. rewrite FloatAxioms.eqb_spec. unfold SFeqb. split.
  - intros H. destruct (Prim2SF x) eqn:Hx; try reflexivity;
      rewrite SFcompare_refl in H by discriminate; discriminate.
  - intros ->. reflexivity.
Qed.

Lemma is_nan_mul_l x y : is_nan x = true -> is_nan (x * y) = true.
Proof.
  rewrite !is_nan_spec, mul_spec. intros ->. reflexivity.
Qed.

Lemma is_nan_mul_r x y : is_nan y = true -> is_nan (x * y) = true.
Proof.
  rewrite !is_nan_spec, mul_spec. intros ->.
  now destruct (Prim2SF x) as [[]|[]| |[] m e].
Qed.

Lemma is_nan_div_l x y : is_nan x = true -> is_nan (x / y) = true.
Proof.
  rewrite !is_nan_spec, div_spec. intros ->. reflexivity.
Qed.

Lemma is_nan_div_r x y : is_nan y = true -> is_nan (x / y) = true.
Proof.
  rewrite !is_nan_spec, div_spec. intros ->.
  now destruct (Prim2SF x) as [[]|[]| |[] m e].
Qed.

Lemma is_nan_sub_r x y : is_nan y = true -> is_nan (x - y) = true.
Proof.
  rewrite !is_nan_spec, sub_spec. intros ->.
  now destruct (Prim2SF x) as [[]|[]| |[] m e].
Qed.

(** No comparison holds of a NaN. *)
Lemma ltb_nan_l x y : is_nan x = true -> (x <? y) = false.
Proof.
  intros H. destruct (x <? y) eqn:Hlt; [|reflexivity].
  apply FloatFacts.ltb_not_nan in Hlt as [Hx _]. congruence.
Qed.

End FloatNaN.

(** ** More on the double-pipe optimizer *)

Module DPHXExtra.

Import JS Arg DPHX DPHXFacts FloatFacts FloatNaN.
Local Open Scope float_scope.

(** The candidates are the ratings of the cleared pairs. *)
Lemma trials_in E p t d :
  In d (trials E p t) ->
  exists inner outer,
    In (inner, outer) (pairs STANDARD_PIPES) /\
    clearance_ok inner outer = true /\
    d = rate E p t inner outer.
Proof.
  unfold trials, trials_of. intros H.
  apply in_map_iff in H as ([inner outer] & <- & H).
  apply filter_In in H as [Hin Hc]. exists inner, outer. auto.
Qed.

(** What a success tells about the call. *)
Lemma success_inversion E data b l :
  calculateDPHX E data = Normal (Success b l) ->
  exists fields t,
    data = ArgObject fields /\
    energy_balance E (parsed E fields) = inr t /\
    In b (trials E (parsed E fields) t) /\
    feasible (max_dp_of E fields) b = true /\
    l = map log_of (trials E (parsed E fields) t).
Proof.
  destruct data as [| |fields]; [discriminate|discriminate|].
  rewrite calculateDPHX_object.
  destruct (energy_balance E (parsed E fields)) as [e|t] eqn:Hb;
    [discriminate|].
  pose proof (search_inv_final E (parsed E fields) t (max_dp_of E fields))
    as [Hlogs Hbest].
  remember (search E (parsed E fields) t (max_dp_of E fields)) as st.
  clear Heqst.
  unfold finish. destruct (best_design st) as [b'|]; [|discriminate].
  intros H. assert (b' = b) as -> by congruence.
  assert (logs st = l) as <- by congruence.
  destruct Hbest as (_ & Hfb & (pre & post & Hsplit & _) & _).
  exists fields, t. split; [reflexivity|]. split; [exact Hb|].
  split; [rewrite Hsplit; apply in_elt|]. split; [exact Hfb|exact Hlogs].
Qed.

Lemma pairs_are_ordered inner outer :
  In (inner, outer) (pairs STANDARD_PIPES) ->
  In inner STANDARD_PIPES /\ In outer STANDARD_PIPES /\
  (pipe_od inner <? pipe_od outer) = true /\
  (pipe_id inner <? pipe_id outer) = true.
Proof.
  intros H.
  assert (Hall : forallb
            (fun pr =>
               (pipe_od (fst pr) <? pipe_od (snd pr))
               && (pipe_id (fst pr) <? pipe_id (snd pr)))
            (pairs STANDARD_PIPES) = true) by (vm_compute; reflexivity).
  rewrite forallb_forall in Hall. specialize (Hall _ H). cbn [fst snd] in Hall.
  apply andb_prop in Hall as [Hod Hid].
  assert (Hmem : forall l, In (inner, outer) (pairs l) ->
                           In inner l /\ In outer l).
  { clear. induction l as [|q l IH]; simpl; [tauto|].
    intros H. apply in_app_or in H as [H|H].
    - apply in_map_iff in H as (x & Hx & Hin). injection Hx as <- <-. auto.
    - destruct (IH H). auto. }
  destruct (Hmem _ H). auto.
Qed.

(** X1: a returned design is made of two pipes of the catalog, the inner
    one before the outer one and smaller in both diameters, with at least
    5 mm between them, and its own trial is one of the logged lines. *)
Theorem returned_design_is_a_cleared_catalog_pair E data b l :
  calculateDPHX E data = Normal (Success b l) ->
  In (inner_pipe b, outer_pipe b) (pairs STANDARD_PIPES) /\
  In (inner_pipe b) STANDARD_PIPES /\ In (outer_pipe b) STANDARD_PIPES /\
  (pipe_od (inner_pipe b) <? pipe_od (outer_pipe b)) = true /\
  (pipe_id (inner_pipe b) <? pipe_id (outer_pipe b)) = true /\
  (pipe_id (outer_pipe b) - pipe_od (inner_pipe b) <? 0.005) = false /\
  In (log_of b) l.
Proof.
  intros H.
  destruct (success_inversion _ _ _ _ H) as (fields & t & _ & _ & Hin & _ & ->).
  destruct (trials_in _ _ _ _ Hin) as (inner & outer & Hpair & Hc & Hd).
  assert (Hi : inner_pipe b = inner) by (rewrite Hd; reflexivity).
  assert (Ho : outer_pipe b = outer) by (rewrite Hd; reflexivity).
  rewrite Hi, Ho.
  destruct (pairs_are_ordered _ _ Hpair) as (? & ? & ? & ?).
  repeat (split; [assumption|]). split.
  - unfold clearance_ok in Hc. now apply negb_true_iff in Hc.
  - apply in_map. exact Hin.
Qed.

Lemma returned_design_is_a_cleared_catalog_pair_scenarioA :
  exists b l,
    calculateDPHX RefEngine.engine scenarioA = Normal (Success b l) /\
    In (inner_pipe b) STANDARD_PIPES /\ In (outer_pipe b) STANDARD_PIPES /\
    (pipe_od (inner_pipe b) <? pipe_od (outer_pipe b)) = true /\
    In (log_of b) l.
Proof.
  pose proof scenarioA_runs as Hc. unfold scenarioA_result in Hc.
  eexists. eexists. split; [exact Hc|].
  destruct (returned_design_is_a_cleared_catalog_pair _ _ _ _ Hc)
    as (_ & H1 & H2 & H3 & _ & _ & H4).
  auto.
Defined.

(** The messages of the validation of sections 1 and 2. *)
Definition validation_errors : list string :=
  [err_no_mass_flow; err_need_temps; err_mismatch; err_temp_cross; err_lmtd].

Lemma with_lmtd_errors E p m_h_ m_c_ T_h_out_ T_c_out_ Q_ e :
  with_lmtd E p m_h_ m_c_ T_h_out_ T_c_out_ Q_ = inl e ->
  In e validation_errors.
Proof.
  unfold with_lmtd, lmtd_of.
  repeat match goal with
         | |- context [if ?c then _ else _] => destruct c
         end;
    intros H; try discriminate H; injection H as <-;
    unfold validation_errors; simpl; tauto.
Qed.

Lemma energy_balance_errors E p e :
  energy_balance E p = inl e -> In e validation_errors.
Proof.
  unfold energy_balance.
  repeat match goal with
         | |- context [if ?c then _ else _] => destruct c
         end;
    try apply with_lmtd_errors;
    intros H; injection H as <-; unfold validation_errors; simpl; tauto.
Qed.

(** X2: for an object argument the function returns one of three shapes:
    a validation error (one of five messages, no log), the
    no-feasible-design error with the full log, or a design with the full
    log; it throws nothing. *)
Theorem result_shapes E fields :
  match calculateDPHX E (ArgObject fields) with
  | Normal (Error e) => In e validation_errors
  | Normal (ErrorWithLogs e l) => e = err_no_feasible /\ length l = 38%nat
  | Normal (Success b l) => length l = 38%nat
  | Throw _ => False
  end.
Proof.
  rewrite calculateDPHX_object.
  destruct (energy_balance E (parsed E fields)) as [e|t] eqn:Hb.
  - apply (energy_balance_errors _ _ _ Hb).
  - pose proof (search_logs E (parsed E fields) t (max_dp_of E fields))
      as Hlogs.
    pose proof (trials_length E (parsed E fields) t) as Hlen.
    remember (search E (parsed E fields) t (max_dp_of E fields)) as st.
    clear Heqst. unfold finish.
    destruct (best_design st);
      rewrite Hlogs, length_map, Hlen; auto.
Qed.

Lemma parsed_ignores_the_limit E fields v :
  parsed E (<["allowable_dp_inner" := v]> fields) = parsed E fields.
Proof.
  unfold parsed. rewrite !field_insert_other by discriminate. reflexivity.
Qed.

(** X3: the trial log does not depend on the pressure-drop limit: two
    calls that differ only in [allowable_dp_inner] fail validation with
    the same error or return the same log. *)
Theorem trial_log_ignores_the_limit E fields v :
  exists r1 r2,
    calculateDPHX E (ArgObject (<["allowable_dp_inner" := v]> fields))
    = Normal r1 /\
    calculateDPHX E (ArgObject fields) = Normal r2 /\
    logs_of r1 = logs_of r2 /\
    (forall e, r1 = Error e <-> r2 = Error e).
Proof.
  rewrite !calculateDPHX_object, parsed_ignores_the_limit.
  destruct (energy_balance E (parsed E fields)) as [e|t].
  - eexists. eexists. split; [reflexivity|]. split; [reflexivity|].
    split; reflexivity.
  - eexists. eexists. split; [reflexivity|]. split; [reflexivity|].
    rewrite !finish_logs, !search_logs. split; [reflexivity|].
    intros e. unfold finish.
    split; intros H;
      repeat match type of H with
             | context [best_design ?s] =>
                 remember (best_design s) as o eqn:Ho; clear Ho; destruct o
             end; discriminate H.
Qed.

(** The values of an outlet-temperature field that [||] replaces by the
    sentinel [-1], and the sentinel itself. *)
Definition reads_as_missing : list prim :=
  [PUndefined; PNull; PBool false; PStr ""; PNum 0; PNum (-0); PNum nan;
   PNum (-1)].

Lemma missing_parses_to_sentinel E v :
  In v reads_as_missing -> parseFloat E (prim_or v (PNum (-1))) = -1.
Proof.
  unfold reads_as_missing. simpl.
  intros H; repeat destruct H as [<-|H]; try reflexivity; contradiction.
Qed.

Lemma field_insert_same fields key v : field (<[key := v]> fields) key = v.
Proof. unfold field. now rewrite lookup_insert_eq. Qed.

Lemma field_delete_same fields key : field (delete key fields) key = PUndefined.
Proof. unfold field. now rewrite lookup_delete_eq. Qed.

Lemma field_delete_other fields key key' :
  key <> key' -> field (delete key fields) key' = field fields key'.
Proof. intros H. unfold field. now rewrite lookup_delete_ne. Qed.

(** X4: an outlet temperature given as the number 0 (or [-1], NaN, an
    empty string, [null], [false]) is read as not given: the call returns
    what it returns without the field. *)
Theorem zero_outlet_temperature_reads_as_missing E fields v :
  In v reads_as_missing ->
  calculateDPHX E (ArgObject (<["T_h_out" := v]> fields))
  = calculateDPHX E (ArgObject (delete "T_h_out" fields)) /\
  calculateDPHX E (ArgObject (<["T_c_out" := v]> fields))
  = calculateDPHX E (ArgObject (delete "T_c_out" fields)).
Proof.
  intros Hv. rewrite !calculateDPHX_object.
  assert (Hh : parsed E (<["T_h_out" := v]> fields)
               = parsed E (delete "T_h_out" fields)).
  { unfold parsed.
    rewrite field_insert_same, field_delete_same,
      (missing_parses_to_sentinel E v Hv).
    rewrite !field_insert_other, !field_delete_other by discriminate.
    reflexivity. }
  assert (Hc : parsed E (<["T_c_out" := v]> fields)
               = parsed E (delete "T_c_out" fields)).
  { unfold parsed.
    rewrite field_insert_same, field_delete_same,
      (missing_parses_to_sentinel E v Hv).
    rewrite !field_insert_other, !field_delete_other by discriminate.
    reflexivity. }
  assert (Hmh : max_dp_of E (<["T_h_out" := v]> fields)
                = max_dp_of E (delete "T_h_out" fields)).
  { unfold max_dp_of.
    now rewrite field_insert_other, field_delete_other by discriminate. }
  assert (Hmc : max_dp_of E (<["T_c_out" := v]> fields)
                = max_dp_of E (delete "T_c_out" fields)).
  { unfold max_dp_of.
    now rewrite field_insert_other, field_delete_other by discriminate. }
  rewrite Hh, Hc, Hmh, Hmc. split; reflexivity.
Qed.

(** Cooling to 0 degrees: the call is the one with no hot outlet
    temperature. *)
Lemma zero_outlet_temperature_reads_as_missing_scenarioA :
  In (PNum 0) reads_as_missing /\
  calculateDPHX RefEngine.engine
    (ArgObject (<["T_h_out" := PNum 0]> scenarioA_fields))
  = calculateDPHX RefEngine.engine
      (ArgObject (delete "T_h_out" scenarioA_fields)).
Proof.
  assert (H : In (PNum 0) reads_as_missing)
    by (unfold reads_as_missing; simpl; tauto).
  split; [exact H|].
  apply (zero_outlet_temperature_reads_as_missing RefEngine.engine
           scenarioA_fields (PNum 0) H).
Defined.

(** With a NaN duty or a NaN mean temperature difference every candidate
    has a NaN required area. *)
Lemma nan_duty_nan_area E p t inner outer :
  is_nan (th_Q t) = true \/ is_nan (th_LMTD t) = true ->
  is_nan (A_req (rate E p t inner outer)) = true.
Proof.
  intros [H|H]; unfold rate; cbn [A_req].
  - apply is_nan_div_l, H.
  - apply is_nan_div_r, is_nan_mul_r, H.
Qed.

(** X5: a duty or a mean temperature difference that is NaN (an inlet
    temperature left out, say) never yields a design: the search logs its
    38 trials and the call returns the no-feasible-design error. *)
Theorem nan_duty_yields_no_design E data p t max_dp :
  reaches_search E data p t max_dp ->
  is_nan (th_Q t) = true \/ is_nan (th_LMTD t) = true ->
  calculateDPHX E data
  = Normal (ErrorWithLogs err_no_feasible (map log_of (trials E p t))) /\
  length (trials E p t) = 38%nat.
Proof.
  intros Hr Hnan. split; [|apply trials_length].
  rewrite (calculateDPHX_reaches _ _ _ _ _ Hr).
  pose proof (search_inv_final E p t max_dp) as [Hlogs Hbest].
  pose proof (EntryFacts.search_best_is_finite E p t max_dp) as Hfin.
  remember (search E p t max_dp) as st. clear Heqst.
  unfold finish. rewrite Hlogs.
  destruct (best_design st) as [b|]; [|reflexivity].
  exfalso. specialize (Hfin b eq_refl).
  destruct Hbest as (_ & _ & (pre & post & Hsplit & _) & _).
  assert (Hin : In b (trials E p t)) by (rewrite Hsplit; apply in_elt).
  destruct (trials_in _ _ _ _ Hin) as (inner & outer & _ & _ & ->).
  rewrite ltb_nan_l in Hfin by (apply nan_duty_nan_area, Hnan).
  discriminate Hfin.
Qed.

(** Scenario A without the hot inlet temperature. *)
Definition no_hot_inlet_fields : gmap string prim :=
  delete "T_h_in" scenarioA_fields.

Definition no_hot_inlet_thermal : thermal :=
  {| th_m_h := 2; th_m_c := 2.5; th_T_h_out := 50; th_T_c_out := nan;
     th_Q := nan; th_LMTD := nan |}.

Lemma nan_duty_yields_no_design_no_hot_inlet :
  reaches_search RefEngine.engine (ArgObject no_hot_inlet_fields)
    (parsed RefEngine.engine no_hot_inlet_fields) no_hot_inlet_thermal
    70000 /\
  exists l,
    calculateDPHX RefEngine.engine (ArgObject no_hot_inlet_fields)
    = Normal (ErrorWithLogs err_no_feasible l) /\
    length l = 38%nat.
Proof.
  assert (Hr : reaches_search RefEngine.engine (ArgObject no_hot_inlet_fields)
                 (parsed RefEngine.engine no_hot_inlet_fields)
                 no_hot_inlet_thermal 70000).
  { exists no_hot_inlet_fields.
    split; [reflexivity|]. split; [reflexivity|].
    split; vm_compute; reflexivity. }
  split; [exact Hr|].
  destruct (nan_duty_yields_no_design _ _ _ _ _ Hr) as [Hc Hlen].
  { left. reflexivity. }
  eexists. split; [exact Hc|]. rewrite length_map. exact Hlen.
Defined.

End DPHXExtra.

(** ** More on the shell-and-tube design engine *)

Module STHXExtra.

Import JS STHX STHXFacts FloatFacts FloatNaN.
Local Open Scope float_scope.

(** *** The shell catalog *)

Lemma find_absent {A : Type} (f : A -> bool) (l : list A) :
  List.find f l = None -> forall x, In x l -> f x = false.
Proof.
  induction l as [|a l IH]; simpl; [intros _ x []|].
  destruct (f a) eqn:Ha; [discriminate|].
  intros H x [<-|Hx]; auto.
Qed.

Lemma find_first {A : Type} (f : A -> bool) (l : list A) y :
  List.find f l = Some y ->
  exists pre post,
    l = pre ++ y :: post /\ f y = true /\
    forall z, In z pre -> f z = false.
Proof.
  induction l as [|a l IH]; [discriminate|]. simpl.
  destruct (f a) eqn:Ha.
  - intros [= ->]. exists [], l. repeat split; auto. intros z [].
  - intros H. destruct (IH H) as (pre & post & -> & Hy & Hpre).
    exists (a :: pre), post. repeat split; auto.
    intros z [<-|Hz]; auto.
Qed.

Fixpoint ascending (l : list float) : bool :=
  match l with
  | [] => true
  | a :: l' => forallb (fun b => a <? b) l' && ascending l'
  end.

Lemma ascending_split l pre y post s :
  ascending l = true -> l = pre ++ y :: post -> In s post -> (y <? s) = true.
Proof.
  intros Hasc ->. revert Hasc.
  induction pre as [|a pre IH]; simpl; intros Hasc Hs.
  - apply andb_prop in Hasc as [Hall _].
    rewrite forallb_forall in Hall. apply Hall, Hs.
  - apply andb_prop in Hasc as [_ Hasc]. apply IH; assumption.
Qed.

(** The catalog is in ascending order. *)
Lemma TEMA_shells_ascending pre y post s :
  TEMA_shells = pre ++ y :: post -> In s post -> (y <? s) = true.
Proof.
  apply ascending_split. vm_compute. reflexivity.
Qed.

Lemma TEMA_shells_truthy s : In s TEMA_shells -> truthy s = true.
Proof.
  intros H.
  assert (Hall : forallb truthy TEMA_shells = true) by (vm_compute; reflexivity).
  rewrite forallb_forall in Hall. apply Hall, H.
Qed.

Lemma select_shell_in_catalog Ds_est : In (select_shell Ds_est) TEMA_shells.
Proof.
  unfold select_shell.
  destruct (List.find (fun s => Ds_est <=? s) TEMA_shells) as [y|] eqn:Hfind.
  - destruct (find_first _ _ _ Hfind) as (pre & post & Hsplit & _).
    assert (Hin : In y TEMA_shells) by (rewrite Hsplit; apply in_elt).
    unfold js_or. rewrite (TEMA_shells_truthy _ Hin). exact Hin.
  - vm_compute. tauto.
Qed.

(** X6: the shell selected for an estimate is always an entry of the
    catalog; when some entry is at least the estimate it is the smallest
    such entry, and when none is (the estimate is too large, or NaN) it is
    the largest entry, 1.524 m. *)
Theorem select_shell_is_the_smallest_fit Ds_est :
  In (select_shell Ds_est) TEMA_shells /\
  (forall s, In s TEMA_shells -> (Ds_est <=? s) = true ->
     (Ds_est <=? select_shell Ds_est) = true /\
     (s <? select_shell Ds_est) = false) /\
  ((forall s, In s TEMA_shells -> (Ds_est <=? s) = false) ->
   select_shell Ds_est = 1.524).
Proof.
  split; [apply select_shell_in_catalog|].
  unfold select_shell.
  destruct (List.find (fun s => Ds_est <=? s) TEMA_shells) as [y|] eqn:Hfind.
  - destruct (find_first _ _ _ Hfind) as (pre & post & Hsplit & Hy & Hpre).
    assert (Hin : In y TEMA_shells) by (rewrite Hsplit; apply in_elt).
    unfold js_or. rewrite (TEMA_shells_truthy _ Hin). split.
    + intros s Hs Hfit. split; [exact Hy|].
      rewrite Hsplit in Hs. apply in_app_or in Hs as [Hs|[<-|Hs]].
      * rewrite (Hpre s Hs) in Hfit. discriminate.
      * apply ltb_irrefl.
      * pose proof (TEMA_shells_ascending _ _ _ s Hsplit Hs) as Hlt.
        destruct (s <? y) eqn:Hsy; [|reflexivity].
        pose proof (ltb_trans _ _ _ Hlt Hsy) as C.
        now rewrite ltb_irrefl in C.
    + intros Hnone. rewrite (Hnone y Hin) in Hy. discriminate.
  - split.
    + intros s Hs Hfit. exfalso.
      pose proof (find_absent _ _ Hfind s Hs) as C.
      simpl in C. rewrite C in Hfit. discriminate.
    + intros _. reflexivity.
Qed.

(** *** What the rating and the design loop read *)

(** The fields of [Geom] that [performKernRating] reads. *)
Definition rating_fields (G : Params) :=
  (shell_ID G, tube_od G, tube_id G, tube_length G, total_tubes G,
   tube_passes G, tube_pitch G, baffle_spacing G, baffles_n G,
   pitch_type G, Rf_t G, Rf_s G).

Lemma performKernRating_reads E Sh Tu G G' :
  rating_fields G = rating_fields G' ->
  performKernRating E Sh Tu G = performKernRating E Sh Tu G'.
Proof.
  unfold rating_fields. intros [= H1 H2 H3 H4 H5 H6 H7 H8 H9 H10 H11 H12].
  unfold performKernRating.
  rewrite H1, H2, H3, H4, H5, H6, H7, H8, H9, H10, H11, H12. reflexivity.
Qed.

(** The fields of [D] that a pass of the design loop reads: the shell, the
    tube count and the baffle spacing are overwritten before the rating. *)
Definition design_fields (D : Params) :=
  (tube_od D, tube_id D, tube_length D, tube_passes D, tube_pitch D,
   baffles_n D, pitch_type D, Rf_t D, Rf_s D).

Lemma design_trial_reads E Sh Tu D D' Q_ LMTD_ U :
  design_fields D = design_fields D' ->
  design_trial E Sh Tu D Q_ LMTD_ U = design_trial E Sh Tu D' Q_ LMTD_ U.
Proof.
  unfold design_fields. intros [= H1 H2 H3 H4 H5 H6 H7 H8 H9].
  unfold design_trial. rewrite H1, H3, H5.
  set (Ds := select_shell _). set (Nt := Math_floor _).
  rewrite (performKernRating_reads E Sh Tu
             (with_shell_baffle D Ds Nt (Ds * 0.4))
             (with_shell_baffle D' Ds Nt (Ds * 0.4))); [reflexivity|].
  unfold rating_fields, with_shell_baffle.
  cbn [shell_ID tube_od tube_id tube_length total_tubes tube_passes
       tube_pitch baffle_spacing baffles_n pitch_type Rf_t Rf_s].
  congruence.
Qed.

Lemma design_loop_reads E Sh Tu D D' Q_ LMTD_ fuel :
  design_fields D = design_fields D' ->
  forall i U logs,
    design_loop E Sh Tu D Q_ LMTD_ fuel i U logs
    = design_loop E Sh Tu D' Q_ LMTD_ fuel i U logs.
Proof.
  intros H. induction fuel as [|fuel IH]; intros i U logs; [reflexivity|].
  cbn [design_loop]. rewrite (design_trial_reads E Sh Tu D D' Q_ LMTD_ U H).
  destruct (Math_abs _ <? 0.1); [reflexivity|]. apply IH.
Qed.

Lemma runDesignIteration_reads E Sh Tu D D' logs :
  design_fields D = design_fields D' ->
  U_guess D = U_guess D' -> hot D = hot D' -> cold D = cold D' ->
  baffle_spacing D = baffle_spacing D' ->
  runDesignIteration E Sh Tu D logs = runDesignIteration E Sh Tu D' logs.
Proof.
  intros H HU Hh Hc Hb. unfold runDesignIteration.
  rewrite HU, Hh, Hc.
  destruct (negb (truthy (calculateDuty Sh Tu))); [reflexivity|].
  assert (Hp : tube_passes D = tube_passes D')
    by (unfold design_fields in H; congruence).
  rewrite Hp.
  rewrite (design_loop_reads E Sh Tu D D' _ _ MaxIter H).
  destruct (design_loop E Sh Tu D' _ _ MaxIter 0 _ _) as [[r|] logs'];
    [reflexivity|].
  rewrite (performKernRating_reads E Sh Tu (with_shell D 0.6 200)
             (with_shell D' 0.6 200)); [reflexivity|].
  unfold design_fields in H. unfold rating_fields, with_shell.
  cbn [shell_ID tube_od tube_id tube_length total_tubes tube_passes
       tube_pitch baffle_spacing baffles_n pitch_type Rf_t Rf_s].
  congruence.
Qed.

(** [{ ...inputData, shell_ID: s, total_tubes: n }] *)
Definition set_shell (i : InputData) (s n : float) : InputData :=
  {| in_hot := in_hot i; in_cold := in_cold i;
     in_allocation_mode := in_allocation_mode i;
     in_allocation := in_allocation i; in_mode := in_mode i;
     in_U_guess := in_U_guess i; in_tube_length := in_tube_length i;
     in_tube_passes := in_tube_passes i;
     in_tube_od := in_tube_od i; in_tube_id := in_tube_id i;
     in_tube_pitch := in_tube_pitch i; in_pitch_type := in_pitch_type i;
     in_shell_ID := s; in_total_tubes := n;
     in_baffle_spacing := in_baffle_spacing i; in_baffles_n := in_baffles_n i;
     in_Rf_t := in_Rf_t i; in_Rf_s := in_Rf_s i |}.

(** [{ ...inputData, allocation: a }] *)
Definition set_allocation (i : InputData) (a : string) : InputData :=
  {| in_hot := in_hot i; in_cold := in_cold i;
     in_allocation_mode := in_allocation_mode i;
     in_allocation := a; in_mode := in_mode i;
     in_U_guess := in_U_guess i; in_tube_length := in_tube_length i;
     in_tube_passes := in_tube_passes i;
     in_tube_od := in_tube_od i; in_tube_id := in_tube_id i;
     in_tube_pitch := in_tube_pitch i; in_pitch_type := in_pitch_type i;
     in_shell_ID := in_shell_ID i; in_total_tubes := in_total_tubes i;
     in_baffle_spacing := in_baffle_spacing i; in_baffles_n := in_baffles_n i;
     in_Rf_t := in_Rf_t i; in_Rf_s := in_Rf_s i |}.

Lemma allocated_set_shell i s n :
  allocated (set_shell i s n)
  = (with_shell (D_of i) s n, snd (allocated i)).
Proof.
  unfold D_of, allocated.
  change (allocation_mode (merge_defaults (set_shell i s n)))
    with (allocation_mode (merge_defaults i)).
  destruct (String.eqb (allocation_mode (merge_defaults i)) "auto");
    reflexivity.
Qed.

(** X7: in design mode the caller's [shell_ID] and [total_tubes] are never
    read: every pass overwrites them with the catalog shell and its tube
    count, and the fallback after 20 passes with 0.6 m and 200 tubes. *)
Theorem design_ignores_input_shell_geometry E i s n :
  String.eqb (mode (D_of i)) "design" = true ->
  calculateSTHX E (set_shell i s n) = calculateSTHX E i.
Proof.
  intros Hmode. rewrite !calculateSTHX_modes. cbv zeta.
  rewrite allocated_set_shell. cbn [fst snd]. fold (D_of i).
  change (mode (with_shell (D_of i) s n)) with (mode (D_of i)).
  rewrite Hmode.
  change (shell_side (with_shell (D_of i) s n)) with (shell_side (D_of i)).
  change (tube_side (with_shell (D_of i) s n)) with (tube_side (D_of i)).
  apply runDesignIteration_reads; reflexivity.
Qed.

Lemma design_ignores_input_shell_geometry_water :
  String.eqb (mode (D_of (design_input 500))) "design" = true /\
  calculateSTHX RefEngine.engine (set_shell (design_input 500) 0.3048 128)
  = calculateSTHX RefEngine.engine (design_input 500).
Proof.
  split; [reflexivity|].
  apply (design_ignores_input_shell_geometry RefEngine.engine
           (design_input 500) 0.3048 128).
  reflexivity.
Defined.

(** *** The outcomes of a design-mode call *)

Lemma js_or_same x : js_or x x = x.
Proof. unfold js_or. destruct (truthy x); reflexivity. Qed.

(** The loop of a call of [calculateSTHX]: its candidate for a guess, the
    guess of pass [j] and the lines of the first [n] passes. *)
Definition trial_of (E : Engine) (i : InputData) (U : float) : trial :=
  trial_at E (shell_side (D_of i)) (tube_side (D_of i)) (D_of i)
    (duty_of i) (loop_LMTD E (D_of i)) U.

Definition guess_of (E : Engine) (i : InputData) (j : nat) : float :=
  guess E (shell_side (D_of i)) (tube_side (D_of i)) (D_of i)
    (duty_of i) (loop_LMTD E (D_of i)) (first_guess (D_of i)) j.

Definition lines_of (E : Engine) (i : InputData) (n : nat) : list log_line :=
  lines E (shell_side (D_of i)) (tube_side (D_of i)) (D_of i)
    (duty_of i) (loop_LMTD E (D_of i)) 0 (first_guess (D_of i)) n.

(** What a design-mode call returns, by the duty and the loop. *)
Lemma design_mode_outcomes E i :
  String.eqb (mode (D_of i)) "design" = true ->
  (truthy (duty_of i) = false /\ calculateSTHX E i = Error err_no_duty) \/
  (truthy (duty_of i) = true /\
   exists n,
     (1 <= n <= MaxIter)%nat /\
     (forall j, (S j < n)%nat ->
        (Math_abs (tr_error (trial_of E i (guess_of E i j))) <? 0.1)
        = false) /\
     ((Math_abs (tr_error (trial_of E i (guess_of E i (n - 1)))) <? 0.1)
      = true /\
      calculateSTHX E i =
      Design (tr_rating (trial_of E i (guess_of E i (n - 1)))) (Some true)
        (snd (allocated i) ++ LogStartDesign :: lines_of E i n)
      \/
      (n = MaxIter /\ exhausted E i /\
       calculateSTHX E i =
       Design
         (performKernRating E (shell_side (D_of i)) (tube_side (D_of i))
            (with_shell (D_of i) 0.6 200))
         (Some false)
         (snd (allocated i) ++ LogStartDesign
            :: lines_of E i MaxIter ++ [LogMaxIterations])))).
Proof.
  intros Hmode. rewrite calculateSTHX_modes. cbv zeta.
  fold (D_of i). rewrite Hmode.
  destruct (truthy (duty_of i)) eqn:HQ.
  - right. split; [reflexivity|].
    destruct (runDesignIteration_cases E (shell_side (D_of i))
                (tube_side (D_of i)) (D_of i) (snd (allocated i)) HQ)
      as (n & Hn & Hbefore & [(Hstop & Hrun)|(-> & Hall & Hrun)]).
    + exists n. split; [exact Hn|]. split; [exact Hbefore|].
      left. split; [exact Hstop|exact Hrun].
    + exists MaxIter. split; [unfold MaxIter; lia|]. split; [exact Hbefore|].
      right. split; [reflexivity|]. split; [exact Hall|exact Hrun].
  - left. split; [reflexivity|].
    unfold runDesignIteration. fold (duty_of i). rewrite HQ. reflexivity.
Qed.

Lemma rating_mode_outcome E i :
  String.eqb (mode (D_of i)) "design" = false ->
  calculateSTHX E i =
  Design (performKernRating E (shell_side (D_of i)) (tube_side (D_of i))
            (D_of i))
    None (snd (allocated i) ++ [LogRatingMode]).
Proof.
  intros Hmode. rewrite calculateSTHX_modes. cbv zeta.
  fold (D_of i). rewrite Hmode. reflexivity.
Qed.

(** The geometry of a candidate of the loop. *)
Lemma trial_geometry E Sh Tu D Q_ LMTD_ U :
  let tr := trial_at E Sh Tu D Q_ LMTD_ U in
  geo_Ds (Geometry (tr_rating tr)) = tr_Ds_std tr /\
  In (tr_Ds_std tr) TEMA_shells /\
  geo_B (Geometry (tr_rating tr)) = tr_Ds_std tr * 0.4 /\
  geo_Nt (Geometry (tr_rating tr))
  = Math_floor (0.785 * Math_pow E (tr_Ds_std tr / tube_pitch D) 2).
Proof.
  unfold trial_at, design_trial. cbn [tr_rating tr_Ds_std].
  unfold performKernRating.
  cbn [Geometry geo_Ds geo_B geo_Nt with_shell_baffle shell_ID
       baffle_spacing total_tubes].
  split; [reflexivity|]. split; [apply select_shell_in_catalog|].
  split; [apply js_or_same|reflexivity].
Qed.

Lemma last_app_cons {A : Type} (l1 l2 : list A) x d :
  List.last (l1 ++ x :: l2) d = List.last (x :: l2) d.
Proof.
  induction l1 as [|a l1 IH]; [reflexivity|].
  change ((a :: l1) ++ x :: l2) with (a :: (l1 ++ x :: l2)).
  destruct (l1 ++ x :: l2) eqn:Hl; [destruct l1; discriminate|].
  cbn [List.last]. cbn [List.last] in IH. exact IH.
Qed.

Lemma lines_last E Sh Tu D Q_ LMTD_ k : forall i U0 d,
  List.last (lines E Sh Tu D Q_ LMTD_ i U0 (S k)) d
  = iter_log (i + k) (guess E Sh Tu D Q_ LMTD_ U0 k)
      (trial_at E Sh Tu D Q_ LMTD_ (guess E Sh Tu D Q_ LMTD_ U0 k)).
Proof.
  induction k as [|k IH]; intros i U0 d.
  - cbn [lines List.last guess]. now rewrite Nat.add_0_r.
  - change (lines E Sh Tu D Q_ LMTD_ i U0 (S (S k)))
      with ([iter_log i U0 (trial_at E Sh Tu D Q_ LMTD_ U0)]
            ++ lines E Sh Tu D Q_ LMTD_ (S i)
                 (next_guess E Sh Tu D Q_ LMTD_ U0) (S k)).
    cbn [lines]. rewrite last_app_cons.
    change (iter_log (S i) ?u ?t :: lines E Sh Tu D Q_ LMTD_ (S (S i)) ?u' k)
      with (lines E Sh Tu D Q_ LMTD_ (S i) u (S k)).
    rewrite IH. cbn [guess]. now rewrite Nat.add_succ_r.
Qed.

(** X9: a design returned with [converged = true] sits on a shell of the
    TEMA catalog, with a baffle spacing of 0.4 shell diameters and the tube
    count [floor(0.785 (Ds / pitch)^2)]; it is the candidate of the pass
    logged last, whose error passed the 10% test. *)
Theorem converged_design_is_a_catalog_candidate E i r logs :
  calculateSTHX E i = Design r (Some true) logs ->
  In (geo_Ds (Geometry r)) TEMA_shells /\
  geo_B (Geometry r) = geo_Ds (Geometry r) * 0.4 /\
  geo_Nt (Geometry r)
  = Math_floor (0.785 * Math_pow E (geo_Ds (Geometry r)
                                    / tube_pitch (D_of i)) 2) /\
  exists k U,
    List.last logs LogStartDesign
    = LogIter k U (geo_Ds (Geometry r) * 1000) (U_clean r)
        ((U_clean r - U) / U * 100) /\
    (1 <= k <= 20)%nat /\
    (Math_abs ((U_clean r - U) / U) <? 0.1) = true.
Proof.
  intros Hrun.
  destruct (String.eqb (mode (D_of i)) "design") eqn:Hmode;
    [|rewrite (rating_mode_outcome E i Hmode) in Hrun; discriminate].
  destruct (design_mode_outcomes E i Hmode)
    as [(_ & Hrun')|(HQ & n & Hn & _ & [(Hstop & Hrun')|(_ & _ & Hrun')])];
    rewrite Hrun' in Hrun; [discriminate| |discriminate].
  assert (Hr : r = tr_rating (trial_of E i (guess_of E i (n - 1))))
    by congruence.
  assert (Hl : logs = snd (allocated i) ++ LogStartDesign :: lines_of E i n)
    by congruence.
  clear Hrun Hrun'. subst r logs.
  destruct (trial_geometry E (shell_side (D_of i)) (tube_side (D_of i))
              (D_of i) (duty_of i) (loop_LMTD E (D_of i))
              (guess_of E i (n - 1)))
    as (HDs & Hin & HB & HNt).
  fold (trial_of E i (guess_of E i (n - 1))) in HDs, Hin, HB, HNt.
  rewrite HDs. split; [exact Hin|]. split; [exact HB|]. split; [exact HNt|].
  exists n, (guess_of E i (n - 1)).
  split; [|split; [unfold MaxIter in Hn; lia|exact Hstop]].
  destruct n as [|k]; [lia|].
  replace (S k - 1)%nat with k by lia.
  unfold lines_of. cbn [lines]. rewrite last_app_cons.
  change (List.last (LogStartDesign :: ?x :: ?l) ?d)
    with (List.last (x :: l) d).
  match goal with
  | |- List.last (iter_log 0 ?u ?t :: ?l) ?d = _ =>
      change (iter_log 0 u t :: l)
        with (lines E (shell_side (D_of i)) (tube_side (D_of i)) (D_of i)
                (duty_of i) (loop_LMTD E (D_of i)) 0 (first_guess (D_of i))
                (S k))
  end.
  rewrite lines_last. unfold iter_log.
  replace (0 + k + 1)%nat with (S k) by lia. reflexivity.
Qed.


Definition water_design : rating :=
  Eval vm_compute in
    match calculateSTHX RefEngine.engine (design_input 500) with
    | Design r _ _ => r
    | Error _ => performKernRating RefEngine.engine hot_water cold_water
                   (merge_defaults (design_input 500))
    end.

Definition water_logs : list log_line :=
  Eval vm_compute in
    match calculateSTHX RefEngine.engine (design_input 500) with
    | Design _ _ logs => logs
    | Error _ => []
    end.

(** With the default guess of 500 the water-water design converges in 7
    passes, on the 12 inch shell. *)
Lemma water_design_runs :
  calculateSTHX RefEngine.engine (design_input 500)
  = Design water_design (Some true) water_logs.
Proof. vm_compute. reflexivity. Qed.

Lemma converged_design_is_a_catalog_candidate_water :
  calculateSTHX RefEngine.engine (design_input 500)
  = Design water_design (Some true) water_logs /\
  In (geo_Ds (Geometry water_design)) TEMA_shells /\
  geo_B (Geometry water_design) = geo_Ds (Geometry water_design) * 0.4.
Proof.
  split; [exact water_design_runs|].
  destruct (converged_design_is_a_catalog_candidate RefEngine.engine
              (design_input 500) water_design water_logs water_design_runs)
    as (H1 & H2 & _).
  split; [exact H1|exact H2].
Defined.

(** X10: a design returned with [converged = false] is not a candidate of
    the loop: it is the rating of the input geometry on a 0.6 m shell with
    200 tubes, a shell that is not in the catalog, whatever the guesses
    were; all 20 passes failed the test. *)
Theorem unconverged_design_is_the_fixed_fallback E i r logs :
  calculateSTHX E i = Design r (Some false) logs ->
  r = performKernRating E (shell_side (D_of i)) (tube_side (D_of i))
        (with_shell (D_of i) 0.6 200) /\
  geo_Ds (Geometry r) = 0.6 /\
  geo_Nt (Geometry r) = 200 /\
  geo_B (Geometry r) = js_or (baffle_spacing (D_of i)) (0.6 * 0.4) /\
  ~ In (geo_Ds (Geometry r)) TEMA_shells /\
  exhausted E i /\
  List.last logs LogStartDesign = LogMaxIterations.
Proof.
  intros Hrun.
  destruct (String.eqb (mode (D_of i)) "design") eqn:Hmode;
    [|rewrite (rating_mode_outcome E i Hmode) in Hrun; discriminate].
  destruct (design_mode_outcomes E i Hmode)
    as [(_ & Hrun')|(HQ & n & Hn & _ & [(Hstop & Hrun')|(_ & Hex & Hrun')])];
    rewrite Hrun' in Hrun; [discriminate|discriminate|].
  assert (Hr : r = performKernRating E (shell_side (D_of i))
                     (tube_side (D_of i)) (with_shell (D_of i) 0.6 200))
    by congruence.
  assert (Hl : logs = snd (allocated i) ++ LogStartDesign
                        :: lines_of E i MaxIter ++ [LogMaxIterations])
    by congruence.
  clear Hrun Hrun'. subst r logs.
  split; [reflexivity|]. split; [reflexivity|]. split; [reflexivity|].
  split; [reflexivity|]. split.
  - unfold performKernRating. cbn [Geometry geo_Ds with_shell shell_ID].
    intros Hin. vm_compute in Hin.
    repeat (destruct Hin as [Hin|Hin];
            [assert (Hb : (0.6 =? 0.6) = true) by reflexivity;
             rewrite <- Hin in Hb at 1; vm_compute in Hb; discriminate Hb|]).
    exact Hin.
  - split; [exact Hex|].
    rewrite last_app_cons.
    change (LogStartDesign :: ?l ++ ?l') with ((LogStartDesign :: l) ++ l').
    apply last_last.
Qed.

Definition far_design : rating :=
  Eval vm_compute in
    match calculateSTHX RefEngine.engine (design_input far_guess) with
    | Design r _ _ => r
    | Error _ => water_design
    end.

Definition far_logs : list log_line :=
  Eval vm_compute in
    match calculateSTHX RefEngine.engine (design_input far_guess) with
    | Design _ _ logs => logs
    | Error _ => []
    end.

Lemma far_guess_runs :
  calculateSTHX RefEngine.engine (design_input far_guess)
  = Design far_design (Some false) far_logs.
Proof. vm_compute. reflexivity. Qed.

Lemma unconverged_design_is_the_fixed_fallback_far_guess :
  calculateSTHX RefEngine.engine (design_input far_guess)
  = Design far_design (Some false) far_logs /\
  geo_Ds (Geometry far_design) = 0.6 /\ geo_Nt (Geometry far_design) = 200 /\
  ~ In (geo_Ds (Geometry far_design)) TEMA_shells.
Proof.
  split; [exact far_guess_runs|].
  destruct (unconverged_design_is_the_fixed_fallback RefEngine.engine
              (design_input far_guess) far_design far_logs far_guess_runs)
    as (_ & H1 & H2 & _ & H3 & _).
  split; [exact H1|]. split; [exact H2|exact H3].
Defined.

(** *** The candidates of the loop *)

(** The rating of the geometry [D] on the catalog shell [s]. *)
Definition candidate (E : Engine) (Sh Tu : Fluid) (D : Params) (s : float)
  : rating :=
  performKernRating E Sh Tu
    (with_shell_baffle D s
       (Math_floor (0.785 * Math_pow E (s / tube_pitch D) 2)) (s * 0.4)).

(** X11: whatever the duty, the temperature difference and the guess, the
    design rated in a pass is one of 13 ratings, one for each shell of the
    catalog: the guess only selects the shell.  A converged design is one
    of them. *)
Theorem loop_candidates_are_the_catalog_ratings E :
  (forall Sh Tu D Q_ LMTD_ U,
      tr_rating (design_trial E Sh Tu D Q_ LMTD_ U)
      = candidate E Sh Tu D (tr_Ds_std (design_trial E Sh Tu D Q_ LMTD_ U)) /\
      In (tr_rating (design_trial E Sh Tu D Q_ LMTD_ U))
         (map (candidate E Sh Tu D) TEMA_shells)) /\
  length TEMA_shells = 13%nat /\
  (forall i r logs,
      calculateSTHX E i = Design r (Some true) logs ->
      In r (map (candidate E (shell_side (D_of i)) (tube_side (D_of i))
                   (D_of i)) TEMA_shells)).
Proof.
  assert (Hcand : forall Sh Tu D Q_ LMTD_ U,
      tr_rating (design_trial E Sh Tu D Q_ LMTD_ U)
      = candidate E Sh Tu D (tr_Ds_std (design_trial E Sh Tu D Q_ LMTD_ U)) /\
      In (tr_rating (design_trial E Sh Tu D Q_ LMTD_ U))
         (map (candidate E Sh Tu D) TEMA_shells)).
  { intros Sh Tu D Q_ LMTD_ U.
    assert (Heq : tr_rating (design_trial E Sh Tu D Q_ LMTD_ U)
                  = candidate E Sh Tu D
                      (tr_Ds_std (design_trial E Sh Tu D Q_ LMTD_ U)))
      by reflexivity.
    split; [exact Heq|]. rewrite Heq. apply in_map.
    unfold design_trial. cbn [tr_Ds_std]. apply select_shell_in_catalog. }
  split; [exact Hcand|]. split; [reflexivity|].
  intros i r logs Hrun.
  destruct (String.eqb (mode (D_of i)) "design") eqn:Hmode;
    [|rewrite (rating_mode_outcome E i Hmode) in Hrun; discriminate].
  destruct (design_mode_outcomes E i Hmode)
    as [(_ & Hrun')|(HQ & n & Hn & _ & [(Hstop & Hrun')|(_ & _ & Hrun')])];
    rewrite Hrun' in Hrun; [discriminate| |discriminate].
  assert (Hr : r = tr_rating (trial_of E i (guess_of E i (n - 1))))
    by congruence.
  rewrite Hr. apply Hcand.
Qed.

(** *** The allocation string *)

Lemma allocated_auto i a :
  String.eqb (in_allocation_mode i) "auto" = true ->
  allocated (set_allocation i a) = allocated i.
Proof.
  intros H. unfold allocated.
  change (allocation_mode (merge_defaults (set_allocation i a)))
    with (in_allocation_mode i).
  change (allocation_mode (merge_defaults i)) with (in_allocation_mode i).
  rewrite H. reflexivity.
Qed.

Lemma auto_allocation_sides D :
  In (fst (auto_allocation D)) ["hot_shell"; "cold_shell"]%string.
Proof.
  unfold auto_allocation.
  repeat match goal with
         | |- context [if ?b then _ else _] => destruct b
         end; cbn [fst In]; auto.
Qed.

(** X12: with [allocation_mode = 'auto'] the caller's [allocation] is never
    read: the heuristic overwrites it with [hot_shell] or [cold_shell]
    before the sides are assigned. *)
Theorem auto_allocation_overrides_the_caller E i a :
  String.eqb (in_allocation_mode i) "auto" = true ->
  calculateSTHX E (set_allocation i a) = calculateSTHX E i /\
  In (allocation (D_of i)) ["hot_shell"; "cold_shell"]%string.
Proof.
  intros H. split.
  - rewrite !calculateSTHX_modes. rewrite (allocated_auto i a H). reflexivity.
  - unfold D_of, allocated.
    change (allocation_mode (merge_defaults i)) with (in_allocation_mode i).
    rewrite H. cbn [fst with_allocation allocation].
    apply auto_allocation_sides.
Qed.

(** The water-water design with automatic allocation. *)
Definition auto_input : InputData :=
  {| in_hot := hot_water; in_cold := cold_water;
     in_allocation_mode := "auto"; in_allocation := "hot_shell";
     in_mode := "design";
     in_U_guess := Some 500; in_tube_length := None;
     in_tube_passes := None;
     in_tube_od := 0.01905; in_tube_id := 0.01575; in_tube_pitch := 0.0238;
     in_pitch_type := "triangular";
     in_shell_ID := nan; in_total_tubes := nan;
     in_baffle_spacing := nan; in_baffles_n := nan;
     in_Rf_t := nan; in_Rf_s := nan |}.

Lemma auto_allocation_overrides_the_caller_water :
  String.eqb (in_allocation_mode auto_input) "auto" = true /\
  calculateSTHX RefEngine.engine (set_allocation auto_input "cold_shell")
  = calculateSTHX RefEngine.engine auto_input.
Proof.
  split; [reflexivity|].
  apply (auto_allocation_overrides_the_caller RefEngine.engine auto_input
           "cold_shell").
  reflexivity.
Defined.

Lemma allocated_manual i a :
  String.eqb (in_allocation_mode i) "auto" = false ->
  allocated (set_allocation i a)
  = (with_allocation (merge_defaults i) a, []).
Proof.
  intros H. unfold allocated.
  change (allocation_mode (merge_defaults (set_allocation i a)))
    with (in_allocation_mode i).
  rewrite H. reflexivity.
Qed.

(** X13: without automatic allocation the [allocation] string is only
    compared with ['hot_shell']: two values that both differ from it (for
    instance ['cold_shell'] and a misspelt or missing value) give the same
    result, with the cold stream in the shell. *)
Theorem manual_allocation_is_hot_shell_or_not E i a b :
  String.eqb (in_allocation_mode i) "auto" = false ->
  String.eqb a "hot_shell" = String.eqb b "hot_shell" ->
  calculateSTHX E (set_allocation i a) = calculateSTHX E (set_allocation i b)
  /\
  (String.eqb a "hot_shell" = false ->
   shell_side (D_of (set_allocation i a)) = in_cold i /\
   tube_side (D_of (set_allocation i a)) = in_hot i).
Proof.
  intros Hm Hab. split.
  - rewrite !calculateSTHX_modes. cbv zeta.
    rewrite (allocated_manual i a Hm), (allocated_manual i b Hm).
    cbn [fst snd].
    change (mode (with_allocation (merge_defaults i) a)) with (in_mode i).
    change (mode (with_allocation (merge_defaults i) b)) with (in_mode i).
    unfold shell_side, tube_side.
    change (allocation (with_allocation (merge_defaults i) a)) with a.
    change (allocation (with_allocation (merge_defaults i) b)) with b.
    rewrite Hab.
    set (Sh := if String.eqb b "hot_shell" then _ else _).
    set (Tu := if String.eqb b "hot_shell" then _ else _).
    destruct (String.eqb (in_mode i) "design").
    + apply runDesignIteration_reads; reflexivity.
    + unfold runRatingCalculation.
      rewrite (performKernRating_reads E Sh Tu
                 (with_allocation (merge_defaults i) a)
                 (with_allocation (merge_defaults i) b)); reflexivity.
  - intros Ha. unfold D_of. rewrite (allocated_manual i a Hm). cbn [fst].
    unfold shell_side, tube_side.
    change (allocation (with_allocation (merge_defaults i) a)) with a.
    rewrite Ha. split; reflexivity.
Qed.

Lemma manual_allocation_is_hot_shell_or_not_water :
  String.eqb (in_allocation_mode (design_input 500)) "auto" = false /\
  String.eqb "cold_shell" "hot_shell" = String.eqb "tube" "hot_shell" /\
  calculateSTHX RefEngine.engine (set_allocation (design_input 500) "cold_shell")
  = calculateSTHX RefEngine.engine (set_allocation (design_input 500) "tube").
Proof.
  split; [reflexivity|]. split; [reflexivity|].
  apply (manual_allocation_is_hot_shell_or_not RefEngine.engine
           (design_input 500) "cold_shell" "tube"); reflexivity.
Defined.

(** *** The iteration lines of the log *)

Lemma filter_is_iter_lines E Sh Tu D Q_ LMTD_ n : forall i U0,
  List.filter is_iter (lines E Sh Tu D Q_ LMTD_ i U0 n)
  = lines E Sh Tu D Q_ LMTD_ i U0 n.
Proof.
  induction n as [|n IH]; intros i U0; [reflexivity|].
  cbn [lines]. unfold iter_log at 1. cbn [List.filter is_iter].
  rewrite IH. reflexivity.
Qed.

Lemma filter_is_iter_allocated i :
  List.filter is_iter (snd (allocated i)) = [].
Proof.
  unfold allocated.
  destruct (String.eqb (allocation_mode (merge_defaults i)) "auto");
    reflexivity.
Qed.

Lemma filter_is_iter_log (alloc L : list log_line) :
  List.filter is_iter alloc = [] -> List.filter is_iter L = L ->
  List.filter is_iter (alloc ++ LogStartDesign :: L) = L /\
  List.filter is_iter (alloc ++ LogStartDesign :: L ++ [LogMaxIterations])
  = L.
Proof.
  intros Ha HL. rewrite !List.filter_app, Ha.
  change (LogStartDesign :: L ++ [LogMaxIterations])
    with ([LogStartDesign] ++ L ++ [LogMaxIterations]).
  change (LogStartDesign :: L) with ([LogStartDesign] ++ L).
  rewrite !List.filter_app, HL. cbn [List.filter is_iter app].
  split; [reflexivity|apply app_nil_r].
Qed.

(** The iteration lines of the log of a design-mode result are the lines
    of the passes the loop ran. *)
Lemma design_log_iteration_lines E i r c logs :
  calculateSTHX E i = Design r (Some c) logs ->
  exists n,
    (1 <= n <= MaxIter)%nat /\
    List.filter is_iter logs = lines_of E i n /\
    forall j, (S j < n)%nat ->
      (Math_abs (tr_error (trial_of E i (guess_of E i j))) <? 0.1) = false.
Proof.
  intros Hrun.
  destruct (String.eqb (mode (D_of i)) "design") eqn:Hmode;
    [|rewrite (rating_mode_outcome E i Hmode) in Hrun; discriminate].
  destruct (design_mode_outcomes E i Hmode)
    as [(_ & Hrun')|(HQ & n & Hn & Hbefore
                     & [(Hstop & Hrun')|(-> & _ & Hrun')])];
    rewrite Hrun' in Hrun; [discriminate| |].
  - exists n. split; [exact Hn|]. split; [|exact Hbefore].
    assert (Hl : logs = snd (allocated i) ++ LogStartDesign :: lines_of E i n)
      by congruence.
    rewrite Hl.
    apply (filter_is_iter_log _ _ (filter_is_iter_allocated i)
             (filter_is_iter_lines _ _ _ _ _ _ n 0%nat _)).
  - exists MaxIter. split; [exact Hn|]. split; [|exact Hbefore].
    assert (Hl : logs = snd (allocated i) ++ LogStartDesign
                          :: lines_of E i MaxIter ++ [LogMaxIterations])
      by congruence.
    rewrite Hl.
    apply (filter_is_iter_log _ _ (filter_is_iter_allocated i)
             (filter_is_iter_lines _ _ _ _ _ _ MaxIter 0%nat _)).
Qed.

Lemma trial_error E Sh Tu D Q_ LMTD_ U :
  tr_error (trial_at E Sh Tu D Q_ LMTD_ U)
  = (tr_U_calc (trial_at E Sh Tu D Q_ LMTD_ U) - U) / U.
Proof. reflexivity. Qed.

Lemma lines_nth_inv E Sh Tu D Q_ LMTD_ i U0 n j k U Ds Uc err :
  nth_error (lines E Sh Tu D Q_ LMTD_ i U0 n) j
  = Some (LogIter k U Ds Uc err) ->
  (j < n)%nat /\ k = (i + j + 1)%nat /\
  U = guess E Sh Tu D Q_ LMTD_ U0 j /\
  Uc = tr_U_calc (trial_at E Sh Tu D Q_ LMTD_ U) /\
  err = tr_error (trial_at E Sh Tu D Q_ LMTD_ U) * 100.
Proof.
  intros Hj.
  assert (Hjn : (j < n)%nat).
  { assert (Hs : nth_error (lines E Sh Tu D Q_ LMTD_ i U0 n) j <> None)
      by congruence.
    apply nth_error_Some in Hs. now rewrite lines_length in Hs. }
  rewrite lines_nth in Hj by exact Hjn.
  remember (guess E Sh Tu D Q_ LMTD_ U0 j) as g eqn:Hg.
  remember (trial_at E Sh Tu D Q_ LMTD_ g) as t eqn:Ht.
  unfold iter_log in Hj.
  assert (HU : U = g) by congruence.
  split; [exact Hjn|]. split; [congruence|]. split; [exact HU|].
  rewrite HU, <- Ht. split; congruence.
Qed.

(** X14: in the log of a design-mode result the iteration lines are
    numbered 1, 2, 3, ...; the first reports the starting guess, each
    reports the percent error of its own two U values, and a line is
    followed by another only if its error failed the 10% test, the next
    line then reporting the damped guess [0.5 U + 0.5 U_calc]. *)
Theorem iteration_lines_are_chained E i r c logs :
  calculateSTHX E i = Design r (Some c) logs ->
  forall j k U Ds Uc err,
    nth_error (List.filter is_iter logs) j = Some (LogIter k U Ds Uc err) ->
    k = S j /\
    (j = 0%nat -> U = js_or (U_guess (D_of i)) 500) /\
    err = (Uc - U) / U * 100 /\
    forall k' U' Ds' Uc' err',
      nth_error (List.filter is_iter logs) (S j)
      = Some (LogIter k' U' Ds' Uc' err') ->
      U' = 0.5 * U + 0.5 * Uc /\
      (Math_abs ((Uc - U) / U) <? 0.1) = false.
Proof.
  intros Hrun j k U Ds Uc err Hj.
  destruct (design_log_iteration_lines E i r c logs Hrun)
    as (n & Hn & Hlines & Hbefore).
  rewrite Hlines in *. clear Hlines Hrun.
  unfold lines_of in Hj.
  apply lines_nth_inv in Hj as (Hjn & Hk & HU & HUc & Herr).
  fold (guess_of E i j) in HU. fold (trial_of E i U) in HUc, Herr.
  split; [lia|]. split; [intros ->; exact HU|].
  split; [rewrite Herr, HUc; unfold trial_of; rewrite trial_error;
          reflexivity|].
  intros k' U' Ds' Uc' err' Hj'.
  unfold lines_of in Hj'.
  apply lines_nth_inv in Hj' as (Hjn' & _ & HU' & _).
  rewrite guess_succ in HU'. fold (guess_of E i j) in HU'.
  rewrite <- HU in HU'. unfold next_guess in HU'.
  fold (trial_of E i U) in HU'. rewrite <- HUc in HU'.
  split; [exact HU'|].
  specialize (Hbefore j Hjn'). rewrite <- HU in Hbefore.
  unfold trial_of in Hbefore. rewrite trial_error in Hbefore.
  fold (trial_of E i U) in Hbefore. rewrite <- HUc in Hbefore.
  exact Hbefore.
Qed.

Lemma iteration_lines_are_chained_water :
  calculateSTHX RefEngine.engine (design_input 500)
  = Design water_design (Some true) water_logs /\
  exists k U Ds Uc err,
    nth_error (List.filter is_iter water_logs) 1
    = Some (LogIter k U Ds Uc err) /\ k = 2%nat.
Proof.
  split; [exact water_design_runs|].
  do 5 eexists. split; [vm_compute; reflexivity|].
  eapply (iteration_lines_are_chained RefEngine.engine (design_input 500)
            water_design true water_logs water_design_runs 1).
  vm_compute. reflexivity.
Defined.

End STHXExtra.

(** ** More on the earlier double-pipe calculator *)

Module DPHXv2Extra.

Import JS Arg DPHXv2 FloatFacts FloatNaN.
Local Open Scope float_scope.

(** The kind and the number of a log line. *)
Definition line_number (l : log_line) : bool * nat :=
  match l with
  | LogIteration n _ _ _ => (true, n)
  | LogDP n _ _ _ _ => (false, n)
  end.

Definition numbered (kind : bool) (first count : nat) : list (bool * nat) :=
  map (fun n => (kind, n)) (seq first count).

Lemma numbered_cons kind first count :
  numbered kind first (S count) = (kind, first) :: numbered kind (S first) count.
Proof. reflexivity. Qed.

(** The calculated U of the last iteration line of a log, [acc] if there
    is none. *)
Fixpoint last_iteration_U (l : list log_line) (acc : option float)
  : option float :=
  match l with
  | [] => acc
  | LogIteration _ _ Uc _ :: l' => last_iteration_U l' (Some Uc)
  | LogDP _ _ _ _ _ :: l' => last_iteration_U l' acc
  end.

Lemma last_iteration_U_app l1 l2 acc :
  last_iteration_U (l1 ++ l2) acc
  = last_iteration_U l2 (last_iteration_U l1 acc).
Proof.
  revert acc. induction l1 as [|x l1 IH]; intros acc; [reflexivity|].
  destruct x; cbn [app last_iteration_U]; apply IH.
Qed.

(** One pass of the first loop: the line it logs and what it leaves
    alone. *)
Definition u_pass (v : env) (it : nat) (s sn : vars) : Prop :=
  (exists d, s_logs sn
             = s_logs s ++ [LogIteration it (e_U v) (s_U_calculated sn) d]) /\
  s_deltaP_inner sn = s_deltaP_inner s /\
  s_deltaP_ann sn = s_deltaP_ann s /\
  s_dp_valid sn = s_dp_valid s.

Lemma u_loop_pass E v fuel it s :
  exists sn,
    u_pass v it s sn /\
    (s_U_valid sn = true /\ u_loop E v (S fuel) it s = sn \/
     s_U_valid sn = false
     /\ u_loop E v (S fuel) it s = u_loop E v fuel (S it) sn).
Proof.
  remember (u_loop E v (S fuel) it s) as out eqn:Hout.
  cbn [u_loop] in Hout.
  match type of Hout with
  | context [if ?c <=? 0.2 then _ else _] => destruct (c <=? 0.2)
  end.
  - exists out. split; [|left; split; [rewrite Hout|]; reflexivity].
    rewrite Hout. unfold u_pass.
    cbn [s_logs s_U_calculated s_deltaP_inner s_deltaP_ann s_dp_valid].
    split; [eexists; reflexivity|]. auto.
  - match type of Hout with
    | context [u_loop E v fuel (S it) ?s'] =>
        exists s'; split; [clear Hout|right; split; [clear Hout|exact Hout]]
    end.
    + repeat match goal with
             | |- context [if ?c then _ else _] => destruct c
             end;
        unfold u_pass;
        cbn [s_logs s_U_calculated s_deltaP_inner s_deltaP_ann s_dp_valid];
        (split; [eexists; reflexivity|]); auto.
    + repeat match goal with
             | |- context [if ?c then _ else _] => destruct c
             end; reflexivity.
Qed.

(** The first loop, pass by pass: it logs one line per pass, leaves the
    pressure drops alone, and runs all its passes unless one is valid. *)
Lemma u_loop_trace E v fuel : forall it s,
  exists k,
    (k <= fuel)%nat /\
    ((1 <= fuel)%nat -> (1 <= k)%nat) /\
    map line_number (s_logs (u_loop E v fuel it s))
    = map line_number (s_logs s) ++ numbered true it k /\
    (s_U_valid (u_loop E v fuel it s) = false -> k = fuel) /\
    ((1 <= fuel)%nat ->
     forall acc,
       last_iteration_U (s_logs (u_loop E v fuel it s)) acc
       = Some (s_U_calculated (u_loop E v fuel it s))) /\
    s_deltaP_inner (u_loop E v fuel it s) = s_deltaP_inner s /\
    s_deltaP_ann (u_loop E v fuel it s) = s_deltaP_ann s /\
    s_dp_valid (u_loop E v fuel it s) = s_dp_valid s.
Proof.
  induction fuel as [|fuel IH]; intros it s.
  - exists 0%nat. cbn [u_loop numbered seq map]. rewrite app_nil_r.
    split; [lia|]. split; [lia|]. split; [reflexivity|].
    split; [reflexivity|]. split; [lia|]. auto.
  - destruct (u_loop_pass E v fuel it s)
      as (sn & ((d & Hl) & Hd1 & Hd2 & Hd3) & [[Hv ->]|[Hv ->]]).
    + exists 1%nat. rewrite Hl, Hd1, Hd2, Hd3, map_app.
      cbn [map line_number numbered seq].
      split; [lia|]. split; [lia|]. split; [reflexivity|].
      split; [rewrite Hv; discriminate|].
      split; [|auto]. intros _ acc. rewrite last_iteration_U_app. reflexivity.
    + destruct (IH (S it) sn)
        as (k & Hk & Hk1 & Hlogs & Hvalid & Hlast & H1 & H2 & H3).
      exists (S k). rewrite Hlogs, H1, H2, H3, Hl, Hd1, Hd2, Hd3, map_app,
                      <- app_assoc.
      cbn [map line_number]. rewrite numbered_cons.
      split; [lia|]. split; [lia|]. split; [reflexivity|].
      split; [intros Hout; rewrite (Hvalid Hout); reflexivity|].
      split; [|auto]. intros _ acc.
      destruct fuel as [|fuel]; [|apply Hlast; lia].
      cbn [u_loop]. rewrite Hl, last_iteration_U_app. reflexivity.
Qed.

(** [n] enlargements by 5%. *)
Definition enlarged (n : nat) (x : float) : float :=
  Nat.iter n (fun y => y * 1.05) x.

Definition no_limit (v : env) : bool :=
  match e_allowable_dp_inner v, e_allowable_dp_ann v with
  | None, None => true
  | _, _ => false
  end.

Lemma enlarged_swap n x : enlarged n (x * 1.05) = enlarged (S n) x.
Proof. exact (Nat.iter_swap n float (fun y => y * 1.05) x). Qed.

(** One pass of the second loop that fails a limit. *)
Definition dp_failed_pass (it : nat) (s sn : vars) : Prop :=
  (exists a b c d, s_logs sn = s_logs s ++ [LogDP it a b c d]) /\
  (s_d_i sn = s_d_i s * 1.05 /\ s_D_o sn = s_D_o s \/
   s_d_i sn = s_d_i s /\ s_D_o sn = s_D_o s * 1.05) /\
  s_dp_valid sn = false /\
  s_h_inner sn = s_h_inner s /\ s_h_annulus sn = s_h_annulus s /\
  s_U_calculated sn = s_U_calculated s /\ s_U_valid sn = s_U_valid s.

Lemma dp_loop_pass E v fuel it s :
  (s_logs (dp_loop E v (S fuel) it s) = s_logs s /\
   s_d_i (dp_loop E v (S fuel) it s) = s_d_i s /\
   s_D_o (dp_loop E v (S fuel) it s) = s_D_o s /\
   s_dp_valid (dp_loop E v (S fuel) it s) = true /\
   s_h_inner (dp_loop E v (S fuel) it s) = s_h_inner s /\
   s_h_annulus (dp_loop E v (S fuel) it s) = s_h_annulus s /\
   s_U_calculated (dp_loop E v (S fuel) it s) = s_U_calculated s /\
   s_U_valid (dp_loop E v (S fuel) it s) = s_U_valid s) \/
  (no_limit v = false /\
   exists sn,
     dp_loop E v (S fuel) it s = dp_loop E v fuel (S it) sn /\
     dp_failed_pass it s sn).
Proof.
  remember (dp_loop E v (S fuel) it s) as out eqn:Hout.
  cbn [dp_loop] in Hout.
  match type of Hout with
  | context [if ?c1 && ?c2 then _ else _] => destruct (c1 && c2) eqn:Hok
  end.
  - left. rewrite Hout. cbn. auto 10.
  - right. split.
    { unfold no_limit. unfold within in Hok.
      destruct (e_allowable_dp_inner v), (e_allowable_dp_ann v);
        try reflexivity. discriminate Hok. }
    clear Hok.
    match type of Hout with
    | context [dp_loop E v fuel (S it) ?s'] =>
        exists s'; split; [exact Hout|]; clear Hout;
        match s' with
        | if ?c then _ else _ => destruct c
        end
    end; unfold dp_failed_pass;
      cbn [s_logs s_d_i s_D_o s_dp_valid s_h_inner s_h_annulus
           s_U_calculated s_U_valid];
      (split; [do 4 eexists; reflexivity|]); auto 10.
Qed.

(** The second loop, pass by pass: a pass that fails a limit logs a line
    and enlarges one of the two diameters by 5%; the thermal results of the
    first loop are not touched. *)
Lemma dp_loop_trace E v fuel : forall it s,
  exists a b,
    (a + b <= fuel)%nat /\
    map line_number (s_logs (dp_loop E v fuel it s))
    = map line_number (s_logs s) ++ numbered false it (a + b) /\
    (forall acc, last_iteration_U (s_logs (dp_loop E v fuel it s)) acc
                 = last_iteration_U (s_logs s) acc) /\
    s_d_i (dp_loop E v fuel it s) = enlarged a (s_d_i s) /\
    s_D_o (dp_loop E v fuel it s) = enlarged b (s_D_o s) /\
    (s_dp_valid (dp_loop E v fuel it s) = false -> (a + b)%nat = fuel) /\
    (s_dp_valid s = false -> s_dp_valid (dp_loop E v fuel it s) = true ->
     (a + b < fuel)%nat) /\
    (no_limit v = true -> (1 <= fuel)%nat ->
     (a + b)%nat = 0%nat /\ s_dp_valid (dp_loop E v fuel it s) = true) /\
    s_h_inner (dp_loop E v fuel it s) = s_h_inner s /\
    s_h_annulus (dp_loop E v fuel it s) = s_h_annulus s /\
    s_U_calculated (dp_loop E v fuel it s) = s_U_calculated s /\
    s_U_valid (dp_loop E v fuel it s) = s_U_valid s.
Proof.
  induction fuel as [|fuel IH]; intros it s.
  - exists 0%nat, 0%nat. cbn [dp_loop numbered seq map enlarged Nat.iter].
    rewrite app_nil_r. cbn [Nat.add].
    split; [lia|]. split; [reflexivity|]. split; [reflexivity|].
    split; [reflexivity|]. split; [reflexivity|]. split; [reflexivity|].
    split; [congruence|]. split; [lia|]. auto.
  - destruct (dp_loop_pass E v fuel it s)
      as [(Hl & Hd & HD & Hv & H1 & H2 & H3 & H4)
         |(Hlim & sn & Hnext & (la & lb & lc & ld & Hl) & Hscale & Hv
           & H1 & H2 & H3 & H4)].
    + exists 0%nat, 0%nat. rewrite Hl, Hd, HD, Hv, H1, H2, H3, H4.
      cbn [numbered seq map enlarged Nat.iter Nat.add].
      rewrite app_nil_r.
      split; [lia|]. split; [reflexivity|]. split; [reflexivity|].
      split; [reflexivity|]. split; [reflexivity|]. split; [discriminate|].
      split; [lia|]. auto 10.
    + rewrite Hnext.
      destruct (IH (S it) sn)
        as (a & b & Hab & Hlogs & Hlast & Hdi & HDo & Hf & Ht & _
            & G1 & G2 & G3 & G4).
      assert (Hlast' : forall acc,
                 last_iteration_U (s_logs (dp_loop E v fuel (S it) sn)) acc
                 = last_iteration_U (s_logs s) acc).
      { intros acc. rewrite Hlast, Hl, last_iteration_U_app. reflexivity. }
      rewrite Hlogs, Hdi, HDo, G1, G2, G3, G4, Hl, H1, H2, H3, H4, map_app,
        <- app_assoc.
      cbn [map line_number].
      change ([(false, it)] ++ numbered false (S it) (a + b))
        with (numbered false it (S (a + b))).
      destruct Hscale as [[-> ->]|[-> ->]].
      * exists (S a), b. rewrite enlarged_swap.
        replace (S a + b)%nat with (S (a + b)) by lia.
        split; [lia|]. split; [reflexivity|]. split; [exact Hlast'|].
        split; [reflexivity|]. split; [reflexivity|].
        split; [intros Hout; specialize (Hf Hout); lia|].
        split; [intros _ Hout; specialize (Ht Hv Hout); lia|].
        split; [rewrite Hlim; discriminate|]. auto.
      * exists a, (S b). rewrite enlarged_swap.
        replace (a + S b)%nat with (S (a + b)) by lia.
        split; [lia|]. split; [reflexivity|]. split; [exact Hlast'|].
        split; [reflexivity|]. split; [reflexivity|].
        split; [intros Hout; specialize (Hf Hout); lia|].
        split; [intros _ Hout; specialize (Ht Hv Hout); lia|].
        split; [rewrite Hlim; discriminate|]. auto.
Qed.

(** *** The calls that succeed *)

Definition field (fields : gmap string prim) (key : string) : prim :=
  default PUndefined (fields !! key).

(** [data.key ? parseFloat(data.key) : null] on the fields of an object. *)
Definition limit_of (E : Engine) (fields : gmap string prim) (key : string)
  : option float :=
  if prim_truthy (field fields key) then Some (parseFloat E (field fields key))
  else None.

(** A successful call went through both loops, from a state with an empty
    log and both flags unset. *)
Lemma calculateDPHX_success E data r :
  calculateDPHX E data = Normal (Success r) ->
  exists fields v s0,
    data = ArgObject fields /\
    s_logs s0 = [] /\ s_U_valid s0 = false /\ s_dp_valid s0 = false /\
    e_allowable_dp_inner v = limit_of E fields "allowable_dp_inner" /\
    e_allowable_dp_ann v = limit_of E fields "allowable_dp_ann" /\
    e_d_o v = d_o r /\ (d_o r <=? s_d_i s0) = false /\
    e_U v = U_assumed r /\
    L_required r = A_required r / (Math_PI * d_o r) /\
    A_required r = Q r / (U_assumed r * LMTD r) /\
    r = {| T_h_out := T_h_out r; T_c_out := T_c_out r; Q := Q r;
           LMTD := LMTD r; A_required := A_required r;
           pipe_name := pipe_name r; d_o := d_o r;
           d_i := s_d_i (dp_loop E v max_dp_iterations 1
                           (u_loop E v max_iterations 1 s0));
           D_o := s_D_o (dp_loop E v max_dp_iterations 1
                           (u_loop E v max_iterations 1 s0));
           L_required := L_required r;
           v_inner := s_v_inner (dp_loop E v max_dp_iterations 1
                                   (u_loop E v max_iterations 1 s0));
           v_annulus := s_v_annulus (dp_loop E v max_dp_iterations 1
                                       (u_loop E v max_iterations 1 s0));
           h_inner := s_h_inner (dp_loop E v max_dp_iterations 1
                                   (u_loop E v max_iterations 1 s0));
           h_annulus := s_h_annulus (dp_loop E v max_dp_iterations 1
                                       (u_loop E v max_iterations 1 s0));
           U_calculated :=
             s_U_calculated (dp_loop E v max_dp_iterations 1
                               (u_loop E v max_iterations 1 s0));
           U_assumed := U_assumed r;
           deltaP_inner :=
             s_deltaP_inner (dp_loop E v max_dp_iterations 1
                               (u_loop E v max_iterations 1 s0));
           deltaP_annulus :=
             s_deltaP_ann (dp_loop E v max_dp_iterations 1
                             (u_loop E v max_iterations 1 s0));
           m_h_calc := m_h_calc r; m_c_calc := m_c_calc r;
           logs := s_logs (dp_loop E v max_dp_iterations 1
                             (u_loop E v max_iterations 1 s0));
           U_valid := s_U_valid (dp_loop E v max_dp_iterations 1
                                   (u_loop E v max_iterations 1 s0));
           dp_valid := s_dp_valid (dp_loop E v max_dp_iterations 1
                                     (u_loop E v max_iterations 1 s0)) |}.
Proof.
  intros H. destruct data as [| |fields]; [discriminate H|discriminate H|].
  exists fields. unfold calculateDPHX in H.
  cbn [getFloat getFloatOr getIntOr getOptFloat get mbind completion_bind
       mret completion_ret] in H.
  destruct (select_pipe E (ArgObject fields)) as [[e|[name d_o_]]|e];
    [discriminate H| |discriminate H].
  cbn [mbind completion_bind] in H.
  destruct (select_inner_diameter E (ArgObject fields) d_o_) as [d_i0|e];
    [|discriminate H].
  cbn [mbind completion_bind] in H.
  destruct (select_fouling E (ArgObject fields)) as [Rf|e];
    [|discriminate H].
  cbn [mbind completion_bind mret completion_ret] in H.
  match type of H with
  | context [if ?c then _ else _] => destruct c; [discriminate H|]
  end.
  match type of H with
  | context [match ?c with inl _ => _ | inr _ => _ end] =>
      destruct c as [e|b]; [discriminate H|]
  end.
  match type of H with
  | context [match ?c with inl _ => _ | inr _ => _ end] =>
      destruct c as [e|LMTD_]; [discriminate H|]
  end.
  destruct (d_o_ <=? d_i0) eqn:Hd; [discriminate H|].
  cbn [try_catch mret completion_ret] in H.
  match type of H with
  | context [u_loop E ?v max_iterations 1 ?s0] => exists v, s0
  end.
  assert (Hr : forall x y : sized, Normal (Success x) = Normal (Success y)
                                   -> y = x) by congruence.
  apply Hr in H. clear Hr. rewrite H.
  cbn [s_logs s_U_valid s_dp_valid e_allowable_dp_inner e_allowable_dp_ann
       e_d_o e_U s_d_i d_o U_assumed L_required A_required Q LMTD
       T_h_out T_c_out pipe_name m_h_calc m_c_calc].
  unfold limit_of, field.
  split; [reflexivity|]. split; [reflexivity|]. split; [reflexivity|].
  split; [reflexivity|]. split; [reflexivity|]. split; [reflexivity|].
  split; [reflexivity|]. split; [exact Hd|]. split; [reflexivity|].
  split; [reflexivity|]. split; [reflexivity|]. reflexivity.
Qed.

(** The 25 mm pipe in a 50 mm shell: hot water 2 kg/s cooled from 80 to 50
    degrees by 2.5 kg/s of cold water entering at 20 degrees, with an
    assumed U of 1000. *)
Definition pipe25 : list (string * prim) :=
  [("m_h", PNum 2); ("m_c", PNum 2.5);
   ("T_h_in", PNum 80); ("T_c_in", PNum 20); ("T_h_out", PNum 50);
   ("Cp_h", PNum 4.18); ("rho_h", PNum 997); ("mu_h", PNum 0.00089);
   ("k_h", PNum 0.607);
   ("Cp_c", PNum 4.18); ("rho_c", PNum 997); ("mu_c", PNum 0.00089);
   ("k_c", PNum 0.607);
   ("U_assumed", PNum 1000); ("pipe_size_idx", PNum 2); ("D_o", PNum 0.05)].

Definition pipe25_free : gmap string prim := list_to_map pipe25.

(** The same with 70 kPa allowed on each side. *)
Definition pipe25_limited : gmap string prim :=
  list_to_map (("allowable_dp_inner", PNum 70000)
                 :: ("allowable_dp_ann", PNum 70000) :: pipe25).

Definition no_sizing : sized :=
  {| T_h_out := nan; T_c_out := nan; Q := nan; LMTD := nan;
     A_required := nan; pipe_name := "none"; d_o := nan; d_i := nan;
     D_o := nan; L_required := nan; v_inner := nan; v_annulus := nan;
     h_inner := nan; h_annulus := nan; U_calculated := nan;
     U_assumed := nan; deltaP_inner := nan; deltaP_annulus := nan;
     m_h_calc := nan; m_c_calc := nan; logs := [];
     U_valid := false; dp_valid := false |}.

Definition pipe25_free_result : sized :=
  Eval vm_compute in
    match calculateDPHX RefEngine.engine (ArgObject pipe25_free) with
    | Normal (Success r) => r
    | _ => no_sizing
    end.

Definition pipe25_limited_result : sized :=
  Eval vm_compute in
    match calculateDPHX RefEngine.engine (ArgObject pipe25_limited) with
    | Normal (Success r) => r
    | _ => no_sizing
    end.

Lemma pipe25_free_runs :
  calculateDPHX RefEngine.engine (ArgObject pipe25_free)
  = Normal (Success pipe25_free_result).
Proof. vm_compute. reflexivity. Qed.

Lemma pipe25_limited_runs :
  calculateDPHX RefEngine.engine (ArgObject pipe25_limited)
  = Normal (Success pipe25_limited_result).
Proof. vm_compute. reflexivity. Qed.

(** What both loops did in a successful call. *)
Lemma success_trace E data r :
  calculateDPHX E data = Normal (Success r) ->
  exists fields v s0 nU a b,
    data = ArgObject fields /\
    e_allowable_dp_inner v = limit_of E fields "allowable_dp_inner" /\
    e_allowable_dp_ann v = limit_of E fields "allowable_dp_ann" /\
    s_logs s0 = [] /\
    (d_o r <=? s_d_i s0) = false /\
    (1 <= nU <= 10)%nat /\ (a + b <= 5)%nat /\
    map line_number (logs r) = numbered true 1 nU ++ numbered false 1 (a + b)
    /\
    (U_valid r = false -> nU = 10%nat) /\
    (dp_valid r = false -> (a + b)%nat = 5%nat) /\
    (dp_valid r = true -> (a + b <= 4)%nat) /\
    (no_limit v = true -> (a + b)%nat = 0%nat /\ dp_valid r = true) /\
    last_iteration_U (logs r) None = Some (U_calculated r) /\
    d_i r = enlarged a (s_d_i (u_loop E v max_iterations 1 s0)) /\
    D_o r = enlarged b (s_D_o (u_loop E v max_iterations 1 s0)) /\
    h_inner r = s_h_inner (u_loop E v max_iterations 1 s0) /\
    h_annulus r = s_h_annulus (u_loop E v max_iterations 1 s0) /\
    U_calculated r = s_U_calculated (u_loop E v max_iterations 1 s0) /\
    U_valid r = s_U_valid (u_loop E v max_iterations 1 s0).
Proof.
  intros H.
  destruct (calculateDPHX_success E data r H)
    as (fields & v & s0 & -> & Hl0 & Hu0 & Hd0 & Hli & Hla & _ & Hchk & _
        & _ & _ & Hr).
  destruct (u_loop_trace E v max_iterations 1 s0)
    as (nU & HnU & HnU1 & Hlogs1 & Hvalid1 & Hlast1 & _ & _ & Hdp1).
  destruct (dp_loop_trace E v max_dp_iterations 1
              (u_loop E v max_iterations 1 s0))
    as (a & b & Hab & Hlogs2 & Hlast2 & Hdi & HDo & Hf & Ht & Hnl
        & G1 & G2 & G3 & G4).
  exists fields, v, s0, nU, a, b.
  remember (u_loop E v max_iterations 1 s0) as s1 eqn:Hs1.
  remember (dp_loop E v max_dp_iterations 1 s1) as s2 eqn:Hs2.
  clear Hs1 Hs2 H.
  rewrite Hl0 in Hlogs1. cbn [map app] in Hlogs1.
  rewrite Hlogs1 in Hlogs2. rewrite Hdp1, Hd0 in Ht.
  unfold max_iterations in *. unfold max_dp_iterations in *.
  rewrite Hr.
  cbn [logs U_valid dp_valid U_calculated d_i D_o d_o h_inner h_annulus].
  split; [reflexivity|]. split; [exact Hli|]. split; [exact Hla|].
  split; [exact Hl0|]. split; [exact Hchk|].
  split; [split; [apply HnU1; lia|exact HnU]|]. split; [exact Hab|].
  split; [exact Hlogs2|].
  split; [rewrite G4; exact Hvalid1|]. split; [exact Hf|].
  split; [intros Hv; specialize (Ht eq_refl Hv); lia|].
  split; [intros Hn; apply Hnl; [exact Hn|lia]|].
  split; [rewrite Hlast2, G3; apply Hlast1; lia|].
  split; [exact Hdi|]. split; [exact HDo|]. auto.
Qed.

(** X15: the log of a successful sizing is made of the lines of the first
    loop, numbered 1 to [nU] with [1 <= nU <= 10], followed by the lines of
    the pressure loop, numbered 1 to [nDP] with [nDP <= 5]: at most 15
    lines.  With [U_valid = false] all 10 passes ran; with
    [dp_valid = false] all 5 pressure passes ran and failed, and with
    [dp_valid = true] at most 4 did. *)
Theorem sizing_log_is_bounded E data r :
  calculateDPHX E data = Normal (Success r) ->
  exists nU nDP,
    (1 <= nU <= 10)%nat /\ (nDP <= 5)%nat /\
    map line_number (logs r) = numbered true 1 nU ++ numbered false 1 nDP /\
    length (logs r) = (nU + nDP)%nat /\
    (U_valid r = false -> nU = 10%nat) /\
    (dp_valid r = false -> nDP = 5%nat) /\
    (dp_valid r = true -> (nDP <= 4)%nat).
Proof.
  intros H.
  destruct (success_trace E data r H)
    as (fields & v & s0 & nU & a & b & _ & _ & _ & _ & _ & HnU & Hab & Hlogs
        & HU & Hf & Ht & _).
  exists nU, (a + b)%nat.
  split; [exact HnU|]. split; [exact Hab|]. split; [exact Hlogs|].
  split; [|auto].
  rewrite <- (length_map line_number), Hlogs, length_app.
  unfold numbered. rewrite !length_map, !length_seq. reflexivity.
Qed.

Lemma sizing_log_is_bounded_pipe25 :
  calculateDPHX RefEngine.engine (ArgObject pipe25_limited)
  = Normal (Success pipe25_limited_result) /\
  exists nU nDP,
    (1 <= nU <= 10)%nat /\ (nDP <= 5)%nat /\
    length (logs pipe25_limited_result) = (nU + nDP)%nat.
Proof.
  split; [exact pipe25_limited_runs|].
  destruct (sizing_log_is_bounded RefEngine.engine (ArgObject pipe25_limited)
              pipe25_limited_result pipe25_limited_runs)
    as (nU & nDP & H1 & H2 & _ & H3 & _).
  exists nU, nDP. split; [exact H1|]. split; [exact H2|exact H3].
Defined.

(** X16: the pressure loop only enlarges: each line it logs multiplies
    either [d_i] or [D_o] by 1.05, and it never recomputes the film
    coefficients, the calculated U or [U_valid], so the U a successful
    call reports is the one of the last iteration line of its log, rated
    on the diameters before the enlargements.  Nor is the diameter check
    repeated: on the reference engine the 25 mm pipe with 70 kPa limits
    comes back with an inner diameter above its outer diameter. *)
Theorem pressure_loop_enlarges_without_rerating E :
  (forall v fuel it s,
      exists a b,
        (a + b <= fuel)%nat /\
        map line_number (s_logs (dp_loop E v fuel it s))
        = map line_number (s_logs s) ++ numbered false it (a + b) /\
        s_d_i (dp_loop E v fuel it s) = enlarged a (s_d_i s) /\
        s_D_o (dp_loop E v fuel it s) = enlarged b (s_D_o s) /\
        s_h_inner (dp_loop E v fuel it s) = s_h_inner s /\
        s_h_annulus (dp_loop E v fuel it s) = s_h_annulus s /\
        s_U_calculated (dp_loop E v fuel it s) = s_U_calculated s /\
        s_U_valid (dp_loop E v fuel it s) = s_U_valid s) /\
  (forall data r,
      calculateDPHX E data = Normal (Success r) ->
      last_iteration_U (logs r) None = Some (U_calculated r)) /\
  (exists r,
      calculateDPHX RefEngine.engine (ArgObject pipe25_limited)
      = Normal (Success r) /\
      (d_o r <? d_i r) = true).
Proof.
  split; [|split].
  - intros v fuel it s.
    destruct (dp_loop_trace E v fuel it s)
      as (a & b & Hab & Hlogs & _ & Hdi & HDo & _ & _ & _ & G).
    exists a, b. auto 10.
  - intros data r H.
    destruct (success_trace E data r H)
      as (fields & v & s0 & nU & a & b & _ & _ & _ & _ & _ & _ & _ & _
          & _ & _ & _ & _ & Hlast & _).
    exact Hlast.
  - exists pipe25_limited_result. split; [exact pipe25_limited_runs|].
    vm_compute. reflexivity.
Qed.

(** X17: a call with no pressure limit succeeds with [dp_valid = true] and
    no pressure line in its log; a limit that is missing, [null], 0 or an
    empty string counts as no limit. *)
Theorem no_limits_skip_the_pressure_loop E fields r :
  calculateDPHX E (ArgObject fields) = Normal (Success r) ->
  prim_truthy (field fields "allowable_dp_inner") = false ->
  prim_truthy (field fields "allowable_dp_ann") = false ->
  dp_valid r = true /\
  exists nU,
    (1 <= nU <= 10)%nat /\
    map line_number (logs r) = numbered true 1 nU.
Proof.
  intros H Hi Ha.
  destruct (success_trace E _ r H)
    as (fields' & v & s0 & nU & a & b & Hf & Hli & Hla & _ & _ & HnU & _
        & Hlogs & _ & _ & _ & Hnl & _).
  assert (fields' = fields) as -> by congruence.
  unfold limit_of in Hli, Hla. rewrite Hi in Hli. rewrite Ha in Hla.
  assert (Hno : no_limit v = true) by (unfold no_limit; rewrite Hli, Hla;
                                       reflexivity).
  destruct (Hnl Hno) as [H0 Hv]. split; [exact Hv|].
  exists nU. split; [exact HnU|].
  rewrite Hlogs, H0. cbn [numbered seq map]. apply app_nil_r.
Qed.

Lemma no_limits_skip_the_pressure_loop_pipe25 :
  calculateDPHX RefEngine.engine (ArgObject pipe25_free)
  = Normal (Success pipe25_free_result) /\
  dp_valid pipe25_free_result = true.
Proof.
  split; [exact pipe25_free_runs|].
  apply (no_limits_skip_the_pressure_loop RefEngine.engine pipe25_free
           pipe25_free_result pipe25_free_runs).
  - vm_compute. reflexivity.
  - vm_compute. reflexivity.
Defined.

(** *** The pipe selection *)

Definition pipe_choice_of (E : Engine) (fields : gmap string prim) : float :=
  parseInt E (prim_or (field fields "pipe_choice") (PNum 1)).

Definition pipe_size_idx_of (E : Engine) (fields : gmap string prim)
  : float :=
  parseInt E (prim_or (field fields "pipe_size_idx") (PNum 1)).

Definition id_choice_of (E : Engine) (fields : gmap string prim) : float :=
  parseInt E (prim_or (field fields "id_choice") (PNum 1)).

Lemma field_same fields key v : field (<[key := v]> fields) key = v.
Proof. unfold field. now rewrite lookup_insert_eq. Qed.

(** The raw values of [data.pipe_size_idx] that [||] replaces by 1. *)
Definition reads_as_first : list prim :=
  [PUndefined; PNull; PBool false; PStr ""; PNum 0; PNum (-0); PNum nan].

(** X18: the size index of a standard pipe is
    [parseInt(data.pipe_size_idx || 1)].  With a standard pipe requested,
    when that parsed index is not within 1..4 (NaN included) the call
    returns the pipe-size error whatever else the object holds: the check
    comes before every other validation.  The test is on the parsed
    index, not on the raw field: a field that is missing, [null], [false],
    [''], 0 or NaN reads as 1, a Number printed in positional notation is
    truncated towards zero (4.7 reads as 4 and 0.5 as 0) and a string is
    left to [parseInt]; so a raw 5, -1 or 0.5 is rejected, and a raw 0 or
    4.7 is not. *)
Theorem pipe_index_out_of_range_is_rejected_first E fields :
  ((pipe_choice_of E fields =? 1) = true ->
   (1 <=? pipe_size_idx_of E fields) && (pipe_size_idx_of E fields <=? 4)
   = false ->
   calculateDPHX E (ArgObject fields) = Normal (Error err_pipe_size)) /\
  (forall v, In v reads_as_first ->
             pipe_size_idx_of E (<["pipe_size_idx" := v]> fields) = 1) /\
  (forall x,
      truthy x = true -> is_infinity x = false ->
      (1e-6 <=? abs x) && (abs x <? 1e21) = true ->
      pipe_size_idx_of E (<["pipe_size_idx" := PNum x]> fields)
      = if x <? 0 then Math_ceil x else Math_floor x) /\
  (forall s, s <> EmptyString ->
             pipe_size_idx_of E (<["pipe_size_idx" := PStr s]> fields)
             = parseInt_string E s) /\
  pipe_size_idx_of E (<["pipe_size_idx" := PNum 4.7]> fields) = 4 /\
  pipe_size_idx_of E (<["pipe_size_idx" := PNum 5]> fields) = 5 /\
  pipe_size_idx_of E (<["pipe_size_idx" := PNum (-1)]> fields) = -1 /\
  pipe_size_idx_of E (<["pipe_size_idx" := PNum 0.5]> fields) = 0 /\
  (forall v, In v [PNum 5; PNum (-1); PNum 0.5] ->
     (pipe_choice_of E (<["pipe_size_idx" := v]> fields) =? 1) = true ->
     calculateDPHX E (ArgObject (<["pipe_size_idx" := v]> fields))
     = Normal (Error err_pipe_size)).
Proof.
  assert (Hrej : forall fields',
             (pipe_choice_of E fields' =? 1) = true ->
             (1 <=? pipe_size_idx_of E fields')
             && (pipe_size_idx_of E fields' <=? 4) = false ->
             calculateDPHX E (ArgObject fields')
             = Normal (Error err_pipe_size)).
  { intros fields' Hpc Hidx. unfold calculateDPHX.
    cbn [getFloat getFloatOr getIntOr get mbind completion_bind
         mret completion_ret].
    unfold select_pipe.
    cbn [getFloat getFloatOr getIntOr get mbind completion_bind
         mret completion_ret].
    fold (field fields' "pipe_choice"). fold (pipe_choice_of E fields').
    rewrite Hpc.
    cbn [getFloat getFloatOr getIntOr get mbind completion_bind
         mret completion_ret].
    fold (field fields' "pipe_size_idx"). fold (pipe_size_idx_of E fields').
    rewrite Hidx. reflexivity. }
  assert (Hnum : forall x,
             truthy x = true -> is_infinity x = false ->
             (1e-6 <=? abs x) && (abs x <? 1e21) = true ->
             pipe_size_idx_of E (<["pipe_size_idx" := PNum x]> fields)
             = if x <? 0 then Math_ceil x else Math_floor x).
  { intros x Hx Hinf Hpos. unfold pipe_size_idx_of. rewrite field_same.
    unfold prim_or, prim_truthy. rewrite Hx. unfold parseInt.
    unfold truthy in Hx. apply negb_true_iff, orb_false_iff in Hx.
    destruct Hx as [Hnan Hz]. rewrite Hnan, Hinf, Hz, Hpos. reflexivity. }
  split; [exact (Hrej fields)|].
  split.
  { intros v Hv. unfold pipe_size_idx_of. rewrite field_same.
    unfold reads_as_first in Hv. cbn [In] in Hv.
    repeat destruct Hv as [<-|Hv]; try reflexivity; contradiction. }
  split; [exact Hnum|].
  split.
  { intros s Hs. unfold pipe_size_idx_of. rewrite field_same.
    unfold prim_or, prim_truthy.
    apply String.eqb_neq in Hs. rewrite Hs. reflexivity. }
  assert (H47 : pipe_size_idx_of E (<["pipe_size_idx" := PNum 4.7]> fields)
                = 4)
    by (rewrite Hnum; vm_compute; reflexivity).
  assert (H5 : pipe_size_idx_of E (<["pipe_size_idx" := PNum 5]> fields) = 5)
    by (rewrite Hnum; vm_compute; reflexivity).
  assert (Hm1 : pipe_size_idx_of E (<["pipe_size_idx" := PNum (-1)]> fields)
                = -1)
    by (rewrite Hnum; vm_compute; reflexivity).
  assert (H05 : pipe_size_idx_of E (<["pipe_size_idx" := PNum 0.5]> fields)
                = 0)
    by (rewrite Hnum; vm_compute; reflexivity).
  split; [exact H47|]. split; [exact H5|]. split; [exact Hm1|].
  split; [exact H05|].
  intros v Hv Hpc. apply Hrej; [exact Hpc|].
  cbn [In] in Hv. destruct Hv as [<-|[<-|[<-|[]]]].
  - rewrite H5. vm_compute. reflexivity.
  - rewrite Hm1. vm_compute. reflexivity.
  - rewrite H05. vm_compute. reflexivity.
Qed.

Lemma pipe_index_out_of_range_is_rejected_first_idx_5 :
  calculateDPHX RefEngine.engine
    (ArgObject (list_to_map [("pipe_size_idx", PNum 5)]))
  = Normal (Error err_pipe_size) /\
  pipe_size_idx_of RefEngine.engine
    (<["pipe_size_idx" := PNum 4.7]> (list_to_map [("pipe_size_idx", PNum 5)]))
  = 4.
Proof.
  destruct (pipe_index_out_of_range_is_rejected_first RefEngine.engine
              (list_to_map [("pipe_size_idx", PNum 5)]))
    as (Hrej & _ & _ & _ & H47 & _).
  split; [|exact H47].
  apply Hrej; vm_compute; reflexivity.
Defined.

Lemma pipe_at_database idx name d :
  pipe_at idx = Some (name, d) ->
  In (name, d) standard_pipes_list /\
  exists di, pipe_database d = Some di /\ (d <=? di) = false.
Proof.
  unfold pipe_at.
  repeat match goal with
         | |- context [if ?c then _ else _] => destruct c
         end;
    cbn [nth_error standard_pipes_list]; intros [= <- <-];
    (split; [unfold standard_pipes_list; cbn [In]; auto 10|]);
    eexists; (split; [vm_compute; reflexivity|vm_compute; reflexivity]).
Qed.

Lemma sizing_balance_errors m_h m_c T_h_in T_c_in T_h_out T_c_out Cp_h Cp_c
  e :
  energy_balance m_h m_c T_h_in T_c_in T_h_out T_c_out Cp_h Cp_c = inl e ->
  e = err_need_temps \/ e = err_balance.
Proof.
  unfold energy_balance.
  repeat match goal with
         | |- context [if ?c then _ else _] => destruct c
         end; intros [= <-]; auto.
Qed.

Lemma sizing_lmtd_errors E flow_type T_h_in T_c_in T_h_out T_c_out e :
  lmtd_of E flow_type T_h_in T_c_in T_h_out T_c_out = inl e ->
  In e [err_cross_counter; err_cross_co; err_flow_type; err_lmtd].
Proof.
  unfold lmtd_of.
  repeat match goal with
         | |- context [if ?c then _ else _] => destruct c
         end; intros [= <-]; cbn [In]; auto 10.
Qed.

Lemma select_fouling_object E fields :
  exists Rf, select_fouling E (ArgObject fields) = Normal Rf.
Proof.
  unfold select_fouling.
  cbn [getFloat getFloatOr getIntOr get mbind completion_bind
       mret completion_ret].
  repeat match goal with
         | |- context [if ?c then _ else _] => destruct c
         end; eexists; reflexivity.
Qed.

(** X19: with a standard pipe and the tabulated inner diameter (the two
    defaults) the pipe is one of the four of the list, its inner diameter
    comes from the table and is below the outer one, so the call never
    returns the diameter error. *)
Theorem standard_pipe_passes_the_diameter_check E fields :
  (pipe_choice_of E fields =? 1) = true ->
  (id_choice_of E fields =? 1) = true ->
  calculateDPHX E (ArgObject fields) <> Normal (Error err_diameters) /\
  forall r,
    calculateDPHX E (ArgObject fields) = Normal (Success r) ->
    In (pipe_name r, d_o r) standard_pipes_list.
Proof.
  intros Hpc Hid. unfold calculateDPHX.
  cbn [getFloat getFloatOr getIntOr getOptFloat get mbind completion_bind
       mret completion_ret].
  unfold select_pipe.
  cbn [getFloat getFloatOr getIntOr get mbind completion_bind
       mret completion_ret].
  fold (field fields "pipe_choice"). fold (pipe_choice_of E fields).
  rewrite Hpc.
  cbn [getFloat getFloatOr getIntOr get mbind completion_bind
       mret completion_ret].
  destruct ((1 <=? _) && (_ <=? 4));
    [|cbn [try_catch]; split; [discriminate|discriminate]].
  destruct (pipe_at _) as [[name d]|] eqn:Hpipe;
    [|cbn [try_catch]; split; [discriminate|discriminate]].
  destruct (pipe_at_database _ _ _ Hpipe) as (Hin & di & Hdb & Hlt).
  cbn [mbind completion_bind].
  unfold select_inner_diameter.
  cbn [getFloat getFloatOr getIntOr get mbind completion_bind
       mret completion_ret].
  fold (field fields "id_choice"). fold (id_choice_of E fields).
  rewrite Hid, Hdb.
  cbn [mbind completion_bind mret completion_ret].
  destruct (select_fouling_object E fields) as (Rf & ->).
  cbn [mbind completion_bind mret completion_ret].
  match goal with
  | |- context [if ?c then _ else _] =>
      destruct c; [cbn [try_catch]; split; discriminate|]
  end.
  match goal with
  | |- context [match ?c with inl _ => _ | inr _ => _ end] =>
      destruct c as [e|b] eqn:Hb
  end.
  { apply sizing_balance_errors in Hb as [->| ->]; cbn [try_catch];
      split; discriminate. }
  match goal with
  | |- context [match ?c with inl _ => _ | inr _ => _ end] =>
      destruct c as [e|LMTD_] eqn:HL
  end.
  { apply sizing_lmtd_errors in HL.
    cbn [In] in HL. destruct HL as [<-|[<-|[<-|[<-|[]]]]]; cbn [try_catch];
      split; discriminate. }
  rewrite Hlt. cbn [try_catch mret completion_ret].
  split; [discriminate|].
  intros r Hr.
  assert (Hr' : forall x y : sized, Normal (Success x) = Normal (Success y)
                                    -> y = x) by congruence.
  apply Hr' in Hr. rewrite Hr. cbn [pipe_name d_o]. exact Hin.
Qed.

Lemma standard_pipe_passes_the_diameter_check_pipe25 :
  calculateDPHX RefEngine.engine (ArgObject pipe25_free)
  <> Normal (Error err_diameters) /\
  In (pipe_name pipe25_free_result, d_o pipe25_free_result)
    standard_pipes_list.
Proof.
  assert (Hpc : (pipe_choice_of RefEngine.engine pipe25_free =? 1) = true)
    by (vm_compute; reflexivity).
  assert (Hid : (id_choice_of RefEngine.engine pipe25_free =? 1) = true)
    by (vm_compute; reflexivity).
  destruct (standard_pipe_passes_the_diameter_check RefEngine.engine
              pipe25_free Hpc Hid) as [H1 H2].
  split; [exact H1|]. apply H2. exact pipe25_free_runs.
Defined.

End DPHXv2Extra.

(** ** More on the single-pass shell-and-tube rating *)

Module STHXBasicExtra.

Import JS Arg STHXBasic FloatFacts FloatNaN.
Local Open Scope float_scope.

Definition field (fields : gmap string prim) (key : string) : prim :=
  default PUndefined (fields !! key).

Lemma basic_balance_errors m_h m_c T_h_in T_c_in T_h_out T_c_out Cp_h Cp_c
  e :
  energy_balance m_h m_c T_h_in T_c_in T_h_out T_c_out Cp_h Cp_c = inl e ->
  e = err_no_mass_flow \/ e = err_need_temps.
Proof.
  unfold energy_balance.
  repeat match goal with
         | |- context [if ?c then _ else _] => destruct c
         end; intros [= <-]; auto.
Qed.

(** With both flows and both outlet temperatures the balance is not
    checked: the duty is the one of the hot stream. *)
Lemma energy_balance_unchecked m_h m_c T_h_in T_c_in T_h_out T_c_out
  Cp_h Cp_c :
  is_nan m_h = false -> is_nan m_c = false ->
  (T_h_out =? -1) = false -> (T_c_out =? -1) = false ->
  energy_balance m_h m_c T_h_in T_c_in T_h_out T_c_out Cp_h Cp_c
  = inr {| b_m_h := m_h; b_m_c := m_c; b_T_h_out := T_h_out;
           b_T_c_out := T_c_out; b_Q := m_h * Cp_h * (T_h_in - T_h_out) |}.
Proof.
  intros H1 H2 H3 H4. unfold energy_balance.
  rewrite H1, H2, H3, H4. reflexivity.
Qed.

Lemma basic_lmtd_errors E T_h_in T_c_in T_h_out T_c_out e :
  lmtd_of E T_h_in T_c_in T_h_out T_c_out = inl e -> e = err_temp_cross.
Proof.
  unfold lmtd_of.
  match goal with
  | |- context [if ?c then _ else _] => destruct c
  end; intros [= <-]; reflexivity.
Qed.

(** The fields the rating reads for the two streams, as it parses them. *)
Definition num (E : Engine) (fields : gmap string prim) (key : string)
  : float :=
  parseFloat E (field fields key).

Definition num_or (E : Engine) (fields : gmap string prim) (key : string)
  (d : float) : float :=
  parseFloat E (prim_or (field fields key) (PNum d)).

(** X20: for an object argument the single-pass rating has three errors
    only: no mass flow, a missing outlet temperature when a flow is
    unknown, and a temperature cross.  Nothing else it is given (geometry,
    properties, an energy balance that does not close) is rejected. *)
Theorem basic_rating_has_three_errors E fields e :
  calculateSTHX E (ArgObject fields) = Normal (Error e) ->
  In e [err_no_mass_flow; err_need_temps; err_temp_cross].
Proof.
  unfold calculateSTHX.
  cbn [getFloat getFloatOr getIntOr get mbind completion_bind
       mret completion_ret].
  match goal with
  | |- context [match ?c with inl _ => _ | inr _ => _ end] =>
      destruct c as [e'|b] eqn:Hb
  end.
  { apply basic_balance_errors in Hb.
    cbn [try_catch]. intros [= <-]. destruct Hb as [->| ->]; cbn [In]; auto. }
  match goal with
  | |- context [match ?c with inl _ => _ | inr _ => _ end] =>
      destruct c as [e'|L] eqn:HL
  end.
  { apply basic_lmtd_errors in HL.
    cbn [try_catch]. intros [= <-]. rewrite HL. cbn [In]. auto. }
  cbn [try_catch mret completion_ret]. discriminate.
Qed.

Lemma basic_rating_has_three_errors_empty_object :
  calculateSTHX RefEngine.engine (ArgObject ∅)
  = Normal (Error err_no_mass_flow) /\
  In err_no_mass_flow [err_no_mass_flow; err_need_temps; err_temp_cross].
Proof.
  assert (H : calculateSTHX RefEngine.engine (ArgObject ∅)
              = Normal (Error err_no_mass_flow)) by (vm_compute; reflexivity).
  split; [exact H|].
  exact (basic_rating_has_three_errors RefEngine.engine ∅ err_no_mass_flow H).
Defined.

(** X21: with both flows and both outlet temperatures given and no
    temperature cross, the single-pass rating succeeds with the duty of the
    hot stream, [m_h Cp_h (T_h_in - T_h_out)]: the cold stream's duty is
    never compared with it. *)
Theorem basic_rating_does_not_check_the_balance E fields :
  is_nan (num E fields "m_h") = false ->
  is_nan (num E fields "m_c") = false ->
  (num_or E fields "T_h_out" (-1) =? -1) = false ->
  (num_or E fields "T_c_out" (-1) =? -1) = false ->
  (num E fields "T_h_in" - num_or E fields "T_c_out" (-1) <=? 0) = false ->
  (num_or E fields "T_h_out" (-1) - num E fields "T_c_in" <=? 0) = false ->
  exists r,
    calculateSTHX E (ArgObject fields) = Normal (Success r) /\
    Q r = num E fields "m_h" * (num E fields "Cp_h" * 1000)
          * (num E fields "T_h_in" - num_or E fields "T_h_out" (-1)) /\
    T_h_out r = num_or E fields "T_h_out" (-1) /\
    T_c_out r = num_or E fields "T_c_out" (-1) /\
    m_h r = num E fields "m_h" /\
    m_c r = num E fields "m_c".
Proof.
  intros H1 H2 H3 H4 H5 H6. unfold calculateSTHX.
  cbn [getFloat getFloatOr getIntOr get mbind completion_bind
       mret completion_ret].
  fold (field fields "m_h") (field fields "m_c") (field fields "T_h_in")
    (field fields "T_c_in") (field fields "T_h_out")
    (field fields "T_c_out") (field fields "Cp_h").
  fold (num E fields "m_h") (num E fields "m_c") (num E fields "T_h_in")
    (num E fields "T_c_in") (num E fields "Cp_h").
  fold (num_or E fields "T_h_out" (-1)) (num_or E fields "T_c_out" (-1)).
  rewrite (energy_balance_unchecked _ _ _ _ _ _ _ _ H1 H2 H3 H4).
  unfold lmtd_of. cbn [b_T_h_out b_T_c_out]. rewrite H5, H6.
  cbn [orb try_catch mret completion_ret b_Q b_m_c b_m_h b_T_c_out
       b_T_h_out].
  eexists. split; [reflexivity|].
  cbn [Q T_c_out T_h_out m_c m_h]. auto 10.
Qed.

(** Hot water 2 kg/s cooled from 80 to 50 degrees (250.8 kW) against cold
    water 2.5 kg/s heated from 20 to 30 degrees (104.5 kW). *)
Definition unbalanced : gmap string prim :=
  list_to_map (("T_h_out", PNum 50) :: ("T_c_out", PNum 30)
                 :: DPHXFacts.water 2 2.5).

(** The unbalanced streams are rated with a duty of 250.8 kW; the
    double-pipe optimizer rejects the same streams. *)
Lemma basic_rating_does_not_check_the_balance_unbalanced :
  (exists r,
      calculateSTHX RefEngine.engine (ArgObject unbalanced)
      = Normal (Success r) /\ Q r = 250800) /\
  DPHX.calculateDPHX RefEngine.engine (ArgObject unbalanced)
  = Normal (DPHX.Error DPHX.err_mismatch).
Proof.
  split; [|vm_compute; reflexivity].
  destruct (basic_rating_does_not_check_the_balance RefEngine.engine
              unbalanced)
    as (r & Hr & HQ & _); try (vm_compute; reflexivity).
  exists r. split; [exact Hr|]. rewrite HQ. vm_compute. reflexivity.
Defined.

End STHXBasicExtra.

(** ** The sign of a difference and of a quotient

    For binary64 values the sign of [t - c] decides the order of [t] and
    [c], and a negative quotient has operands of opposite signs.  Both are
    read off the specification of the operations on mantissas and
    exponents; a mantissa is below [2^53] and, above the smallest
    exponent, at least [2^52]. *)

Module FloatSign.

Local Open Scope Z_scope.

Lemma digits2_pos_bounds m :
  2 ^ (Zpos (digits2_pos m) - 1) <= Zpos m < 2 ^ Zpos (digits2_pos m).
Proof.
  induction m as [m IH|m IH|]; cbn [digits2_pos].
  - rewrite Pos2Z.inj_succ.
    replace (Z.succ (Zpos (digits2_pos m)) - 1)
      with (Z.succ (Zpos (digits2_pos m) - 1)) by lia.
    rewrite !Z.pow_succ_r by lia. lia.
  - rewrite Pos2Z.inj_succ.
    replace (Z.succ (Zpos (digits2_pos m)) - 1)
      with (Z.succ (Zpos (digits2_pos m) - 1)) by lia.
    rewrite !Z.pow_succ_r by lia. lia.
  - cbn. lia.
Qed.

Lemma iter_xO m d : Zpos (Pos.iter xO m d) = Zpos m * 2 ^ Zpos d.
Proof.
  change (Pos.iter xO m d) with (shift_pos d m).
  rewrite shift_pos_correct.
  change (2 ^ Z.pos d) with (Z.pow_pos 2 d). lia.
Qed.

(** The mantissa of a binary64 value is below [2^53], and at least [2^52]
    unless the exponent is the smallest one. *)
Lemma bounded_mantissa m e :
  bounded prec emax m e = true ->
  -1074 <= e /\ Zpos m < 2 ^ 53 /\ (-1074 < e -> 2 ^ 52 <= Zpos m).
Proof.
  unfold bounded, canonical_mantissa, fexp, emin, prec, emax.
  intros H. apply andb_prop in H as [H _]. apply Z.eqb_eq in H.
  pose proof (digits2_pos_bounds m) as [Hlo Hhi].
  assert (Hd : Zpos (digits2_pos m) <= 53) by lia.
  split; [lia|]. split.
  - apply Z.lt_le_trans with (1 := Hhi).
    apply Z.pow_le_mono_r; lia.
  - intros He. assert (Hd53 : Zpos (digits2_pos m) = 53) by lia.
    rewrite Hd53 in Hlo. exact Hlo.
Qed.

(** The aligned mantissa: [m 2^(e - ez)]. *)
Lemma shl_align_value m e ez :
  ez <= e -> Zpos (fst (shl_align m e ez)) = Zpos m * 2 ^ (e - ez).
Proof.
  intros H. unfold shl_align.
  destruct (ez - e) as [|d|d] eqn:Hd; cbn [fst].
  - replace (e - ez) with 0 by lia. lia.
  - lia.
  - rewrite iter_xO. f_equal. f_equal. lia.
Qed.

Lemma pow2_ge_2 k : 1 <= k -> 2 <= 2 ^ k.
Proof.
  intros H. change 2 with (2 ^ 1) at 1. apply Z.pow_le_mono_r; lia.
Qed.

(** The sign of the exact difference of two finite values decides their
    order. *)
Lemma finite_difference_sign sx mx ex sy my ey :
  bounded prec emax mx ex = true ->
  bounded prec emax my ey = true ->
  let ez := Z.min ex ey in
  let D := cond_Zopp sx (Zpos (fst (shl_align mx ex ez)))
           - cond_Zopp sy (Zpos (fst (shl_align my ey ez))) in
  (0 < D ->
   SFcompare (S754_finite sy my ey) (S754_finite sx mx ex) = Some Lt) /\
  (D < 0 ->
   SFcompare (S754_finite sx mx ex) (S754_finite sy my ey) = Some Lt).
Proof.
  intros Hx Hy ez D.
  apply bounded_mantissa in Hx as (Hex & Hmx & Hnx).
  apply bounded_mantissa in Hy as (Hey & Hmy & Hny).
  assert (Ha : Zpos (fst (shl_align mx ex ez)) = Zpos mx * 2 ^ (ex - ez))
    by (apply shl_align_value; subst ez; lia).
  assert (Hb : Zpos (fst (shl_align my ey ez)) = Zpos my * 2 ^ (ey - ez))
    by (apply shl_align_value; subst ez; lia).
  subst D. rewrite Ha, Hb. clear Ha Hb.
  assert (H253 : 2 ^ 53 = 2 * 2 ^ 52) by reflexivity.
  cbn [SFcompare].
  destruct (Z.compare_spec ex ey) as [Heq|Hlt|Hgt].
  - (* same exponent *)
    assert (ez = ex) by (subst ez; lia). subst ey.
    replace (ex - ez) with 0 by lia. rewrite Z.pow_0_r, !Z.mul_1_r.
    rewrite Z.compare_refl.
    change (Pos.compare_cont Eq my mx) with (Pos.compare my mx).
    change (Pos.compare_cont Eq mx my) with (Pos.compare mx my).
    destruct sx, sy; cbn [cond_Zopp]; split; intros HD;
      try reflexivity; try lia;
      match goal with
      | |- context [Pos.compare ?a ?b] =>
          destruct (Pos.compare_spec a b); cbn [CompOpp];
          try reflexivity; lia
      end.
  - (* x has the smaller exponent: y is normal *)
    assert (ez = ex) by (subst ez; lia).
    replace (ex - ez) with 0 by lia. rewrite Z.pow_0_r, Z.mul_1_r.
    assert (Hk : 2 <= 2 ^ (ey - ez)) by (apply pow2_ge_2; lia).
    assert (Hbig : Zpos mx < Zpos my * 2 ^ (ey - ez)) by nia.
    rewrite (proj2 (Z.compare_gt_iff ey ex) Hlt).
    destruct sx, sy; cbn [cond_Zopp]; split; intros HD;
      try reflexivity; lia.
  - assert (ez = ey) by (subst ez; lia).
    replace (ey - ez) with 0 by lia. rewrite Z.pow_0_r, Z.mul_1_r.
    assert (Hk : 2 <= 2 ^ (ex - ez)) by (apply pow2_ge_2; lia).
    assert (Hbig : Zpos my < Zpos mx * 2 ^ (ex - ez)) by nia.
    rewrite (proj2 (Z.compare_lt_iff ey ex) Hgt).
    destruct sx, sy; cbn [cond_Zopp]; split; intros HD;
      try reflexivity; lia.
Qed.

(** The sign of a value that is not NaN. *)
Definition sign_of (x : spec_float) : option bool :=
  match x with
  | S754_zero s | S754_infinity s | S754_finite s _ _ => Some s
  | S754_nan => None
  end.

Lemma binary_round_aux_sign s m e l :
  sign_of (binary_round_aux prec emax s m e l) = Some s \/
  binary_round_aux prec emax s m e l = S754_nan.
Proof.
  unfold binary_round_aux.
  destruct (shr_fexp prec emax m e l) as [mrs' e'].
  destruct (shr_fexp prec emax _ e' loc_Exact) as [mrs'' e''].
  destruct (shr_m mrs''); [left; reflexivity| |right; reflexivity].
  destruct (e'' <=? emax - prec); left; reflexivity.
Qed.

Definition zero : spec_float := S754_zero false.

Lemma ltb_zero_sign x :
  (SFltb zero x = true -> sign_of x = Some false) /\
  (SFltb x zero = true -> sign_of x = Some true).
Proof.
  destruct x as [[]|[]| |[] m e]; cbn; split;
    try discriminate; reflexivity.
Qed.

Lemma binary_normalize_sign D e :
  (SFltb zero (binary_normalize prec emax D e false) = true -> 0 < D) /\
  (SFltb (binary_normalize prec emax D e false) zero = true -> D < 0).
Proof.
  destruct D as [|m|m]; cbn [binary_normalize].
  - split; discriminate.
  - unfold binary_round.
    destruct (shl_align m e _) as [mz ez].
    destruct (binary_round_aux_sign false (Zpos mz) ez loc_Exact) as [H|H];
      split; intros Hlt; try lia; exfalso.
    + apply ltb_zero_sign in Hlt. congruence.
    + rewrite H in Hlt. discriminate.
  - unfold binary_round.
    destruct (shl_align m e _) as [mz ez].
    destruct (binary_round_aux_sign true (Zpos mz) ez loc_Exact) as [H|H];
      split; intros Hlt; try lia; exfalso.
    + apply ltb_zero_sign in Hlt. congruence.
    + rewrite H in Hlt. discriminate.
Qed.

(** The sign of a difference decides the order of its terms. *)
Lemma SFsub_sign x y :
  valid_binary x = true -> valid_binary y = true ->
  (SFltb zero (SFsub prec emax x y) = true -> SFltb y x = true) /\
  (SFltb (SFsub prec emax x y) zero = true -> SFltb x y = true).
Proof.
  intros Hx Hy.
  destruct x as [sx|sx| |sx mx ex], y as [sy|sy| |sy my ey];
    try (cbn; split; discriminate);
    try (destruct sx; cbn; split; (discriminate || reflexivity));
    try (destruct sy; cbn; split; (discriminate || reflexivity));
    try (destruct sx, sy; cbn; split; (discriminate || reflexivity)).
  cbn [valid_binary] in Hx, Hy. cbn [SFsub].
  pose proof (finite_difference_sign sx mx ex sy my ey Hx Hy) as [Hpos Hneg].
  cbv zeta in Hpos, Hneg.
  pose proof (binary_normalize_sign
                (cond_Zopp sx (Zpos (fst (shl_align mx ex (Z.min ex ey))))
                 - cond_Zopp sy (Zpos (fst (shl_align my ey (Z.min ex ey)))))
                (Z.min ex ey)) as [Hp Hn].
  unfold SFltb at 2 4.
  split; intros H.
  - rewrite (Hpos (Hp H)). reflexivity.
  - rewrite (Hneg (Hn H)). reflexivity.
Qed.

(** A negative quotient has operands of opposite signs. *)
Lemma SFdiv_sign x r :
  SFltb (SFdiv prec emax x r) zero = true ->
  SFeqb r zero = false ->
  SFltb r zero = true /\ SFltb zero x = true \/
  SFltb zero r = true /\ SFltb x zero = true.
Proof.
  destruct x as [sx|sx| |sx mx ex], r as [sr|sr| |sr mr er];
    try (cbn; discriminate);
    try (destruct sx, sr; cbn; intros H1 H2;
         try discriminate H1; try discriminate H2; auto).
  all: cbn [SFdiv] in H1.
  all: destruct (SFdiv_core_binary prec emax (Zpos mx) ex (Zpos mr) er)
         as [[mz ez] lz].
  all: match type of H1 with
       | context [binary_round_aux prec emax ?s ?a ?b ?c] =>
           destruct (binary_round_aux_sign s a b c) as [H|H];
           [apply ltb_zero_sign in H1; cbn [xorb] in *; congruence
           |rewrite H in H1; discriminate H1]
       end.
Qed.

Local Open Scope float_scope.

Lemma Prim2SF_zero : Prim2SF 0 = zero.
Proof. reflexivity. Qed.

Lemma sub_pos t c : (0 <? t - c) = true -> (c <? t) = true.
Proof.
  rewrite !ltb_spec, sub_spec, Prim2SF_zero.
  apply SFsub_sign; apply Prim2SF_valid.
Qed.

Lemma sub_neg t c : (t - c <? 0) = true -> (t <? c) = true.
Proof.
  rewrite !ltb_spec, sub_spec, Prim2SF_zero.
  apply SFsub_sign; apply Prim2SF_valid.
Qed.

Lemma div_neg x r :
  (x / r <? 0) = true -> (r =? 0) = false ->
  (r <? 0) = true /\ (0 <? x) = true \/
  (0 <? r) = true /\ (x <? 0) = true.
Proof.
  rewrite !ltb_spec, FloatAxioms.eqb_spec, div_spec, Prim2SF_zero.
  apply SFdiv_sign.
Qed.

End FloatSign.

(** ** The trend model *)

Module PredictionExtra.

Import JS Prediction FloatFacts FloatNaN.
Local Open Scope float_scope.

(** A value that is a zero or NaN. *)
Definition zero_or_nan (x : float) : Prop :=
  match Prim2SF x with
  | S754_zero _ | S754_nan => True
  | _ => False
  end.

Lemma zero_or_nan_mul_zero s x y :
  Prim2SF x = S754_zero s -> zero_or_nan (x * y).
Proof.
  unfold zero_or_nan. rewrite mul_spec. intros ->.
  now destruct (Prim2SF y) as [[]|[]| |[] m e].
Qed.

Lemma zero_or_nan_mul x y :
  zero_or_nan y -> zero_or_nan (x * y).
Proof.
  unfold zero_or_nan. rewrite mul_spec.
  destruct (Prim2SF y) as [[]|[]| |[] m e]; try contradiction; intros _;
    now destruct (Prim2SF x) as [[]|[]| |[] m' e'].
Qed.

Lemma zero_or_nan_add x y :
  zero_or_nan x -> zero_or_nan y -> zero_or_nan (x + y).
Proof.
  unfold zero_or_nan. rewrite add_spec.
  destruct (Prim2SF x) as [[]|[]| |[] m e]; try contradiction; intros _;
    destruct (Prim2SF y) as [[]|[]| |[] m' e']; try contradiction; intros _;
    exact I.
Qed.

Lemma zero_or_nan_sub x y :
  zero_or_nan x -> zero_or_nan y -> zero_or_nan (x - y).
Proof.
  unfold zero_or_nan. rewrite sub_spec.
  destruct (Prim2SF x) as [[]|[]| |[] m e]; try contradiction; intros _;
    destruct (Prim2SF y) as [[]|[]| |[] m' e']; try contradiction; intros _;
    exact I.
Qed.

Lemma zero_or_nan_div x y :
  zero_or_nan x -> zero_or_nan y -> is_nan (x / y) = true.
Proof.
  unfold zero_or_nan. rewrite is_nan_spec, div_spec.
  destruct (Prim2SF x) as [[]|[]| |[] m e]; try contradiction; intros _;
    destruct (Prim2SF y) as [[]|[]| |[] m' e']; try contradiction; intros _;
    reflexivity.
Qed.

Lemma zero_or_nan_zero : zero_or_nan 0.
Proof. exact I. Qed.

(** With fewer than two points both terms of the slope are zero or NaN. *)
Lemma regress_short y_data :
  (length y_data < 2)%nat ->
  is_nan (m (regress y_data)) = true.
Proof.
  intros Hlen.
  destruct y_data as [|y [|y' rest]]; [| |cbn [length] in Hlen; lia].
  - vm_compute. reflexivity.
  - unfold regress. cbn [length regress_loop number sumX sumY sumXY sumXX m].
    apply zero_or_nan_div.
    + apply zero_or_nan_sub.
      * apply zero_or_nan_mul. apply zero_or_nan_add; [exact I|].
        now apply (zero_or_nan_mul_zero false).
      * now apply (zero_or_nan_mul_zero false).
    + exact I.
Qed.

Lemma Math_floor_nan x : is_nan x = true -> is_nan (Math_floor x) = true.
Proof. intros H. unfold Math_floor. rewrite H. exact H. Qed.

Lemma predictRUL_nan current_val threshold rate :
  (rate =? 0) = false ->
  is_nan ((threshold - current_val) / rate) = true ->
  is_nan (predictRUL current_val threshold rate) = true.
Proof.
  intros Hr Hd. unfold predictRUL. rewrite Hr.
  rewrite (ltb_nan_l _ 0 Hd). cbn [andb]. apply Math_floor_nan, Hd.
Qed.

Lemma is_nan_eqb_zero x : is_nan x = true -> (x =? 0) = false.
Proof.
  rewrite is_nan_spec, FloatAxioms.eqb_spec. intros ->. reflexivity.
Qed.

(** X22: a regression over fewer than two readings has no slope: [m] and
    [c] are NaN, and the remaining life predicted from that slope is NaN
    (not 0, not 999) for every current value and threshold. *)
Theorem regression_needs_two_points y_data :
  (length y_data < 2)%nat ->
  is_nan (m (regress y_data)) = true /\
  is_nan (c (regress y_data)) = true /\
  forall current_val threshold,
    is_nan (predictRUL current_val threshold (m (regress y_data))) = true.
Proof.
  intros Hlen. pose proof (regress_short y_data Hlen) as Hm.
  split; [exact Hm|]. split.
  - unfold regress in *. cbn [m c] in *.
    apply is_nan_div_l, is_nan_sub_r, is_nan_mul_l, Hm.
  - intros current_val threshold. apply predictRUL_nan.
    + apply is_nan_eqb_zero, Hm.
    + apply is_nan_div_r, Hm.
Qed.

Lemma regression_needs_two_points_one_reading :
  (length [850] < 2)%nat /\
  is_nan (m (regress [850])) = true /\ is_nan (c (regress [850])) = true.
Proof.
  assert (H : (length [850] < 2)%nat) by (cbn [length]; lia).
  split; [exact H|].
  destruct (regression_needs_two_points [850] H) as (H1 & H2 & _).
  split; [exact H1|exact H2].
Defined.

Lemma ltb_asym x y : (x <? y) = true -> (y <? x) = false.
Proof.
  intros H. destruct (y <? x) eqn:H'; [|reflexivity].
  pose proof (ltb_trans _ _ _ H H') as C. now rewrite ltb_irrefl in C.
Qed.

(** X25: the two "already passed" tests of [predictRUL] come to one: with
    a rate that is not zero, a negative day count always returns 0 (the
    comparisons of the current value with the threshold never fail when
    the day count is negative), and every other day count is returned
    rounded down; a zero rate returns 999. *)
Theorem negative_projection_is_reported_as_zero current_val threshold rate :
  predictRUL current_val threshold rate
  = if rate =? 0 then 999
    else if (threshold - current_val) / rate <? 0 then 0
         else Math_floor ((threshold - current_val) / rate).
Proof.
  unfold predictRUL. destruct (rate =? 0) eqn:Hr; [reflexivity|].
  cbv zeta.
  destruct ((threshold - current_val) / rate <? 0) eqn:Hd;
    [|reflexivity].
  cbn [andb].
  destruct (FloatSign.div_neg _ _ Hd Hr) as [[Hrate Hx]|[Hrate Hx]].
  - rewrite Hrate, (FloatSign.sub_pos _ _ Hx). reflexivity.
  - rewrite (ltb_asym _ _ Hrate), Hrate, (FloatSign.sub_neg _ _ Hx).
    reflexivity.
Qed.

(** *** A reading that is NaN *)

Lemma is_nan_minuend x y : is_nan x = true -> is_nan (x - y) = true.
Proof.
  rewrite !is_nan_spec, sub_spec. intros ->. reflexivity.
Qed.

Lemma is_nan_add_l x y : is_nan x = true -> is_nan (x + y) = true.
Proof.
  rewrite !is_nan_spec, add_spec. intros ->. reflexivity.
Qed.

Lemma is_nan_add_r x y : is_nan y = true -> is_nan (x + y) = true.
Proof.
  rewrite !is_nan_spec, add_spec. intros ->.
  now destruct (Prim2SF x) as [[]|[]| |[] m e].
Qed.

Lemma ltb_nan_r x y : is_nan y = true -> (x <? y) = false.
Proof.
  intros H. destruct (x <? y) eqn:Hlt; [|reflexivity].
  apply ltb_not_nan in Hlt as [_ Hy]. congruence.
Qed.

Lemma fold_add_nan l : forall acc,
  is_nan acc = true -> is_nan (fold_left (fun a b => a + b) l acc) = true.
Proof.
  induction l as [|y l IH]; intros acc H; [exact H|].
  cbn [fold_left]. apply IH, is_nan_add_l, H.
Qed.

Lemma sum_nan l y : In y l -> is_nan y = true -> is_nan (sum l) = true.
Proof.
  unfold sum. generalize 0. induction l as [|x l IH]; intros acc Hin Hy;
    [destruct Hin|].
  cbn [fold_left]. destruct Hin as [->|Hin].
  - apply fold_add_nan, is_nan_add_r, Hy.
  - apply IH; assumption.
Qed.

Lemma regress_loop_sumY_nan l : forall i s,
  is_nan (sumY s) = true -> is_nan (sumY (regress_loop i l s)) = true.
Proof.
  induction l as [|y l IH]; intros i s H; [exact H|].
  cbn [regress_loop]. apply IH. cbn [sumY]. apply is_nan_add_l, H.
Qed.

Lemma regress_loop_nan l y : forall i s,
  In y l -> is_nan y = true -> is_nan (sumY (regress_loop i l s)) = true.
Proof.
  induction l as [|x l IH]; intros i s Hin Hy; [destruct Hin|].
  cbn [regress_loop]. destruct Hin as [->|Hin].
  - apply regress_loop_sumY_nan. cbn [sumY]. apply is_nan_add_r, Hy.
  - apply IH; assumption.
Qed.

(** X27: one NaN reading anywhere in the series makes the regression
    useless: the slope and the intercept are NaN, and so is the remaining
    life predicted from that slope. *)
Theorem nan_reading_spoils_the_regression y_data y :
  In y y_data -> is_nan y = true ->
  is_nan (m (regress y_data)) = true /\
  is_nan (c (regress y_data)) = true /\
  forall current_val threshold,
    is_nan (predictRUL current_val threshold (m (regress y_data))) = true.
Proof.
  intros Hin Hy.
  pose proof (regress_loop_nan y_data y 0
                {| sumX := 0; sumY := 0; sumXY := 0; sumXX := 0 |} Hin Hy)
    as HsY.
  assert (Hm : is_nan (m (regress y_data)) = true).
  { unfold regress. cbn [m].
    apply is_nan_div_l, is_nan_sub_r, is_nan_mul_r, HsY. }
  split; [exact Hm|]. split.
  - unfold regress. cbn [c]. apply is_nan_div_l, is_nan_minuend, HsY.
  - intros current_val threshold. apply predictRUL_nan.
    + apply is_nan_eqb_zero, Hm.
    + apply is_nan_div_r, Hm.
Qed.

Lemma nan_reading_spoils_the_regression_dropout :
  In nan [850; nan; 845] /\ is_nan nan = true /\
  is_nan (m (regress [850; nan; 845])) = true.
Proof.
  assert (Hin : In nan [850; nan; 845]) by (cbn [In]; auto).
  assert (Hn : is_nan nan = true) by reflexivity.
  split; [exact Hin|]. split; [exact Hn|].
  apply (nan_reading_spoils_the_regression [850; nan; 845] nan Hin Hn).
Defined.

(** The status [analyzePump] gives when only the two thresholds on the
    current reading count. *)
Definition threshold_status (cur : float) : string :=
  if 4.5 <? cur then "Critical"
  else if 2.5 <? cur then "Warning" else "Healthy".

(** X28: with an empty series, or with one NaN reading anywhere in it, the
    z-score of [analyzePump] is NaN and its anomaly test never fires: the
    status is decided by the two thresholds on the current reading
    alone. *)
Theorem nan_reading_disables_the_anomaly_test E Vib_series :
  Vib_series = [] \/ (exists y, In y Vib_series /\ is_nan y = true) ->
  is_nan (z_score (analyzePump E Vib_series)) = true /\
  status (analyzePump E Vib_series)
  = threshold_status
      (default nan (nth_error Vib_series (length Vib_series - 1))).
Proof.
  intros H.
  assert (Hmean : is_nan (sum Vib_series
                          / number (length Vib_series)) = true).
  { destruct H as [->|(y & Hin & Hy)]; [vm_compute; reflexivity|].
    apply is_nan_div_l, (sum_nan _ y Hin Hy). }
  unfold analyzePump.
  set (cur := default nan (nth_error Vib_series (length Vib_series - 1))).
  set (mean := sum Vib_series / number (length Vib_series)) in *.
  set (std := Math_sqrt _).
  assert (Hz : is_nan ((cur - mean) / std) = true)
    by (apply is_nan_div_l, is_nan_sub_r, Hmean).
  rewrite (ltb_nan_r 3 _ Hz), orb_false_r. unfold threshold_status.
  destruct (4.5 <? cur); [split; [exact Hz|reflexivity]|].
  destruct (2.5 <? cur); split; (exact Hz || reflexivity).
Qed.

Lemma nan_reading_disables_the_anomaly_test_dropout :
  (exists y, In y [1.2; nan; 1.3; 9.5] /\ is_nan y = true) /\
  status (analyzePump RefEngine.engine [1.2; nan; 1.3; 9.5]) = "Critical"%string
  /\
  is_nan (z_score (analyzePump RefEngine.engine [1.2; nan; 1.3; 9.5])) = true.
Proof.
  assert (H : exists y, In y [1.2; nan; 1.3; 9.5] /\ is_nan y = true).
  { exists nan. split; [cbn [In]; auto|reflexivity]. }
  split; [exact H|].
  destruct (nan_reading_disables_the_anomaly_test RefEngine.engine
              [1.2; nan; 1.3; 9.5] (or_intror H)) as [Hz Hs].
  split; [rewrite Hs; vm_compute; reflexivity|exact Hz].
Defined.

End PredictionExtra.

(** ** More on the inputs of the double-pipe optimizer *)

Module DPHXInputs.

Import JS Arg DPHX DPHXFacts FloatFacts FloatNaN.
Local Open Scope float_scope.

(** [parseInt(v || 1)], the flow type read from the value [v]. *)
Definition flow_type_of (E : Engine) (v : prim) : float :=
  parseInt E (prim_or v (PNum 1)).

(** [p] with another flow type. *)
Definition set_flow_type (p : inputs) (ft : float) : inputs :=
  {| in_m_h := in_m_h p; in_T_h_in := in_T_h_in p;
     in_T_h_out := in_T_h_out p;
     in_m_c := in_m_c p; in_T_c_in := in_T_c_in p;
     in_T_c_out := in_T_c_out p;
     in_Cp_h := in_Cp_h p; in_rho_h := in_rho_h p; in_mu_h := in_mu_h p;
     in_k_h := in_k_h p;
     in_Cp_c := in_Cp_c p; in_rho_c := in_rho_c p; in_mu_c := in_mu_c p;
     in_k_c := in_k_c p;
     in_flow_type := ft; in_foul_h := in_foul_h p;
     in_foul_c := in_foul_c p |}.

Lemma parsed_flow_type E fields v :
  parsed E (<["flow_type" := v]> fields)
  = set_flow_type (parsed E fields) (flow_type_of E v).
Proof.
  unfold parsed, set_flow_type, flow_type_of.
  cbn [in_m_h in_T_h_in in_T_h_out in_m_c in_T_c_in in_T_c_out in_Cp_h
       in_rho_h in_mu_h in_k_h in_Cp_c in_rho_c in_mu_c in_k_c in_flow_type
       in_foul_h in_foul_c].
  rewrite DPHXExtra.field_insert_same.
  rewrite !field_insert_other by discriminate. reflexivity.
Qed.

(** The fields of the parsed inputs that the rating of a pair reads. *)
Definition rating_inputs (p : inputs) :=
  (in_rho_h p, in_rho_c p, in_mu_h p, in_mu_c p, in_Cp_h p, in_Cp_c p,
   in_k_h p, in_k_c p, in_foul_h p, in_foul_c p).

Lemma rate_reads E p p' t inner outer :
  rating_inputs p = rating_inputs p' ->
  rate E p t inner outer = rate E p' t inner outer.
Proof.
  unfold rating_inputs. intros [= H1 H2 H3 H4 H5 H6 H7 H8 H9 H10].
  unfold rate. rewrite H1, H2, H3, H4, H5, H6, H7, H8, H9, H10. reflexivity.
Qed.

Lemma search_step_reads E p p' t max_dp st pr :
  rating_inputs p = rating_inputs p' ->
  search_step E p t max_dp st pr = search_step E p' t max_dp st pr.
Proof.
  intros H. unfold search_step. destruct pr as [inner outer].
  rewrite (rate_reads E p p' t inner outer H). reflexivity.
Qed.

Lemma fold_search_reads E p p' t max_dp l :
  rating_inputs p = rating_inputs p' ->
  forall st,
    fold_left (search_step E p t max_dp) l st
    = fold_left (search_step E p' t max_dp) l st.
Proof.
  intros H. induction l as [|pr l IH]; intros st; [reflexivity|].
  cbn [fold_left]. rewrite (search_step_reads E p p' t max_dp st pr H).
  apply IH.
Qed.

Lemma search_reads E p p' t max_dp :
  rating_inputs p = rating_inputs p' ->
  search E p t max_dp = search E p' t max_dp.
Proof. intros H. unfold search. apply fold_search_reads, H. Qed.

(** With a flow type other than 1 the balance does not depend on it and
    reports no temperature cross. *)
Lemma energy_balance_other_flow_type E p a b :
  (a =? 1) = false -> (b =? 1) = false ->
  energy_balance E (set_flow_type p a) = energy_balance E (set_flow_type p b)
  /\ energy_balance E (set_flow_type p a) <> inl err_temp_cross.
Proof.
  intros Ha Hb. unfold energy_balance, with_lmtd, lmtd_of.
  cbn [set_flow_type in_m_h in_T_h_in in_T_h_out in_m_c in_T_c_in
       in_T_c_out in_Cp_h in_Cp_c in_flow_type].
  rewrite Ha, Hb. cbn [andb].
  split; [reflexivity|].
  repeat match goal with
         | |- context [if ?c then _ else _] => destruct c
         end; discriminate.
Qed.

(** X23: the flow type is only compared with 1: every other value (2, 3, a
    word that does not parse) selects the co-current temperature
    differences, and the call then never reports a temperature cross.  Two
    calls that differ only in such a flow type return the same result. *)
Theorem other_flow_types_are_co_current E fields v1 v2 :
  (flow_type_of E v1 =? 1) = false ->
  (flow_type_of E v2 =? 1) = false ->
  calculateDPHX E (ArgObject (<["flow_type" := v1]> fields))
  = calculateDPHX E (ArgObject (<["flow_type" := v2]> fields)) /\
  calculateDPHX E (ArgObject (<["flow_type" := v1]> fields))
  <> Normal (Error err_temp_cross).
Proof.
  intros H1 H2. rewrite !calculateDPHX_object, !parsed_flow_type.
  assert (Hm : forall v, max_dp_of E (<["flow_type" := v]> fields)
                         = max_dp_of E fields).
  { intros v. unfold max_dp_of.
    now rewrite field_insert_other by discriminate. }
  rewrite !Hm.
  destruct (energy_balance_other_flow_type E (parsed E fields) _ _ H1 H2)
    as [Heq Hne].
  rewrite <- Heq.
  destruct (energy_balance E
              (set_flow_type (parsed E fields) (flow_type_of E v1)))
    as [e|t].
  - split; [reflexivity|]. intros C. apply Hne. congruence.
  - rewrite (search_reads E
               (set_flow_type (parsed E fields) (flow_type_of E v1))
               (set_flow_type (parsed E fields) (flow_type_of E v2))
               t (max_dp_of E fields) eq_refl).
    split; [reflexivity|].
    remember (search E _ t (max_dp_of E fields)) as st eqn:Hst. clear Hst.
    unfold finish. destruct (best_design st); discriminate.
Qed.

Lemma other_flow_types_are_co_current_scenarioA :
  (flow_type_of RefEngine.engine (PNum 2) =? 1) = false /\
  (flow_type_of RefEngine.engine (PStr "counter") =? 1) = false /\
  calculateDPHX RefEngine.engine
    (ArgObject (<["flow_type" := PNum 2]> scenarioA_fields))
  = calculateDPHX RefEngine.engine
      (ArgObject (<["flow_type" := PStr "counter"]> scenarioA_fields)).
Proof.
  assert (H1 : (flow_type_of RefEngine.engine (PNum 2) =? 1) = false)
    by (vm_compute; reflexivity).
  assert (H2 : (flow_type_of RefEngine.engine (PStr "counter") =? 1) = false)
    by (vm_compute; reflexivity).
  split; [exact H1|]. split; [exact H2|].
  apply (other_flow_types_are_co_current RefEngine.engine scenarioA_fields
           (PNum 2) (PStr "counter") H1 H2).
Defined.

(** The values that [||] replaces by a default. *)
Definition falsy : list prim :=
  [PUndefined; PNull; PBool false; PStr ""; PNum 0; PNum (-0); PNum nan].

Lemma falsy_takes_default E v d :
  In v falsy -> parseFloat E (prim_or v (PNum d)) = parseFloat E (PNum d).
Proof.
  unfold falsy. cbn [In].
  intros H; repeat destruct H as [<-|H]; try reflexivity; contradiction.
Qed.

Lemma default_fouling_parses E :
  parseFloat E (prim_or (PNum 0.0002) (PNum 0.0002)) = 0.0002 /\
  parseFloat E (PNum 0.0002) = 0.0002.
Proof. split; reflexivity. Qed.

(** X24: a fouling factor given as the number 0 (or as -0, NaN, [''],
    [null], [false], or left out) is replaced by the default:
    [data.Rf_h || 0.0002] reads it as 0.0002, and the call returns what it
    returns for a fouling factor of 0.0002.  Every other number is used as
    given, and a string that is not empty, ['0'] included, is truthy and
    goes to [parseFloat] as written.  The same holds for [Rf_c]. *)
Theorem zero_fouling_reads_as_default E fields :
  (forall v, In v falsy ->
     calculateDPHX E (ArgObject (<["Rf_h" := v]> fields))
     = calculateDPHX E (ArgObject (<["Rf_h" := PNum 0.0002]> fields)) /\
     calculateDPHX E (ArgObject (<["Rf_c" := v]> fields))
     = calculateDPHX E (ArgObject (<["Rf_c" := PNum 0.0002]> fields))) /\
  (forall x, truthy x = true ->
     in_foul_h (parsed E (<["Rf_h" := PNum x]> fields)) = x /\
     in_foul_c (parsed E (<["Rf_c" := PNum x]> fields)) = x) /\
  (forall s, s <> EmptyString ->
     in_foul_h (parsed E (<["Rf_h" := PStr s]> fields))
     = parseFloat_string E s /\
     in_foul_c (parsed E (<["Rf_c" := PStr s]> fields))
     = parseFloat_string E s).
Proof.
  split; [|split].
  - intros v Hv. rewrite !calculateDPHX_object.
    destruct (default_fouling_parses E) as [Hd Hd'].
    assert (Hh : parsed E (<["Rf_h" := v]> fields)
                 = parsed E (<["Rf_h" := PNum 0.0002]> fields)).
    { unfold parsed.
      rewrite !DPHXExtra.field_insert_same,
        (falsy_takes_default E v 0.0002 Hv), Hd, Hd'.
      rewrite !field_insert_other by discriminate. reflexivity. }
    assert (Hc : parsed E (<["Rf_c" := v]> fields)
                 = parsed E (<["Rf_c" := PNum 0.0002]> fields)).
    { unfold parsed.
      rewrite !DPHXExtra.field_insert_same,
        (falsy_takes_default E v 0.0002 Hv), Hd, Hd'.
      rewrite !field_insert_other by discriminate. reflexivity. }
    assert (Hm : forall key w w',
               key <> "allowable_dp_inner"%string ->
               max_dp_of E (<[key := w]> fields)
               = max_dp_of E (<[key := w']> fields)).
    { intros key w w' Hk. unfold max_dp_of.
      now rewrite !field_insert_other by exact Hk. }
    rewrite Hh, Hc.
    rewrite (Hm "Rf_h"%string v (PNum 0.0002)) by discriminate.
    rewrite (Hm "Rf_c"%string v (PNum 0.0002)) by discriminate.
    split; reflexivity.
  - intros x Hx. unfold parsed. cbn [in_foul_h in_foul_c].
    rewrite !DPHXExtra.field_insert_same.
    unfold prim_or, prim_truthy. rewrite Hx. unfold parseFloat.
    unfold truthy in Hx. apply negb_true_iff, orb_false_iff in Hx.
    destruct Hx as [_ ->]. split; reflexivity.
  - intros s Hs. unfold parsed. cbn [in_foul_h in_foul_c].
    rewrite !DPHXExtra.field_insert_same.
    unfold prim_or, prim_truthy.
    apply String.eqb_neq in Hs. rewrite Hs. split; reflexivity.
Qed.

Lemma zero_fouling_reads_as_default_scenarioA :
  In (PNum 0) falsy /\
  calculateDPHX RefEngine.engine
    (ArgObject (<["Rf_h" := PNum 0]> scenarioA_fields))
  = calculateDPHX RefEngine.engine
      (ArgObject (<["Rf_h" := PNum 0.0002]> scenarioA_fields)).
Proof.
  assert (H : In (PNum 0) falsy) by (unfold falsy; cbn [In]; tauto).
  split; [exact H|].
  destruct (zero_fouling_reads_as_default RefEngine.engine scenarioA_fields)
    as [Hfalsy _].
  exact (proj1 (Hfalsy (PNum 0) H)).
Defined.

End DPHXInputs.

(** ** The terminal temperature differences of a returned design *)

Module DPHXCross.

Import JS Arg DPHX DPHXFacts FloatFacts FloatNaN.
Local Open Scope float_scope.

Lemma is_nan_sub_l x y : is_nan x = true -> is_nan (x - y) = true.
Proof.
  rewrite !is_nan_spec, sub_spec. intros ->. reflexivity.
Qed.

Lemma eqb_not_nan x y :
  (x =? y) = true -> is_nan x = false /\ is_nan y = false.
Proof.
  unfold is_nan. rewrite !FloatAxioms.eqb_spec. unfold SFeqb.
  destruct (Prim2SF x) as [[]|[]| |[] m e],
           (Prim2SF y) as [[]|[]| |[] m' e']; cbn; try discriminate;
    intros _; split; try reflexivity;
    rewrite ?Z.compare_refl, ?Pos.compare_cont_refl; reflexivity.
Qed.

(** A value that is not NaN and not [<= 0] is positive. *)
Lemma not_leb_zero_pos x :
  is_nan x = false -> (x <=? 0) = false -> (0 <? x) = true.
Proof.
  intros Hn. rewrite leb_spec, ltb_spec.
  assert (Hx : Prim2SF x <> S754_nan).
  { intros C. apply is_nan_spec in C. congruence. }
  change (Prim2SF 0) with (S754_zero false).
  destruct (Prim2SF x) as [[]|[]| |[] m e]; cbn; try discriminate;
    try reflexivity. contradiction.
Qed.

(** The mean temperature difference of a balance that passed is the one of
    its own outlet temperatures. *)
Lemma energy_balance_lmtd E p t :
  energy_balance E p = inr t ->
  lmtd_of E (in_flow_type p) (in_T_h_in p) (in_T_c_in p)
    (th_T_h_out t) (th_T_c_out t) = inr (th_LMTD t).
Proof.
  unfold energy_balance, with_lmtd.
  repeat match goal with
         | |- context [if ?c then _ else _] => destruct c
         end; try discriminate;
    match goal with
    | |- context [match ?c with inl _ => _ | inr _ => _ end] =>
        destruct c as [e|L] eqn:HL; [discriminate|]
    end;
    intros [= <-]; cbn [th_T_h_out th_T_c_out th_LMTD]; exact HL.
Qed.

(** The two temperature differences [lmtd_of] works with. *)
Definition dt1_of (flow_type T_h_in T_c_in T_h_out T_c_out : float) : float :=
  if flow_type =? 1 then T_h_in - T_c_out else T_h_in - T_c_in.

Definition dt2_of (flow_type T_h_in T_c_in T_h_out T_c_out : float) : float :=
  if flow_type =? 1 then T_h_out - T_c_in else T_h_out - T_c_out.

Lemma lmtd_positive_differences E ft T_h_in T_c_in T_h_out T_c_out L :
  lmtd_of E ft T_h_in T_c_in T_h_out T_c_out = inr L ->
  is_nan L = false ->
  (0 <? dt1_of ft T_h_in T_c_in T_h_out T_c_out) = true /\
  (0 <? dt2_of ft T_h_in T_c_in T_h_out T_c_out) = true.
Proof.
  unfold lmtd_of.
  fold (dt1_of ft T_h_in T_c_in T_h_out T_c_out).
  fold (dt2_of ft T_h_in T_c_in T_h_out T_c_out).
  set (dt1 := dt1_of ft T_h_in T_c_in T_h_out T_c_out).
  set (dt2 := dt2_of ft T_h_in T_c_in T_h_out T_c_out).
  destruct ((ft =? 1) && _); [discriminate|]. cbv zeta.
  destruct ((dt1 <=? 0) || (dt2 <=? 0)) eqn:Hle; [discriminate|].
  apply orb_false_elim in Hle as [H1 H2].
  intros [= <-] HL.
  assert (Hn : is_nan dt1 = false /\ is_nan dt2 = false).
  { destruct (dt1 =? dt2) eqn:Heq; [apply eqb_not_nan, Heq|].
    split.
    - destruct (is_nan dt1) eqn:C; [|reflexivity].
      rewrite (is_nan_div_l _ _ (is_nan_sub_l _ dt2 C)) in HL. discriminate.
    - destruct (is_nan dt2) eqn:C; [|reflexivity].
      rewrite (is_nan_div_l _ _ (is_nan_sub_r dt1 _ C)) in HL. discriminate. }
  destruct Hn as [Hn1 Hn2].
  split; apply not_leb_zero_pos; assumption.
Qed.

(** X26: a design the optimizer returns has no temperature cross: both
    terminal temperature differences are strictly positive, NaN excluded.
    In counter-current flow the cold outlet is below the hot inlet and the
    cold inlet below the hot outlet; otherwise the cold inlet is below the
    hot inlet and the cold outlet below the hot outlet. *)
Theorem returned_design_has_no_temperature_cross E fields b l :
  calculateDPHX E (ArgObject fields) = Normal (Success b l) ->
  if in_flow_type (parsed E fields) =? 1
  then (T_c_out b <? in_T_h_in (parsed E fields)) = true /\
       (in_T_c_in (parsed E fields) <? T_h_out b) = true
  else (in_T_c_in (parsed E fields) <? in_T_h_in (parsed E fields)) = true /\
       (T_c_out b <? T_h_out b) = true.
Proof.
  rewrite calculateDPHX_object.
  destruct (energy_balance E (parsed E fields)) as [e|t] eqn:Hb;
    [discriminate|].
  pose proof (search_inv_final E (parsed E fields) t (max_dp_of E fields))
    as [_ Hbest].
  pose proof (EntryFacts.search_best_is_finite E (parsed E fields) t
                (max_dp_of E fields)) as Hfin.
  remember (search E (parsed E fields) t (max_dp_of E fields)) as st.
  clear Heqst. unfold finish.
  destruct (best_design st) as [b'|]; [|discriminate].
  intros H. assert (b' = b) as -> by congruence. clear H.
  specialize (Hfin b eq_refl).
  destruct Hbest as (_ & _ & (pre & post & Hsplit & _) & _).
  assert (Hin : In b (trials E (parsed E fields) t))
    by (rewrite Hsplit; apply in_elt).
  destruct (DPHXExtra.trials_in _ _ _ _ Hin) as (inner & outer & _ & _ & Hd).
  assert (HL : is_nan (th_LMTD t) = false).
  { destruct (is_nan (th_LMTD t)) eqn:C; [|reflexivity].
    rewrite Hd in Hfin.
    rewrite ltb_nan_l in Hfin
      by (apply DPHXExtra.nan_duty_nan_area; right; exact C).
    discriminate Hfin. }
  assert (Hh : T_h_out b = th_T_h_out t) by (rewrite Hd; reflexivity).
  assert (Hc : T_c_out b = th_T_c_out t) by (rewrite Hd; reflexivity).
  rewrite Hh, Hc.
  destruct (lmtd_positive_differences E _ _ _ _ _ _
              (energy_balance_lmtd E _ _ Hb) HL) as [H1 H2].
  unfold dt1_of in H1. unfold dt2_of in H2.
  destruct (in_flow_type (parsed E fields) =? 1);
    split; apply FloatSign.sub_pos; assumption.
Qed.

Lemma returned_design_has_no_temperature_cross_scenarioA :
  exists b l,
    calculateDPHX RefEngine.engine scenarioA = Normal (Success b l) /\
    (T_c_out b <? 80) = true /\ (20 <? T_h_out b) = true.
Proof.
  pose proof scenarioA_runs as Hc. unfold scenarioA_result in Hc.
  eexists. eexists. split; [exact Hc|].
  exact (returned_design_has_no_temperature_cross RefEngine.engine
           scenarioA_fields _ _ Hc).
Defined.

End DPHXCross.

(** ** The design engine without its fluid objects *)

Module STHXProFacts.

Import JS Arg STHX STHXPro STHXFacts STHXExtra.
Local Open Scope float_scope.

Lemma calculateDuty_both h k :
  STHXPro.calculateDuty (Some h) (Some k)
  = Normal (STHX.calculateDuty h k).
Proof.
  unfold STHXPro.calculateDuty, STHX.calculateDuty.
  cbn [read mbind completion_bind].
  destruct (truthy (fluid_m h) && truthy (fluid_Tin h)
            && truthy (fluid_Tout h)); [reflexivity|].
  destruct (truthy (fluid_m k) && truthy (fluid_Tin k)
            && truthy (fluid_Tout k)); reflexivity.
Qed.

(** The merged object and the sides of a call with manual allocation. *)
Lemma manual_call c h k :
  String.eqb (call_allocation_mode c) "auto" = false ->
  mode (D_of (with_fluids c h k)) = call_mode c /\
  shell_side (D_of (with_fluids c h k))
  = (if String.eqb (call_allocation c) "hot_shell" then h else k) /\
  tube_side (D_of (with_fluids c h k))
  = (if String.eqb (call_allocation c) "hot_shell" then k else h).
Proof.
  intros Hauto. unfold D_of, allocated.
  change (allocation_mode (merge_defaults (with_fluids c h k)))
    with (call_allocation_mode c).
  rewrite Hauto. cbn [fst]. split; [reflexivity|].
  unfold shell_side, tube_side.
  change (allocation (merge_defaults (with_fluids c h k)))
    with (call_allocation c).
  split; reflexivity.
Qed.

(** With both fluid objects the call never throws: it is the call of
    [STHX.calculateSTHX]. *)
Lemma calculateSTHX_Pro_both E c h k :
  call_hot c = Some h -> call_cold c = Some k ->
  calculateSTHX_Pro E c = Normal (calculateSTHX E (with_fluids c h k)).
Proof.
  intros Hh Hk. unfold calculateSTHX_Pro. rewrite Hh, Hk. cbv zeta.
  destruct (String.eqb (call_allocation_mode c) "auto") eqn:Hauto;
    [reflexivity|].
  destruct (manual_call c h k Hauto) as (Hmode & Hsh & Htu).
  destruct (String.eqb (call_mode c) "design") eqn:Hdesign.
  - assert (Hm : String.eqb (mode (D_of (with_fluids c h k))) "design"
                 = true) by (rewrite Hmode; exact Hdesign).
    assert (HQ : duty_of (with_fluids c h k)
                 = if String.eqb (call_allocation c) "hot_shell"
                   then STHX.calculateDuty h k else STHX.calculateDuty k h).
    { unfold duty_of. rewrite Hsh, Htu.
      destruct (String.eqb (call_allocation c) "hot_shell"); reflexivity. }
    destruct (String.eqb (call_allocation c) "hot_shell");
      rewrite calculateDuty_both; cbn [mbind completion_bind];
      rewrite <- HQ;
      (destruct (design_mode_outcomes E (with_fluids c h k) Hm)
         as [(Hf & Hrun)|(Ht & _)];
       [rewrite Hf, Hrun; reflexivity|rewrite Ht; reflexivity]).
  - destruct (String.eqb (call_allocation c) "hot_shell"); reflexivity.
Qed.

(** The special case of design mode: the shell-side fluid alone decides
    the duty, and that duty is zero or NaN. *)
Definition shell_alone_without_duty (c : Call) : Prop :=
  String.eqb (call_allocation_mode c) "auto" = false /\
  String.eqb (call_mode c) "design" = true /\
  exists s,
    (if String.eqb (call_allocation c) "hot_shell"
     then call_hot c else call_cold c) = Some s /\
    truthy (fluid_m s) && truthy (fluid_Tin s) && truthy (fluid_Tout s)
    = true /\
    truthy (fluid_m s * fluid_cp s * (fluid_Tin s - fluid_Tout s)) = false.

(** Without one of the fluid objects the call throws a [TypeError], the
    special case apart. *)
Lemma calculateSTHX_Pro_missing E c :
  call_hot c = None \/ call_cold c = None ->
  (exists key, In key ["mu"; "m"; "Tin"; "Tout"]%string /\
               calculateSTHX_Pro E c = Throw (type_error key)) \/
  (calculateSTHX_Pro E c = Normal (Error err_no_duty) /\
   shell_alone_without_duty c).
Proof.
  intros Hmiss. unfold calculateSTHX_Pro, shell_alone_without_duty.
  cbv zeta.
  destruct (String.eqb (call_allocation_mode c) "auto") eqn:Hauto.
  { left. exists "mu"%string. split; [cbn [In]; auto|].
    destruct (call_hot c) as [h|]; [|reflexivity].
    destruct (call_cold c) as [k|]; [|reflexivity].
    destruct Hmiss as [C|C]; discriminate C. }
  destruct (String.eqb (call_mode c) "design") eqn:Hdesign.
  - unfold STHXPro.calculateDuty.
    destruct (String.eqb (call_allocation c) "hot_shell");
      destruct (call_hot c) as [h|]; destruct (call_cold c) as [k|];
      try (destruct Hmiss as [C|C]; discriminate C);
      cbn [read mbind completion_bind mret completion_ret];
      try (left; exists "m"%string; split; [cbn [In]; auto|reflexivity]).
    all: match goal with
         | |- context [truthy (fluid_m ?s) && truthy (fluid_Tin ?s)
                       && truthy (fluid_Tout ?s)] =>
             destruct (truthy (fluid_m s) && truthy (fluid_Tin s)
                       && truthy (fluid_Tout s)) eqn:Hs;
             cbn [read mbind completion_bind mret completion_ret];
             [|left; exists "m"%string;
               split; [cbn [In]; auto|reflexivity]];
             destruct (truthy (fluid_m s * fluid_cp s
                               * (fluid_Tin s - fluid_Tout s))) eqn:HQ;
             cbn [negb read mbind completion_bind mret completion_ret];
             [|right; split; [reflexivity|];
               split; [reflexivity|]; split; [reflexivity|];
               exists s; auto]
         end.
    + left. exists "Tout"%string. split; [cbn [In]; auto|reflexivity].
    + left. exists "Tin"%string. split; [cbn [In]; auto|reflexivity].
  - left. exists "m"%string. split; [cbn [In]; auto|].
    destruct (String.eqb (call_allocation c) "hot_shell");
      destruct (call_hot c) as [h|]; destruct (call_cold c) as [k|];
      try (destruct Hmiss as [C|C]; discriminate C); reflexivity.
Qed.

(** An argument with nothing in it: [calculateSTHX_Pro({})]. *)
Definition empty_call : Call :=
  {| call_hot := None; call_cold := None;
     call_allocation_mode := EmptyString; call_allocation := EmptyString;
     call_mode := EmptyString;
     call_U_guess := None; call_tube_length := None;
     call_tube_passes := None;
     call_tube_od := nan; call_tube_id := nan; call_tube_pitch := nan;
     call_pitch_type := EmptyString;
     call_shell_ID := nan; call_total_tubes := nan;
     call_baffle_spacing := nan; call_baffles_n := nan;
     call_Rf_t := nan; call_Rf_s := nan |}.

(** [calculateSTHX_Pro({ mode: 'design' })]. *)
Definition empty_design_call : Call :=
  {| call_hot := None; call_cold := None;
     call_allocation_mode := EmptyString; call_allocation := EmptyString;
     call_mode := "design";
     call_U_guess := None; call_tube_length := None;
     call_tube_passes := None;
     call_tube_od := nan; call_tube_id := nan; call_tube_pitch := nan;
     call_pitch_type := EmptyString;
     call_shell_ID := nan; call_total_tubes := nan;
     call_baffle_spacing := nan; call_baffles_n := nan;
     call_Rf_t := nan; call_Rf_s := nan |}.

(** X8: the design engine returns an error object only for the missing
    duty, and only in design mode.  With both fluid objects in the
    argument it never throws, and it returns that error exactly when the
    mode is ['design'] and the duty of [calculateDuty] is zero or NaN,
    and a rating object otherwise.  With a fluid object missing it throws
    a [TypeError] instead of returning, except in design mode with manual
    allocation when the shell-side fluid is there with its flow and both
    temperatures and a duty that is zero or NaN. *)
Theorem design_engine_fails_only_without_duty E c :
  (forall e, calculateSTHX_Pro E c = Normal (Error e) ->
             e = err_no_duty /\ String.eqb (call_mode c) "design" = true) /\
  (forall h k, call_hot c = Some h -> call_cold c = Some k ->
     calculateSTHX_Pro E c = Normal (calculateSTHX E (with_fluids c h k)) /\
     (calculateSTHX_Pro E c = Normal (Error err_no_duty) <->
      String.eqb (call_mode c) "design" = true /\
      truthy (duty_of (with_fluids c h k)) = false) /\
     (calculateSTHX_Pro E c <> Normal (Error err_no_duty) ->
      exists r converged logs,
        calculateSTHX_Pro E c = Normal (Design r converged logs))) /\
  (call_hot c = None \/ call_cold c = None ->
   (exists key, In key ["mu"; "m"; "Tin"; "Tout"]%string /\
                calculateSTHX_Pro E c = Throw (type_error key)) \/
   (calculateSTHX_Pro E c = Normal (Error err_no_duty) /\
    shell_alone_without_duty c)) /\
  (forall e, calculateSTHX_Pro E c = Throw e ->
             call_hot c = None \/ call_cold c = None).
Proof.
  assert (Hboth : forall h k, call_hot c = Some h -> call_cold c = Some k ->
            calculateSTHX_Pro E c
            = Normal (calculateSTHX E (with_fluids c h k)) /\
            (forall e, calculateSTHX E (with_fluids c h k) = Error e ->
                       e = err_no_duty /\
                       String.eqb (mode (D_of (with_fluids c h k))) "design"
                       = true /\
                       truthy (duty_of (with_fluids c h k)) = false) /\
            (String.eqb (mode (D_of (with_fluids c h k))) "design" = true ->
             truthy (duty_of (with_fluids c h k)) = false ->
             calculateSTHX E (with_fluids c h k) = Error err_no_duty) /\
            mode (D_of (with_fluids c h k)) = call_mode c).
  { intros h k Hh Hk. split; [exact (calculateSTHX_Pro_both E c h k Hh Hk)|].
    assert (Hmode : mode (D_of (with_fluids c h k)) = call_mode c).
    { unfold D_of, allocated.
      destruct (String.eqb (allocation_mode (merge_defaults
                                               (with_fluids c h k))) "auto");
        reflexivity. }
    destruct (String.eqb (mode (D_of (with_fluids c h k))) "design")
      eqn:Hm.
    - destruct (design_mode_outcomes E (with_fluids c h k) Hm)
        as [(HQ & Hrun)|(HQ & n & _ & _ & [(_ & Hrun)|(_ & _ & Hrun)])];
        rewrite Hrun, HQ.
      + split; [intros e [= <-]; auto|]. split; [reflexivity|exact Hmode].
      + split; [discriminate|]. split; [discriminate|exact Hmode].
      + split; [discriminate|]. split; [discriminate|exact Hmode].
    - rewrite (rating_mode_outcome E (with_fluids c h k) Hm).
      split; [discriminate|]. split; [discriminate|exact Hmode]. }
  split; [|split; [|split]].
  - intros e He.
    destruct (call_hot c) as [h|] eqn:Hh; [destruct (call_cold c) as [k|] eqn:Hk|].
    + destruct (Hboth h k eq_refl eq_refl) as (Hrun & Herr & _ & Hmode).
      rewrite Hrun in He.
      assert (He' : calculateSTHX E (with_fluids c h k) = Error e)
        by congruence.
      destruct (Herr e He') as (-> & Hm & _).
      rewrite Hmode in Hm. auto.
    + destruct (calculateSTHX_Pro_missing E c (or_intror Hk))
        as [(key & _ & H)|(H & _ & Hd & _)]; rewrite H in He;
        [discriminate He|].
      split; [congruence|exact Hd].
    + destruct (calculateSTHX_Pro_missing E c (or_introl Hh))
        as [(key & _ & H)|(H & _ & Hd & _)]; rewrite H in He;
        [discriminate He|].
      split; [congruence|exact Hd].
  - intros h k Hh Hk.
    destruct (Hboth h k Hh Hk) as (Hrun & Herr & Hrev & Hmode).
    split; [exact Hrun|]. rewrite Hrun, <- Hmode. split.
    + split.
      * intros He.
        assert (He' : calculateSTHX E (with_fluids c h k)
                      = Error err_no_duty) by congruence.
        destruct (Herr _ He') as (_ & Hm & HQ). auto.
      * intros [Hm HQ]. rewrite (Hrev Hm HQ). reflexivity.
    + intros Hne.
      destruct (calculateSTHX E (with_fluids c h k)) as [e|r cv logs] eqn:Hc.
      * destruct (Herr e eq_refl) as (-> & _). exfalso. apply Hne.
        reflexivity.
      * eauto.
  - apply calculateSTHX_Pro_missing.
  - intros e He.
    destruct (call_hot c) as [h|] eqn:Hh; [|auto].
    destruct (call_cold c) as [k|] eqn:Hk; [|auto].
    rewrite (calculateSTHX_Pro_both E c h k Hh Hk) in He. discriminate He.
Qed.

End STHXProFacts.

(** ** The absolute value of a quotient *)

Module FloatAbs.

Import FloatSign.

Lemma SFabs_round_aux s m e l :
  SFabs (binary_round_aux prec emax s m e l)
  = binary_round_aux prec emax false m e l.
Proof.
  unfold binary_round_aux.
  destruct (shr_fexp prec emax m e l) as [mrs' e'].
  destruct (shr_fexp prec emax _ e' loc_Exact) as [mrs'' e''].
  destruct (shr_m mrs''); try reflexivity.
  destruct (e'' <=? emax - prec)%Z; reflexivity.
Qed.

Lemma SFabs_div x y :
  SFabs (SFdiv prec emax x y) = SFdiv prec emax (SFabs x) (SFabs y).
Proof.
  destruct x as [sx|sx| |sx mx ex], y as [sy|sy| |sy my ey];
    try reflexivity.
  cbn [SFdiv SFabs].
  destruct (SFdiv_core_binary prec emax (Zpos mx) ex (Zpos my) ey)
    as [[mz ez] lz].
  apply SFabs_round_aux.
Qed.

Local Open Scope float_scope.

Lemma Prim2SF_eq x y : Prim2SF x = Prim2SF y -> x = y.
Proof.
  intros H. rewrite <- (SF2Prim_Prim2SF x), <- (SF2Prim_Prim2SF y), H.
  reflexivity.
Qed.

Lemma abs_positive y : (0 <? y) = true -> abs y = y.
Proof.
  rewrite ltb_spec, Prim2SF_zero. intros H. apply Prim2SF_eq.
  rewrite abs_spec. apply ltb_zero_sign in H.
  destruct (Prim2SF y) as [s|s| |s m e]; cbn in H |- *;
    congruence.
Qed.

(** [|x / y| = |x| / y] for a positive [y], exactly. *)
Lemma abs_div_positive x y : (0 <? y) = true -> abs (x / y) = abs x / y.
Proof.
  intros Hy. apply Prim2SF_eq.
  rewrite abs_spec, !div_spec, SFabs_div, <- !abs_spec.
  rewrite (abs_positive y Hy). reflexivity.
Qed.

End FloatAbs.

(** ** The convergence loop of the design engine *)

Module STHXLoop.

Import JS Arg STHX STHXFacts STHXExtra.
Local Open Scope float_scope.

(** The test of a pass of the loop: [Math.abs(error) < 0.1]. *)
Definition below_tolerance (E : Engine) (i : InputData) (j : nat) : bool :=
  Math_abs (tr_error (trial_of E i (guess_of E i j))) <? 0.1.

Lemma iterations_converged_log E i n :
  iterations (snd (allocated i) ++ LogStartDesign :: lines_of E i n) = n.
Proof.
  unfold lines_of. rewrite iterations_design_log.
  destruct (allocated_logs i) as [-> _]. reflexivity.
Qed.

Lemma iterations_unconverged_log E i n :
  iterations (snd (allocated i) ++ LogStartDesign
                :: lines_of E i n ++ [LogMaxIterations]) = n.
Proof.
  unfold lines_of. rewrite iterations_exhausted_log.
  destruct (allocated_logs i) as [-> _]. reflexivity.
Qed.

(** C1 (amended): in design mode the loop runs [n <= 20] passes.  Pass
    [j] starts from [guess j], the first being [U_guess] (500 if that is
    zero or NaN), rates a candidate and computes the relative error
    [(U_calc - U_guess) / U_guess], whose absolute value is
    [|U_calc - U_guess| / U_guess] for a positive guess.  The loop stops
    at the first pass whose error is strictly below the tolerance
    (absolute value [< 0.1]) and returns the design rated in that pass
    with [converged = true]; after a pass that is not, the next guess is
    [0.5 * U_guess + 0.5 * U_calc].  When no pass of the 20 is below the
    tolerance the result has [converged = false], and a call with no duty
    runs no pass at all. *)
Theorem loop_stops_strictly_below_tolerance E i :
  String.eqb (mode (D_of i)) "design" = true ->
  guess_of E i 0 = js_or (U_guess (D_of i)) 500 /\
  (forall j,
      below_tolerance E i j
      = (Math_abs ((tr_U_calc (trial_of E i (guess_of E i j))
                    - guess_of E i j) / guess_of E i j) <? 0.1)) /\
  (forall j,
      (0 <? guess_of E i j) = true ->
      below_tolerance E i j
      = (Math_abs (tr_U_calc (trial_of E i (guess_of E i j))
                   - guess_of E i j) / guess_of E i j <? 0.1)) /\
  (forall j,
      guess_of E i (S j)
      = 0.5 * guess_of E i j
        + 0.5 * tr_U_calc (trial_of E i (guess_of E i j))) /\
  exists n,
    (n <= 20)%nat /\
    (forall j, (S j < n)%nat -> below_tolerance E i j = false) /\
    ((n = 0%nat /\ truthy (duty_of i) = false /\
      calculateSTHX E i = Error err_no_duty)
     \/
     (exists k logs,
         n = S k /\ below_tolerance E i k = true /\
         calculateSTHX E i
         = Design (tr_rating (trial_of E i (guess_of E i k))) (Some true)
             logs /\
         List.filter is_iter logs = lines_of E i n /\
         iterations logs = n)
     \/
     (n = 20%nat /\
      (forall j, (j < 20)%nat -> below_tolerance E i j = false) /\
      exists r logs,
        calculateSTHX E i = Design r (Some false) logs /\
        List.filter is_iter logs = lines_of E i n /\
        iterations logs = n)).
Proof.
  intros Hmode. split; [reflexivity|]. split; [reflexivity|].
  split.
  { intros j Hj. unfold below_tolerance.
    change (tr_error (trial_of E i (guess_of E i j)))
      with ((tr_U_calc (trial_of E i (guess_of E i j)) - guess_of E i j)
            / guess_of E i j).
    unfold Math_abs. rewrite (FloatAbs.abs_div_positive _ _ Hj).
    reflexivity. }
  split; [intros j; apply guess_succ|].
  destruct (design_mode_outcomes E i Hmode)
    as [(HQ & Hrun)
       |(HQ & n & Hn & Hbefore & [(Hstop & Hrun)|(-> & Hex & Hrun)])].
  - exists 0%nat. split; [lia|]. split; [intros j Hj; lia|]. left. auto.
  - exists n. unfold MaxIter in Hn. split; [lia|].
    split; [exact Hbefore|]. right. left.
    destruct n as [|k]; [lia|].
    replace (S k - 1)%nat with k in * by lia.
    exists k. eexists. split; [reflexivity|]. split; [exact Hstop|].
    split; [exact Hrun|]. split.
    + apply (filter_is_iter_log _ _ (filter_is_iter_allocated i)
               (filter_is_iter_lines _ _ _ _ _ _ (S k) 0%nat _)).
    + apply iterations_converged_log.
  - exists 20%nat. split; [lia|]. split; [exact Hbefore|]. right. right.
    split; [reflexivity|]. split; [exact Hex|].
    eexists. eexists. split; [exact Hrun|]. split.
    + apply (filter_is_iter_log _ _ (filter_is_iter_allocated i)
               (filter_is_iter_lines _ _ _ _ _ _ MaxIter 0%nat _)).
    + apply iterations_unconverged_log.
Qed.

(** The water-water design with the default guess of 500 stops within the
    20 passes, with a converged design. *)
Lemma loop_stops_strictly_below_tolerance_water :
  String.eqb (mode (D_of (design_input 500))) "design" = true /\
  exists k logs,
    (S k <= 20)%nat /\
    below_tolerance RefEngine.engine (design_input 500) k = true /\
    calculateSTHX RefEngine.engine (design_input 500)
    = Design (tr_rating (trial_of RefEngine.engine (design_input 500)
                           (guess_of RefEngine.engine (design_input 500) k)))
        (Some true) logs /\
    iterations logs = S k.
Proof.
  assert (Hm : String.eqb (mode (D_of (design_input 500))) "design" = true)
    by reflexivity.
  split; [exact Hm|].
  destruct (loop_stops_strictly_below_tolerance RefEngine.engine (design_input 500)
              Hm)
    as (_ & _ & _ & _ & n & Hn & _
        & [(_ & _ & Hrun)
          |[(k & logs & -> & Hk & Hrun & _ & Hit)
           |(_ & _ & r & logs & Hrun & _)]]).
  - rewrite water_design_runs in Hrun. discriminate Hrun.
  - exists k, logs. auto.
  - rewrite water_design_runs in Hrun. discriminate Hrun.
Defined.

(** A design-mode call whose first pass fails the test and whose second
    pass meets it returns the design of the second pass. *)
Lemma stops_at_second_pass E i :
  String.eqb (mode (D_of i)) "design" = true ->
  truthy (duty_of i) = true ->
  below_tolerance E i 0 = false ->
  below_tolerance E i 1 = true ->
  exists logs,
    calculateSTHX E i
    = Design (tr_rating (trial_of E i (guess_of E i 1))) (Some true) logs /\
    iterations logs = 2%nat.
Proof.
  intros Hm HQ H0 H1.
  destruct (design_mode_outcomes E i Hm)
    as [(HQ' & _)
       |(_ & n & Hn & Hbefore & [(Hstop & Hrun)|(-> & Hex & _)])].
  - rewrite HQ in HQ'. discriminate HQ'.
  - fold (below_tolerance E i (n - 1)) in Hstop.
    assert (n = 2%nat) as ->.
    { destruct n as [|[|[|n]]]; [lia| |reflexivity|].
      - cbn [Nat.sub] in Hstop. rewrite H0 in Hstop. discriminate Hstop.
      - assert (Hlt : (2 < S (S (S n)))%nat) by lia.
        specialize (Hbefore 1%nat Hlt).
        fold (below_tolerance E i 1) in Hbefore.
        rewrite H1 in Hbefore. discriminate Hbefore. }
    eexists. split; [exact Hrun|]. apply iterations_converged_log.
  - exfalso.
    assert (Hlt : (1 < MaxIter)%nat) by (unfold MaxIter; lia).
    specialize (Hex 1%nat Hlt).
    change (below_tolerance E i 1 = false) in Hex.
    rewrite H1 in Hex. discriminate Hex.
Qed.
(** *** A call whose first error is exactly 10% on every engine

    The streams are chosen so that the engine is only asked for powers of
    1 and for squares: equal terminal temperature differences (hot 80 to
    60, cold 40 to 60) make the mean temperature difference [0 / log 1], a
    NaN, so that every pass takes the largest shell; viscosities and
    conductivities give Reynolds and Prandtl numbers of exactly 1 on that
    shell; the tube has no wall ([log 1 = 0]); the pitch and the diameter
    are powers of two. *)

Definition boundary_hot : Fluid :=
  {| fluid_m := 7.2; fluid_rho := 997; fluid_mu := 0.8259825525263607;
     fluid_cp := 4182; fluid_k := 3454.25903466524;
     fluid_Tin := 80; fluid_Tout := 60;
     fluid_P := 1; fluid_fouling := 0.0001 |}.

Definition boundary_cold : Fluid :=
  {| fluid_m := 10.8; fluid_rho := 997; fluid_mu := 0.9432617077394904;
     fluid_cp := 4183; fluid_k := 3945.663723474288;
     fluid_Tin := 40; fluid_Tout := 60;
     fluid_P := 1; fluid_fouling := 0.0001 |}.

Definition boundary_guess : float := 4227.764030699836.

(** The overall coefficient of every candidate of this call. *)
Definition boundary_U_calc : float := 4650.54043376982.

Definition boundary_design : InputData :=
  {| in_hot := boundary_hot; in_cold := boundary_cold;
     in_allocation_mode := "manual"; in_allocation := "hot_shell";
     in_mode := "design";
     in_U_guess := Some boundary_guess;
     in_tube_length := None; in_tube_passes := None;
     in_tube_od := 0.015625; in_tube_id := 0.015625;
     in_tube_pitch := 0.03125; in_pitch_type := "triangular";
     in_shell_ID := nan; in_total_tubes := nan;
     in_baffle_spacing := nan; in_baffles_n := nan;
     in_Rf_t := nan; in_Rf_s := nan |}.

(** What the call asks of the engine, and what any engine answers: a
    power of 1 is 1, the squares of [2^-5] and [2^-6] are exact, and the
    square of 48.768 is near enough to 2378.3 for 1866 tubes. *)
Definition exact_at_boundary (E : Engine) : Prop :=
  approx_pow E 1 0.8 = 1 /\ approx_pow E 1 0.33 = 1 /\
  approx_pow E 1 0.55 = 1 /\
  approx_pow E 0.03125 2 = 0.0009765625 /\
  approx_pow E 0.015625 2 = 0.000244140625 /\
  Math_floor (0.785 * approx_pow E 48.768 2) = 1866.

Lemma reference_engine_exact : exact_at_boundary RefEngine.engine.
Proof.
  split; [vm_compute; reflexivity|]. split; [vm_compute; reflexivity|].
  split; [vm_compute; reflexivity|]. split; [vm_compute; reflexivity|].
  split; vm_compute; reflexivity.
Qed.

Lemma boundary_U_calc_value E U :
  exact_at_boundary E ->
  U = boundary_guess \/ U = 0.5 * boundary_guess + 0.5 * boundary_U_calc ->
  tr_U_calc (trial_of E boundary_design U) = boundary_U_calc.
Proof.
  intros (H1 & H2 & H3 & H4 & H5 & H6) HU.
  unfold trial_of, trial_at, design_trial. cbn [tr_U_calc].
  match goal with
  | |- context [select_shell ?x] =>
      replace (select_shell x) with 1.524
        by (destruct HU as [->| ->]; vm_compute; reflexivity)
  end.
  replace (Math_pow E (1.524 / tube_pitch (D_of boundary_design)) 2)
    with (approx_pow E 48.768 2) by (vm_compute; reflexivity).
  rewrite H6. clear H6.
  unfold approx_pow in H1, H2, H3, H4, H5.
  vm_compute. rewrite !H4, !H5.
  vm_compute. rewrite ?H1, ?H2, ?H3.
  vm_compute. reflexivity.
Qed.

Lemma boundary_error E U :
  exact_at_boundary E ->
  U = boundary_guess \/ U = 0.5 * boundary_guess + 0.5 * boundary_U_calc ->
  tr_error (trial_of E boundary_design U) = (boundary_U_calc - U) / U.
Proof.
  intros HE HU. rewrite <- (boundary_U_calc_value E U HE HU).
  unfold trial_of. apply trial_error.
Qed.

Lemma boundary_guesses E :
  exact_at_boundary E ->
  guess_of E boundary_design 0 = boundary_guess /\
  guess_of E boundary_design 1
  = 0.5 * boundary_guess + 0.5 * boundary_U_calc.
Proof.
  intros HE. split; [reflexivity|].
  unfold guess_of. rewrite guess_succ. unfold next_guess.
  change (guess E _ _ _ _ _ (first_guess (D_of boundary_design)) 0)
    with boundary_guess.
  fold (trial_of E boundary_design boundary_guess).
  rewrite (boundary_U_calc_value E boundary_guess HE (or_introl eq_refl)).
  reflexivity.
Qed.


Lemma boundary_first_pass E :
  exact_at_boundary E -> below_tolerance E boundary_design 0 = false.
Proof.
  intros HE. destruct (boundary_guesses E HE) as [Hg0 Hg1].
  unfold below_tolerance. rewrite Hg0.
  rewrite (boundary_error E _ HE (or_introl eq_refl)).
  vm_compute. reflexivity.
Qed.

Lemma boundary_second_pass E :
  exact_at_boundary E -> below_tolerance E boundary_design 1 = true.
Proof.
  intros HE. destruct (boundary_guesses E HE) as [Hg0 Hg1].
  unfold below_tolerance. rewrite Hg1.
  rewrite (boundary_error E _ HE (or_intror eq_refl)).
  vm_compute. reflexivity.
Qed.

(** C1, as stated, fails when the relative error is exactly 10%: in this
    call [|U_calc - U_guess| / U_guess] is [0.1] at the first pass, within
    the tolerance, yet the loop does not stop there; it runs a second pass
    and returns the design of that one.  This holds on the reference
    engine, and on every engine that is exact where the call needs it. *)
Lemma boundary_error_does_not_stop :
  (Math_abs (tr_U_calc (trial_of RefEngine.engine boundary_design
                          boundary_guess) - boundary_guess)
   / boundary_guess = 0.1 /\
   exists r logs,
     calculateSTHX RefEngine.engine boundary_design
     = Design r (Some true) logs /\
     iterations logs = 2%nat) /\
  exact_at_boundary RefEngine.engine /\
  (forall E,
      exact_at_boundary E ->
      Math_abs (tr_U_calc (trial_of E boundary_design boundary_guess)
                - boundary_guess) / boundary_guess = 0.1 /\
      below_tolerance E boundary_design 0 = false /\
      exists logs,
        calculateSTHX E boundary_design
        = Design (tr_rating (trial_of E boundary_design
                               (guess_of E boundary_design 1)))
            (Some true) logs /\
        iterations logs = 2%nat).
Proof.
  assert (Hall : forall E,
             exact_at_boundary E ->
             Math_abs (tr_U_calc (trial_of E boundary_design boundary_guess)
                       - boundary_guess) / boundary_guess = 0.1 /\
             below_tolerance E boundary_design 0 = false /\
             exists logs,
               calculateSTHX E boundary_design
               = Design (tr_rating (trial_of E boundary_design
                                      (guess_of E boundary_design 1)))
                   (Some true) logs /\
               iterations logs = 2%nat).
  { intros E HE. split.
    { rewrite (boundary_U_calc_value E _ HE (or_introl eq_refl)).
      vm_compute. reflexivity. }
    split; [exact (boundary_first_pass E HE)|].
    apply stops_at_second_pass.
    - reflexivity.
    - vm_compute. reflexivity.
    - exact (boundary_first_pass E HE).
    - exact (boundary_second_pass E HE). }
  split; [|split; [exact reference_engine_exact|exact Hall]].
  destruct (Hall RefEngine.engine reference_engine_exact)
    as (H & _ & logs & Hrun & Hit).
  split; [exact H|]. eexists. exists logs. split; [exact Hrun|exact Hit].
Qed.

(** The shell of the fallback is not a catalog shell. *)
Lemma fallback_shell_not_standard : ~ In 0.6 TEMA_shells.
Proof.
  intros Hin. vm_compute in Hin.
  repeat (destruct Hin as [Hin|Hin];
          [assert (Hb : (0.6 =? 0.6) = true) by reflexivity;
           rewrite <- Hin in Hb at 1; vm_compute in Hb; discriminate Hb|]).
  exact Hin.
Qed.

(** C2, on the code: a design-mode call with a duty whose 20 passes all
    fail the convergence test does not fail; it returns a rating flagged
    [converged = false] with exactly 20 iteration lines in its log, the
    last line being the warning.  But the rating it returns is not the
    last candidate, nor any candidate of the loop: it is the rating of the
    input on a shell of 0.6 m with 200 tubes, hard-coded, while every
    candidate sits on a shell of the TEMA list, where 0.6 m is not. *)
Theorem unconverged_result_is_a_fixed_fallback E i :
  String.eqb (mode (D_of i)) "design" = true ->
  truthy (duty_of i) = true ->
  exhausted E i ->
  exists r logs,
    calculateSTHX E i = Design r (Some false) logs /\
    iterations logs = 20%nat /\
    List.filter is_iter logs = lines_of E i 20 /\
    List.last logs LogStartDesign = LogMaxIterations /\
    r = performKernRating E (shell_side (D_of i)) (tube_side (D_of i))
          (with_shell (D_of i) 0.6 200) /\
    geo_Ds (Geometry r) = 0.6 /\
    geo_Nt (Geometry r) = 200 /\
    forall j,
      In (geo_Ds (Geometry (tr_rating (trial_of E i (guess_of E i j)))))
        TEMA_shells /\
      geo_Ds (Geometry (tr_rating (trial_of E i (guess_of E i j))))
      <> geo_Ds (Geometry r) /\
      tr_rating (trial_of E i (guess_of E i j)) <> r.
Proof.
  intros Hmode HQ Hex.
  destruct (design_mode_outcomes E i Hmode)
    as [(HQ' & _)|(_ & n & Hn & _ & [(Hstop & _)|(_ & _ & Hrun)])].
  - rewrite HQ in HQ'. discriminate HQ'.
  - exfalso. unfold exhausted in Hex.
    unfold trial_of, guess_of, trial_at in Hstop.
    specialize (Hex (n - 1)%nat). unfold stops, trial_at in Hex.
    rewrite Hex in Hstop; [discriminate Hstop|lia].
  - eexists. eexists. split; [exact Hrun|].
    split; [apply iterations_unconverged_log|].
    split.
    { apply (filter_is_iter_log _ _ (filter_is_iter_allocated i)
               (filter_is_iter_lines _ _ _ _ _ _ MaxIter 0%nat _)). }
    split.
    { rewrite last_app_cons.
      change (LogStartDesign :: ?l ++ ?l') with ((LogStartDesign :: l) ++ l').
      apply last_last. }
    split; [reflexivity|]. split; [reflexivity|]. split; [reflexivity|].
    intros j.
    destruct (trial_geometry E (shell_side (D_of i)) (tube_side (D_of i))
                (D_of i) (duty_of i) (loop_LMTD E (D_of i))
                (guess_of E i j)) as (HDs & Hin & _).
    fold (trial_of E i (guess_of E i j)) in HDs, Hin.
    assert (Hne : geo_Ds (Geometry (tr_rating (trial_of E i (guess_of E i j))))
                  <> 0.6).
    { rewrite HDs. intros C. rewrite C in Hin.
      exact (fallback_shell_not_standard Hin). }
    split; [rewrite HDs; exact Hin|]. split; [exact Hne|].
    intros C. apply Hne. rewrite C. reflexivity.
Qed.

(** With a starting guess of [1e10] the 20 passes all fail the test: the
    result is rated on the 0.6 m shell, while the 20th candidate sits on
    the 8 inch shell. *)
Lemma unconverged_result_is_a_fixed_fallback_far_guess :
  String.eqb (mode (D_of (design_input far_guess))) "design" = true /\
  truthy (duty_of (design_input far_guess)) = true /\
  exhausted RefEngine.engine (design_input far_guess) /\
  exists r logs,
    calculateSTHX RefEngine.engine (design_input far_guess)
    = Design r (Some false) logs /\
    iterations logs = 20%nat /\
    geo_Ds (Geometry r) = 0.6 /\
    geo_Nt (Geometry r) = 200 /\
    geo_Ds (Geometry
              (tr_rating
                 (trial_of RefEngine.engine (design_input far_guess)
                    (guess_of RefEngine.engine (design_input far_guess)
                       19))))
    = 8 * 0.0254 /\
    tr_rating (trial_of RefEngine.engine (design_input far_guess)
                 (guess_of RefEngine.engine (design_input far_guess) 19))
    <> r.
Proof.
  assert (Hm : String.eqb (mode (D_of (design_input far_guess))) "design"
               = true) by reflexivity.
  assert (HQ : truthy (duty_of (design_input far_guess)) = true)
    by (vm_compute; reflexivity).
  assert (Hex : exhausted RefEngine.engine (design_input far_guess)).
  { intros j Hj. unfold MaxIter in Hj.
    do 20 (destruct j as [|j]; [vm_compute; reflexivity|]). lia. }
  split; [exact Hm|]. split; [exact HQ|]. split; [exact Hex|].
  destruct (unconverged_result_is_a_fixed_fallback RefEngine.engine
              (design_input far_guess) Hm HQ Hex)
    as (r & logs & Hrun & Hit & _ & _ & _ & HDs & HNt & Hcand).
  exists r, logs. split; [exact Hrun|]. split; [exact Hit|].
  split; [exact HDs|]. split; [exact HNt|].
  split; [vm_compute; reflexivity|]. apply (Hcand 19%nat).
Defined.

End STHXLoop.

(** ** The limits of the double-pipe search *)

Module DPHXLimits.

Import JS Arg DPHX FloatFacts DPHXFacts.
Local Open Scope float_scope.

(** The four comparisons of lines 181-182, with the one pressure limit. *)
Definition within_limits (max_dp : float) (d : design) : Prop :=
  (v_in d <? 4.0) = true /\ (v_ann d <? 4.0) = true /\
  (dP_in d <? max_dp) = true /\ (dP_ann d <? max_dp) = true.

Lemma feasible_within_limits max_dp d :
  feasible max_dp d = true <-> within_limits max_dp d.
Proof.
  unfold feasible, velocity_ok, dp_ok, within_limits.
  rewrite !andb_true_iff. tauto.
Qed.

(** A call that enters the search returns a design exactly when some
    rated candidate passes the four comparisons with a required area below
    [+Infinity]. *)
Lemma success_iff_within_limits E fields t :
  energy_balance E (parsed E fields) = inr t ->
  (exists b logs,
      calculateDPHX E (ArgObject fields) = Normal (Success b logs)) <->
  (exists d,
      In d (trials E (parsed E fields) t) /\
      within_limits (max_dp_of E fields) d /\
      (A_req d <? infinity) = true).
Proof.
  intros Hb. rewrite calculateDPHX_object, Hb.
  pose proof (search_inv_final E (parsed E fields) t (max_dp_of E fields))
    as [_ Hbest].
  pose proof (EntryFacts.search_best_is_finite E (parsed E fields) t
                (max_dp_of E fields)) as Hfin.
  remember (search E (parsed E fields) t (max_dp_of E fields)) as st.
  remember (max_dp_of E fields) as max_dp.
  remember (trials E (parsed E fields) t) as seen.
  clear Heqst Heqmax_dp Heqseen.
  unfold finish. destruct (best_design st) as [b|].
  - destruct Hbest as (_ & Hfb & (pre & post & -> & _) & _).
    split; [|intros _; eauto].
    intros _. exists b. split; [apply in_elt|].
    split; [apply feasible_within_limits, Hfb|]. apply Hfin. reflexivity.
  - destruct Hbest as (_ & Hall). split.
    + intros (b & logs & H). discriminate H.
    + intros (d & Hin & Hlim & Harea). exfalso.
      apply feasible_within_limits in Hlim.
      rewrite (Hall d Hin Hlim) in Harea. discriminate Harea.
Qed.

(** C9: the velocity limit is the constant 4.0 m/s on both sides and the
    pressure-drop limit is the one number
    [parseFloat(data.allowable_dp_inner || 70000)] on both sides.  A call
    that enters the search returns a design if and only if some rated
    candidate has both velocities below 4.0, both pressure drops below
    that number and a required area below [+Infinity]; the design it
    returns passes the four comparisons; the number is 70000 when the
    field is absent; and a field the function does not read (a separate
    annulus limit, a velocity limit) changes nothing. *)
Theorem limits_are_fixed E fields :
  (forall t,
      energy_balance E (parsed E fields) = inr t ->
      (exists b logs,
          calculateDPHX E (ArgObject fields) = Normal (Success b logs)) <->
      (exists d,
          In d (trials E (parsed E fields) t) /\
          (v_in d <? 4.0) = true /\ (v_ann d <? 4.0) = true /\
          (dP_in d <? max_dp_of E fields) = true /\
          (dP_ann d <? max_dp_of E fields) = true /\
          (A_req d <? infinity) = true)) /\
  (forall b logs,
      calculateDPHX E (ArgObject fields) = Normal (Success b logs) ->
      (v_in b <? 4.0) = true /\ (v_ann b <? 4.0) = true /\
      (dP_in b <? max_dp_of E fields) = true /\
      (dP_ann b <? max_dp_of E fields) = true) /\
  (forall max_dp d,
      feasible max_dp d = true <->
      (v_in d <? 4.0) = true /\ (v_ann d <? 4.0) = true /\
      (dP_in d <? max_dp) = true /\ (dP_ann d <? max_dp) = true) /\
  (fields !! "allowable_dp_inner" = None -> max_dp_of E fields = 70000) /\
  (forall key v,
      ~ In key read_keys ->
      calculateDPHX E (ArgObject (<[key := v]> fields))
      = calculateDPHX E (ArgObject fields)).
Proof.
  split; [|split; [|split; [|split]]].
  - intros t Hb. rewrite (success_iff_within_limits E fields t Hb).
    unfold within_limits. split.
    + intros (d & Hin & (H1 & H2 & H3 & H4) & H5). exists d. auto 10.
    + intros (d & Hin & H1 & H2 & H3 & H4 & H5). exists d. auto 10.
  - intros b logs. rewrite calculateDPHX_object.
    destruct (energy_balance E (parsed E fields)) as [e|t]; [discriminate|].
    pose proof (search_inv_final E (parsed E fields) t (max_dp_of E fields))
      as [_ Hbest].
    remember (search E (parsed E fields) t (max_dp_of E fields)) as st.
    remember (max_dp_of E fields) as max_dp.
    clear Heqst Heqmax_dp.
    unfold finish. destruct (best_design st) as [b'|]; [|discriminate].
    intros H. assert (b' = b) as -> by congruence.
    destruct Hbest as (_ & Hfb & _).
    apply feasible_within_limits in Hfb. exact Hfb.
  - intros max_dp d. apply feasible_within_limits.
  - intros Hnone. unfold max_dp_of, field. rewrite Hnone. reflexivity.
  - intros key v Hkey. rewrite !calculateDPHX_object.
    destruct (unread_field_ignored E fields key v Hkey) as [-> ->].
    reflexivity.
Qed.

(** On scenario A: a candidate within the limits exists, the chosen design
    meets them, and neither an annulus limit of 1 Pa nor a velocity limit
    of 0.1 m/s changes the result. *)
Lemma limits_are_fixed_scenarioA :
  (exists d,
      In d (trials RefEngine.engine
              (parsed RefEngine.engine scenarioA_fields) scenarioA_thermal) /\
      (v_in d <? 4.0) = true /\ (v_ann d <? 4.0) = true /\
      (dP_in d <? 70000) = true /\ (dP_ann d <? 70000) = true /\
      (A_req d <? infinity) = true) /\
  (exists b logs,
      calculateDPHX RefEngine.engine scenarioA = Normal (Success b logs) /\
      (v_in b <? 4.0) = true /\ (v_ann b <? 4.0) = true /\
      (dP_in b <? 70000) = true /\ (dP_ann b <? 70000) = true) /\
  max_dp_of RefEngine.engine (list_to_map (water 2 2.5)) = 70000 /\
  calculateDPHX RefEngine.engine
    (ArgObject (<["allowable_dp_ann" := PNum 1]> scenarioA_fields))
  = calculateDPHX RefEngine.engine scenarioA /\
  calculateDPHX RefEngine.engine
    (ArgObject (<["max_velocity" := PNum 0.1]> scenarioA_fields))
  = calculateDPHX RefEngine.engine scenarioA.
Proof.
  pose proof (limits_are_fixed RefEngine.engine scenarioA_fields)
    as (Hiff & Hlim & _ & _ & Hother).
  pose proof (limits_are_fixed RefEngine.engine (list_to_map (water 2 2.5)))
    as (_ & _ & _ & Hdef & _).
  assert (Hm : max_dp_of RefEngine.engine scenarioA_fields = 70000)
    by (vm_compute; reflexivity).
  rewrite Hm in Hlim.
  assert (Hb : energy_balance RefEngine.engine
                 (parsed RefEngine.engine scenarioA_fields)
               = inr scenarioA_thermal) by (vm_compute; reflexivity).
  pose proof scenarioA_runs as Hc. unfold scenarioA_result in Hc.
  split; [|split; [|split; [|split]]].
  - specialize (Hiff scenarioA_thermal Hb). rewrite Hm in Hiff.
    apply Hiff. eexists. eexists. exact Hc.
  - eexists. eexists. split; [exact Hc|]. exact (Hlim _ _ Hc).
  - apply Hdef. vm_compute. reflexivity.
  - apply Hother. unfold read_keys. simpl.
    intros H; repeat destruct H as [H|H]; try discriminate H; exact H.
  - apply Hother. unfold read_keys. simpl.
    intros H; repeat destruct H as [H|H]; try discriminate H; exact H.
Defined.

End DPHXLimits.

(** ** How the calculators fail *)

Module Failures.

Import JS Arg FloatFacts FloatNaN.
Local Open Scope float_scope.

(** *** The earlier [calculateDPHX] *)

Definition sizing_errors : list string :=
  [DPHXv2.err_pipe_size; DPHXv2.err_no_mass_flow; DPHXv2.err_need_temps;
   DPHXv2.err_balance; DPHXv2.err_cross_counter; DPHXv2.err_cross_co;
   DPHXv2.err_flow_type; DPHXv2.err_lmtd; DPHXv2.err_diameters;
   "TypeError: Cannot read properties of undefined (reading 'name')"%string].

Lemma select_pipe_object E fields :
  match DPHXv2.select_pipe E (ArgObject fields) with
  | Normal (inl e) => e = DPHXv2.err_pipe_size
  | Normal (inr _) => True
  | Throw e =>
      e = "TypeError: Cannot read properties of undefined (reading 'name')"%string
  end.
Proof.
  unfold DPHXv2.select_pipe.
  cbn [getFloat getFloatOr getIntOr get mbind completion_bind
       mret completion_ret].
  repeat match goal with
         | |- context [if ?c then _ else _] => destruct c
         | |- context [match DPHXv2.pipe_at ?i with _ => _ end] =>
             destruct (DPHXv2.pipe_at i)
         end;
    cbn [getFloat getFloatOr getIntOr get mbind completion_bind
         mret completion_ret]; auto.
Qed.

Lemma select_inner_diameter_object E fields d_o_ :
  exists d, DPHXv2.select_inner_diameter E (ArgObject fields) d_o_
            = Normal d.
Proof.
  unfold DPHXv2.select_inner_diameter.
  cbn [getFloat getFloatOr getIntOr get mbind completion_bind
       mret completion_ret].
  repeat match goal with
         | |- context [if ?c then _ else _] => destruct c
         | |- context [match DPHXv2.pipe_database ?i with _ => _ end] =>
             destruct (DPHXv2.pipe_database i)
         end;
    cbn [getFloat getFloatOr getIntOr get mbind completion_bind
         mret completion_ret]; eexists; reflexivity.
Qed.

(** The errors of the earlier calculator on an object argument. *)
Lemma sizing_fails_with E fields e :
  DPHXv2.calculateDPHX E (ArgObject fields) = Normal (DPHXv2.Error e) ->
  In e sizing_errors.
Proof.
  intros H. unfold DPHXv2.calculateDPHX in H.
  cbn [getFloat getFloatOr getIntOr DPHXv2.getOptFloat get mbind
       completion_bind mret completion_ret] in H.
  pose proof (select_pipe_object E fields) as Hsel.
  destruct (DPHXv2.select_pipe E (ArgObject fields))
    as [[e0|[name d_o_]]|e0].
  { cbn [mbind completion_bind mret completion_ret try_catch] in H.
    assert (e = e0) as -> by congruence. rewrite Hsel.
    unfold sizing_errors. cbn [In]. auto. }
  2: { cbn [mbind completion_bind mret completion_ret try_catch] in H.
       assert (e = e0) as -> by congruence. rewrite Hsel.
       unfold sizing_errors. cbn [In]. auto 20. }
  cbn [mbind completion_bind] in H.
  destruct (select_inner_diameter_object E fields d_o_) as [d_i0 Hd].
  rewrite Hd in H. cbn [mbind completion_bind] in H.
  destruct (DPHXv2Extra.select_fouling_object E fields) as [Rf HRf].
  rewrite HRf in H.
  cbn [mbind completion_bind mret completion_ret] in H.
  match type of H with
  | context [if is_nan ?a && is_nan ?b then _ else _] =>
      destruct (is_nan a && is_nan b)
  end.
  { cbn [try_catch mret completion_ret] in H. assert (e = DPHXv2.err_no_mass_flow) as ->
      by congruence.
    unfold sizing_errors. cbn [In]. auto. }
  match type of H with
  | context [match ?c with inl _ => _ | inr _ => _ end] =>
      destruct c as [e0|b] eqn:Hb
  end.
  { cbn [try_catch mret completion_ret] in H. assert (e = e0) as -> by congruence.
    apply DPHXv2Extra.sizing_balance_errors in Hb.
    unfold sizing_errors. destruct Hb as [->| ->]; cbn [In]; auto 10. }
  match type of H with
  | context [match ?c with inl _ => _ | inr _ => _ end] =>
      destruct c as [e0|LMTD_] eqn:HL
  end.
  { cbn [try_catch mret completion_ret] in H. assert (e = e0) as -> by congruence.
    apply DPHXv2Extra.sizing_lmtd_errors in HL.
    unfold sizing_errors. cbn [In] in HL |- *.
    destruct HL as [<-|[<-|[<-|[<-|[]]]]]; auto 20. }
  destruct (d_o_ <=? d_i0) eqn:Hdi.
  { cbn [try_catch mret completion_ret] in H. assert (e = DPHXv2.err_diameters) as ->
      by congruence.
    unfold sizing_errors. cbn [In]. auto 20. }
  cbn [try_catch mret completion_ret] in H. discriminate H.
Qed.

(** *** The basic [calculateSTHX] *)

Definition basic_errors : list string :=
  [STHXBasic.err_no_mass_flow; STHXBasic.err_need_temps;
   STHXBasic.err_temp_cross].

Lemma basic_fails_with E fields e :
  STHXBasic.calculateSTHX E (ArgObject fields)
  = Normal (STHXBasic.Error e) ->
  In e basic_errors.
Proof.
  unfold STHXBasic.calculateSTHX.
  cbn [getFloat getFloatOr getIntOr get mbind completion_bind
       mret completion_ret].
  match goal with
  | |- context [match ?c with inl _ => _ | inr _ => _ end] =>
      destruct c as [e'|b] eqn:Hb
  end.
  { apply STHXBasicExtra.basic_balance_errors in Hb.
    cbn [try_catch]. intros [= <-]. unfold basic_errors.
    destruct Hb as [->| ->]; cbn [In]; auto. }
  match goal with
  | |- context [match ?c with inl _ => _ | inr _ => _ end] =>
      destruct c as [e'|L] eqn:HL
  end.
  { apply STHXBasicExtra.basic_lmtd_errors in HL.
    cbn [try_catch]. intros [= <-]. rewrite HL. unfold basic_errors.
    cbn [In]. auto. }
  cbn [try_catch mret completion_ret]. discriminate.
Qed.

(** *** The double-pipe optimizer *)


Definition no_nan (b : DPHX.design) : Prop :=
  is_nan (DPHX.v_in b) = false /\ is_nan (DPHX.v_ann b) = false /\
  is_nan (DPHX.dP_in b) = false /\ is_nan (DPHX.dP_ann b) = false /\
  is_nan (DPHX.A_req b) = false /\ (DPHX.A_req b <? infinity) = true.

Lemma optimizer_outcomes E fields :
  match DPHX.calculateDPHX E (ArgObject fields) with
  | Normal (DPHX.Error e) => In e DPHXExtra.validation_errors
  | Normal (DPHX.ErrorWithLogs e _) => e = DPHX.err_no_feasible
  | Normal (DPHX.Success b _) => no_nan b
  | Throw _ => False
  end.
Proof.
  rewrite DPHXFacts.calculateDPHX_object.
  destruct (DPHX.energy_balance E (DPHXFacts.parsed E fields))
    as [e|t] eqn:Hb.
  { apply (DPHXExtra.energy_balance_errors _ _ _ Hb). }
  pose proof (DPHXFacts.search_inv_final E (DPHXFacts.parsed E fields) t
                (DPHXFacts.max_dp_of E fields)) as [_ Hbest].
  pose proof (EntryFacts.search_best_is_finite E (DPHXFacts.parsed E fields)
                t (DPHXFacts.max_dp_of E fields)) as Hfin.
  remember (DPHX.search E (DPHXFacts.parsed E fields) t
              (DPHXFacts.max_dp_of E fields)) as st.
  remember (DPHXFacts.max_dp_of E fields) as max_dp.
  clear Heqst Heqmax_dp.
  unfold DPHX.finish.
  destruct (DPHX.best_design st) as [b|]; [|reflexivity].
  specialize (Hfin b eq_refl).
  destruct Hbest as (_ & Hfb & _).
  unfold DPHX.feasible, DPHX.velocity_ok, DPHX.dp_ok in Hfb.
  apply andb_prop in Hfb as [Hv Hp].
  apply andb_prop in Hv as [Hv1 Hv2]. apply andb_prop in Hp as [Hp1 Hp2].
  apply ltb_not_nan in Hv1 as [? _]. apply ltb_not_nan in Hv2 as [? _].
  apply ltb_not_nan in Hp1 as [? _]. apply ltb_not_nan in Hp2 as [? _].
  pose proof (ltb_not_nan _ _ Hfin) as [? _].
  unfold no_nan. auto 10.
Qed.

(** *** The design engine *)

Import STHX STHXPro STHXFacts STHXExtra STHXProFacts.







(** *** Exceptions *)

(** C8, as stated, fails for the design engine: [calculateSTHX_Pro({})] and
    [calculateSTHX_Pro({ mode: 'design' })] throw a [TypeError] to the
    caller, on every engine. *)
Lemma design_engine_throws_without_fluids :
  (forall E,
      calculateSTHX_Pro E empty_call
      = Throw "TypeError: Cannot read properties of undefined (reading 'm')") /\
  (forall E,
      calculateSTHX_Pro E empty_design_call
      = Throw "TypeError: Cannot read properties of undefined (reading 'm')").
Proof. split; intros E; reflexivity. Qed.

(** C8 (amended): the three entry points whose body is one [try]/[catch]
    (the double-pipe optimizer, the basic [calculateSTHX], the earlier
    [calculateDPHX]) return a result object for every argument, the
    [TypeError] of a property read on [undefined] or [null] coming back as
    [{ error: e.toString() }]; on an object argument the first two raise
    no exception at all (their errors are their validation messages) and
    the third only the [TypeError] of a missing pipe entry.  The design
    engine has no [try]/[catch]: it returns for every argument that
    carries both fluid objects, and without one of them it throws a
    [TypeError] to the caller, always so when both are missing or the mode
    is not ['design'] or the allocation is automatic, the one exception
    being the missing-duty error of design mode. *)
Theorem wrapped_entry_points_never_throw E :
  (forall data, exists r, DPHX.calculateDPHX E data = Normal r) /\
  (forall data, exists r, STHXBasic.calculateSTHX E data = Normal r) /\
  (forall data, exists r, DPHXv2.calculateDPHX E data = Normal r) /\
  (DPHX.calculateDPHX E ArgUndefined
   = Normal (DPHX.Error
       "TypeError: Cannot read properties of undefined (reading 'm_h')") /\
   DPHX.calculateDPHX E ArgNull
   = Normal (DPHX.Error
       "TypeError: Cannot read properties of null (reading 'm_h')") /\
   STHXBasic.calculateSTHX E ArgUndefined
   = Normal (STHXBasic.Error
       "TypeError: Cannot read properties of undefined (reading 'm_h')") /\
   STHXBasic.calculateSTHX E ArgNull
   = Normal (STHXBasic.Error
       "TypeError: Cannot read properties of null (reading 'm_h')") /\
   DPHXv2.calculateDPHX E ArgUndefined
   = Normal (DPHXv2.Error
       "TypeError: Cannot read properties of undefined (reading 'm_h')") /\
   DPHXv2.calculateDPHX E ArgNull
   = Normal (DPHXv2.Error
       "TypeError: Cannot read properties of null (reading 'm_h')")) /\
  (forall fields e,
      DPHX.calculateDPHX E (ArgObject fields) = Normal (DPHX.Error e) ->
      In e [DPHX.err_no_mass_flow; DPHX.err_need_temps; DPHX.err_mismatch;
            DPHX.err_temp_cross; DPHX.err_lmtd]) /\
  (forall fields e,
      STHXBasic.calculateSTHX E (ArgObject fields)
      = Normal (STHXBasic.Error e) ->
      In e [STHXBasic.err_no_mass_flow; STHXBasic.err_need_temps;
            STHXBasic.err_temp_cross]) /\
  (forall fields e,
      DPHXv2.calculateDPHX E (ArgObject fields) = Normal (DPHXv2.Error e) ->
      In e [DPHXv2.err_pipe_size; DPHXv2.err_no_mass_flow;
            DPHXv2.err_need_temps; DPHXv2.err_balance;
            DPHXv2.err_cross_counter; DPHXv2.err_cross_co;
            DPHXv2.err_flow_type; DPHXv2.err_lmtd; DPHXv2.err_diameters;
            "TypeError: Cannot read properties of undefined (reading 'name')"%string]) /\
  (forall c h k,
      call_hot c = Some h -> call_cold c = Some k ->
      calculateSTHX_Pro E c = Normal (calculateSTHX E (with_fluids c h k))) /\
  (forall c,
      call_hot c = None \/ call_cold c = None ->
      (exists key, In key ["mu"; "m"; "Tin"; "Tout"]%string /\
                   calculateSTHX_Pro E c = Throw (type_error key)) \/
      (calculateSTHX_Pro E c = Normal (Error err_no_duty) /\
       shell_alone_without_duty c)) /\
  (forall c,
      call_hot c = None \/ call_cold c = None ->
      (call_hot c = None /\ call_cold c = None) \/
      String.eqb (call_allocation_mode c) "auto" = true \/
      String.eqb (call_mode c) "design" = false ->
      exists key, calculateSTHX_Pro E c = Throw (type_error key)).
Proof.
  split; [intros data; apply EntryFacts.try_catch_returns|].
  split; [intros data; apply EntryFacts.try_catch_returns|].
  split; [intros data; apply EntryFacts.try_catch_returns|].
  split.
  { split; [reflexivity|]. split; [reflexivity|]. split; [reflexivity|].
    split; [reflexivity|]. split; reflexivity. }
  split.
  { intros fields e H. pose proof (optimizer_outcomes E fields) as Ho.
    rewrite H in Ho. exact Ho. }
  split; [intros fields e H; apply (basic_fails_with E fields e H)|].
  split; [intros fields e H; apply (sizing_fails_with E fields e H)|].
  split; [intros c h k; apply calculateSTHX_Pro_both|].
  split; [intros c; apply calculateSTHX_Pro_missing|].
  intros c Hmiss Hcase.
  destruct (calculateSTHX_Pro_missing E c Hmiss)
    as [(key & _ & H)|(_ & Ha & Hd & s & Hs & _)]; [eauto|].
  exfalso. destruct Hcase as [[Hh Hk]|[C|C]]; [|congruence|congruence].
  rewrite Hh, Hk in Hs.
  destruct (String.eqb (call_allocation c) "hot_shell"); discriminate Hs.
Qed.

End Failures.
